(** * Logistics Route & Carbon Tracker: a verified model of [Streamlit_app.py]

    The development embeds the Python program in Rocq and states the
    properties of its specification as theorems.

    - Python floats are IEEE 754 binary64 values.  They are modelled by
      [spec_float] of the Standard Library, with its operations at
      precision 53 and maximal exponent 1024 ([SFmul], [SFdiv], [SFadd],
      [SFsub], [SFcompare]).
    - Exceptions are modelled by the [result] type; what [str(e)] prints is
      kept in the exception.
    - The two web services are an oracle that answers every request in the
      light of the requests made before it; the requests are logged.
    - The map library checks what it is given and may raise; what it
      accepts is an oracle too.
    - The Streamlit page is the list of the elements the script emits. *)

From Stdlib Require Import ZArith QArith Qround Qabs Qpower Lia Lqa Bool.
From Stdlib Require Import String Ascii List.
From Stdlib Require Import DecimalString DecimalZ DecimalFacts DecimalPos.
From Stdlib Require Import Floats.SpecFloat.
Import ListNotations.
Open Scope Z_scope.

(* ================================================================== *)
(** * Part I: definitions *)
(* ================================================================== *)

(** ** Binary64 values and their exact rational meaning *)

Definition float := spec_float.

Definition pow2 (e : Z) : Q := (2 ^ e)%Q.

(** The exact value of a float; zeros, infinities and NaN are given 0. *)
Definition B2Q (f : float) : Q :=
  match f with
  | S754_finite s m e => ((if s then -1 else 1) * inject_Z (Z.pos m) * pow2 e)%Q
  | _ => 0%Q
  end.

Definition fexp64 (e : Z) : Z := fexp 53 1024 e.

Definition fmul : float -> float -> float := SFmul 53 1024.
Definition fdiv : float -> float -> float := SFdiv 53 1024.
Definition fadd : float -> float -> float := SFadd 53 1024.
Definition fsub : float -> float -> float := SFsub 53 1024.
Definition fltb : float -> float -> bool := SFltb.

(** Conversion of a Python [int] to a float: exact below [2^53], rounded to
    nearest even above. *)
Definition float_of_int (n : Z) : float := binary_normalize 53 1024 n 0 false.

(** A finite value that is not below zero (either zero counts); the
    mantissa is in canonical form, as for every value the hardware
    produces. *)
Definition finite_nonneg (f : float) : bool :=
  match f with
  | S754_zero _ => true
  | S754_finite false m e => bounded 53 1024 m e
  | _ => false
  end.

Definition is_finite (f : float) : bool :=
  match f with
  | S754_zero _ | S754_finite _ _ _ => true
  | _ => false
  end.

(** C truth value of a double: anything but a zero. *)
Definition c_true (f : float) : bool :=
  match f with
  | S754_zero _ => false
  | _ => true
  end.

Definition sign_bit (f : float) : bool :=
  match f with
  | S754_zero s | S754_infinity s | S754_finite s _ _ => s
  | S754_nan => false
  end.

Definition fzero (s : bool) : float := S754_zero s.

(** *** Rounding of an exact ratio, as C's [strtod] and [int / int] do *)

Definition round_ratio (s : bool) (n d : Z) : float :=
  match n with
  | Z.pos _ =>
      let '(q, e, l) := SFdiv_core_binary 53 1024 n 0 d 0 in
      binary_round_aux 53 1024 s q e l
  | _ => S754_zero s
  end.

(** Nearest integer to [n / d], ties to the even one ([d > 0]). *)
Definition rne_div (n d : Z) : Z :=
  let q := n / d in
  match 2 * (n mod d) ?= d with
  | Lt => q
  | Gt => q + 1
  | Eq => if Z.even q then q else q + 1
  end.

(** *** Bracketing of a real by a mantissa, an exponent and a location *)

Definition inbetween (m : Z) (l : location) (e : Z) (x : Q) : Prop :=
  match l with
  | loc_Exact => (x == inject_Z m * pow2 e)%Q
  | loc_Inexact c =>
      (inject_Z m * pow2 e < x)%Q /\ (x < (inject_Z m + 1) * pow2 e)%Q /\
      match c with
      | Lt => (x < (inject_Z m + (1#2)) * pow2 e)%Q
      | Eq => (x == (inject_Z m + (1#2)) * pow2 e)%Q
      | Gt => ((inject_Z m + (1#2)) * pow2 e < x)%Q
      end
  end.

Definition inb_rec (mrs : shr_record) (e : Z) (x : Q) : Prop :=
  0 <= shr_m mrs /\ inbetween (shr_m mrs) (loc_of_shr_record mrs) e x.

(** [nearest x v]: no value of the binary64 format, taken with an unbounded
    exponent range above, is closer to [x] than [v] is. *)
Definition nearest (x v : Q) : Prop :=
  forall M F, Z.abs M < 2 ^ 53 -> -1074 <= F ->
    (Qabs (v - x) <= Qabs (inject_Z M * pow2 F - x))%Q.

(** What rounding the magnitude [x] with sign [s] may return. *)
Inductive round_spec (s : bool) (x : Q) : float -> Prop :=
| RS_zero : nearest x 0 -> round_spec s x (S754_zero s)
| RS_finite m e : bounded 53 1024 m e = true ->
    nearest x (inject_Z (Z.pos m) * pow2 e) -> round_spec s x (S754_finite s m e)
| RS_inf v : nearest x v -> (pow2 1024 <= v)%Q -> round_spec s x (S754_infinity s).

Definition rounds_nonneg (x : Q) (r : float) : Prop :=
  (finite_nonneg r = true /\ nearest x (B2Q r)) \/
  (r = S754_infinity false /\ exists v, nearest x v /\ (pow2 1024 <= v)%Q).

(** ** Python exceptions *)

Inductive exn_kind :=
| ValueError | TypeError | KeyError | IndexError | AttributeError
| OverflowError | ZeroDivisionError
| RequestException   (* requests.exceptions.*: connection errors, timeouts *)
| JSONDecodeError.

(** [exn_str] is what [str(e)] returns. *)
Record exn := mk_exn { exn_type : exn_kind; exn_str : string }.

Inductive result (A : Type) :=
| Ok (a : A)
| Raise (e : exn).
Arguments Ok {A} a.
Arguments Raise {A} e.

Definition bind {A B} (r : result A) (k : A -> result B) : result B :=
  match r with
  | Ok a => k a
  | Raise e => Raise e
  end.

Notation "x <- c ;; k" := (bind c (fun x => k))
  (at level 61, c at next level, right associativity).

Definition raise {A} (k : exn_kind) (msg : string) : result A := Raise (mk_exn k msg).

(** ** Python numeric built-ins on floats *)

(** C [floor]. *)
Definition c_floor (x : float) : float :=
  match x with
  | S754_finite s m e =>
      if 0 <=? e then x
      else
        let q := Z.pos m / 2 ^ (- e) in
        if s
        then binary_normalize 53 1024 (- (if Z.pos m mod 2 ^ (- e) =? 0 then q else q + 1)) 0 true
        else binary_normalize 53 1024 q 0 false
  | _ => x
  end.

(** C [fmod]: the exact remainder, with the sign of [x]. *)
Definition c_fmod (x y : float) : float :=
  match x, y with
  | S754_nan, _ | _, S754_nan => S754_nan
  | S754_infinity _, _ => S754_nan
  | _, S754_zero _ => S754_nan
  | S754_zero _, _ => x
  | _, S754_infinity _ => x
  | S754_finite sx mx ex, S754_finite _ my ey =>
      let ez := Z.min ex ey in
      let X := Z.pos mx * 2 ^ (ex - ez) in
      let Y := Z.pos my * 2 ^ (ey - ez) in
      binary_normalize 53 1024 (cond_Zopp sx (X mod Y)) ez sx
  end.

Definition c_copysign (x y : float) : float :=
  match x with
  | S754_zero _ => S754_zero (sign_bit y)
  | S754_infinity _ => S754_infinity (sign_bit y)
  | S754_finite _ m e => S754_finite (sign_bit y) m e
  | S754_nan => S754_nan
  end.

Definition f_0_5 : float := S754_finite false 4503599627370496 (-53).
Definition f_1_0 : float := float_of_int 1.

(** [_float_div_mod] of CPython's floatobject.c: the quotient part. *)
Definition float_div_mod_floordiv (vx wx : float) : float :=
  let mod_ := c_fmod vx wx in
  let div := fdiv (fsub vx mod_) wx in
  let div :=
    if c_true mod_
    then if xorb (fltb wx (fzero false)) (fltb mod_ (fzero false))
         then fsub div f_1_0 else div
    else div in
  if c_true div then
    let floordiv := c_floor div in
    if fltb f_0_5 (fsub div floordiv) then fadd floordiv f_1_0 else floordiv
  else c_copysign (fzero false) (fdiv vx wx).

(** [_float_div_mod]: the remainder part, which is also [float_rem]. *)
Definition float_div_mod_mod (vx wx : float) : float :=
  let mod_ := c_fmod vx wx in
  if c_true mod_
  then if xorb (fltb wx (fzero false)) (fltb mod_ (fzero false))
       then fadd mod_ wx else mod_
  else c_copysign (fzero false) wx.

(** [v // w] on floats. *)
Definition float_floordiv (v w : float) : result float :=
  if c_true w then Ok (float_div_mod_floordiv v w)
  else raise ZeroDivisionError "float floor division by zero".

(** [v % w] on floats. *)
Definition float_mod (v w : float) : result float :=
  if c_true w then Ok (float_div_mod_mod v w)
  else raise ZeroDivisionError "float modulo".

(** [v / w] on floats. *)
Definition float_truediv (v w : float) : result float :=
  if c_true w then Ok (fdiv v w)
  else raise ZeroDivisionError "float division by zero".

(** [int(x)] of a float: truncation towards zero. *)
Definition py_int (x : float) : result Z :=
  match x with
  | S754_zero _ => Ok 0
  | S754_finite s m e =>
      let a := if 0 <=? e then Z.pos m * 2 ^ e else Z.pos m / 2 ^ (- e) in
      Ok (if s then - a else a)
  | S754_infinity _ => raise OverflowError "cannot convert float infinity to integer"
  | S754_nan => raise ValueError "cannot convert float NaN to integer"
  end.

(** [round(x)] of a float, without [ndigits]: the nearest [int], ties to
    even. *)
Definition py_round (x : float) : result Z :=
  match x with
  | S754_zero _ => Ok 0
  | S754_finite s m e =>
      let a := if 0 <=? e then Z.pos m * 2 ^ e else rne_div (Z.pos m) (2 ^ (- e)) in
      Ok (if s then - a else a)
  | S754_infinity _ => raise OverflowError "cannot convert float infinity to integer"
  | S754_nan => raise ValueError "cannot convert float NaN to integer"
  end.

(** The decimal with [ndigits] places nearest to the magnitude [m * 2^e]
    (ties to even), as the integer count of units [10^-ndigits]. *)
Definition decimal_units (m : positive) (e ndigits : Z) : Z :=
  let num := Z.pos m * 2 ^ Z.max e 0 * 10 ^ Z.max ndigits 0 in
  let den := 2 ^ Z.max (- e) 0 * 10 ^ Z.max (- ndigits) 0 in
  rne_div num den.

(** [round(x, ndigits)] of a float: [double_round] of floatobject.c, that
    is the correctly rounded decimal string read back by [strtod]. *)
Definition py_round_ndigits (x : float) (ndigits : Z) : result float :=
  match x with
  | S754_finite s m e =>
      if 323 <? ndigits then Ok x
      else if ndigits <? -308 then Ok (S754_zero s)
      else
        let u := decimal_units m e ndigits in
        let r := round_ratio s (u * 10 ^ Z.max (- ndigits) 0) (10 ^ Z.max ndigits 0) in
        match r with
        | S754_infinity _ => raise OverflowError "rounded value too large to represent"
        | _ => Ok r
        end
  | _ => Ok x
  end.

(** ** Strings: [str] of numbers, [float] of a string, URL quoting *)

Open Scope string_scope.
Open Scope Z_scope.

(** [str(n)] of an [int]. *)
Definition str_of_Z (n : Z) : string := NilZero.string_of_int (Z.to_int n).

(** [f"{n:+}"] of an [int]. *)
Definition str_of_Z_signed (n : Z) : string :=
  if n <? 0 then str_of_Z n else "+" ++ str_of_Z n.

Definition ndigits10 (n : Z) : Z :=
  match n with
  | Z.pos p => Z.of_nat (Decimal.nb_digits (Pos.to_uint p))
  | _ => 1
  end.

Definition float_eqb (x y : float) : bool :=
  match x, y with
  | S754_zero a, S754_zero b => Bool.eqb a b
  | S754_infinity a, S754_infinity b => Bool.eqb a b
  | S754_nan, S754_nan => true
  | S754_finite a m e, S754_finite b m' e' => Bool.eqb a b && Pos.eqb m m' && Z.eqb e e'
  | _, _ => false
  end.

(** The value [c * 10^k] read back as a float. *)
Definition decimal_to_float (s : bool) (c k : Z) : float :=
  round_ratio s (c * 10 ^ Z.max k 0) (10 ^ Z.max (- k) 0).

(** Decimal exponent of [n / d]: the [k] with [10^k <= n/d < 10^(k+1)]. *)
Definition decimal_exponent (n d : Z) : Z :=
  let k0 := ndigits10 n - ndigits10 d in
  if d * 10 ^ Z.max k0 0 <=? n * 10 ^ Z.max (- k0) 0 then k0 else k0 - 1.

(** Search for the shortest decimal [c * 10^k] with [nd] digits that reads
    back as the float [m * 2^e], trying [nd], [nd + 1], ...; of two
    candidates the one nearer to the float is taken. *)
Fixpoint shortest_decimal (fuel : nat) (nd : Z) (m : positive) (e : Z) : Z * Z :=
  let n := Z.pos m * 2 ^ Z.max e 0 in
  let d := 2 ^ Z.max (- e) 0 in
  let k := decimal_exponent n d + 1 - nd in
  let num := n * 10 ^ Z.max (- k) 0 in
  let den := d * 10 ^ Z.max k 0 in
  let lo := num / den in
  let hi := lo + 1 in
  let x := S754_finite false m e in
  let ok_lo := float_eqb (decimal_to_float false lo k) x in
  let ok_hi := float_eqb (decimal_to_float false hi k) x in
  match fuel with
  | O => (lo, k)
  | S fuel' =>
      if ok_lo && ok_hi then (rne_div num den, k)
      else if ok_lo then (lo, k)
      else if ok_hi then (hi, k)
      else shortest_decimal fuel' (nd + 1) m e
  end.

Fixpoint strip_zeros (fuel : nat) (c k : Z) : Z * Z :=
  match fuel with
  | O => (c, k)
  | S fuel' => if (c mod 10 =? 0) && (0 <? c) then strip_zeros fuel' (c / 10) (k + 1) else (c, k)
  end.

Fixpoint zeros (n : nat) : string :=
  match n with
  | O => ""
  | S n' => "0" ++ zeros n'
  end.

Definition substring_from (n : nat) (s : string) : string :=
  substring n (String.length s - n) s.

(** Layout of the digits [ds] with the decimal point after [decpt] of them,
    as [repr] does: exponent notation when [decpt <= -4] or [decpt > 16]. *)
Definition layout_repr (ds : string) (decpt : Z) : string :=
  let n := Z.of_nat (String.length ds) in
  if (-4 <? decpt) && (decpt <=? 16) then
    if decpt <=? 0 then "0." ++ zeros (Z.to_nat (- decpt)) ++ ds
    else if n <=? decpt then ds ++ zeros (Z.to_nat (decpt - n)) ++ ".0"
    else substring 0 (Z.to_nat decpt) ds ++ "." ++ substring_from (Z.to_nat decpt) ds
  else
    let ex := decpt - 1 in
    let mant := if n =? 1 then ds else substring 0 1 ds ++ "." ++ substring_from 1 ds in
    let exs := str_of_Z (Z.abs ex) in
    mant ++ "e" ++ (if ex <? 0 then "-" else "+")
         ++ (if Z.abs ex <? 10 then "0" ++ exs else exs).

(** [repr(x)], which is also [str(x)] and [f"{x}"], without the sign. *)
Definition float_repr_abs (x : float) : string :=
  match x with
  | S754_zero _ => "0.0"
  | S754_infinity _ => "inf"
  | S754_nan => "nan"
  | S754_finite _ m e =>
      let '(c, k) := shortest_decimal 17 1 m e in
      let '(c, k) := strip_zeros 20 c k in
      let ds := str_of_Z c in
      layout_repr ds (k + Z.of_nat (String.length ds))
  end.

Definition float_repr (x : float) : string :=
  (if sign_bit x then "-" else "") ++ float_repr_abs x.

(** [f"{x:+}"] of a float. *)
Definition float_repr_signed (x : float) : string :=
  (if sign_bit x then "-" else "+") ++ float_repr_abs x.

(** *** Reading a float *)

Definition is_digit (c : ascii) : bool :=
  let n := nat_of_ascii c in (48 <=? n)%nat && (n <=? 57)%nat.

Definition digit_value (c : ascii) : Z := Z.of_nat (nat_of_ascii c) - 48.

Definition is_space (c : ascii) : bool :=
  let n := nat_of_ascii c in
  ((9 <=? n)%nat && (n <=? 13)%nat) || (n =? 32)%nat.

Definition lower (c : ascii) : ascii :=
  let n := nat_of_ascii c in
  if (65 <=? n)%nat && (n <=? 90)%nat then ascii_of_nat (n + 32) else c.

Fixpoint lower_string (s : string) : string :=
  match s with
  | EmptyString => EmptyString
  | String c s' => String (lower c) (lower_string s')
  end.

Fixpoint lstrip (s : string) : string :=
  match s with
  | String c s' => if is_space c then lstrip s' else s
  | EmptyString => EmptyString
  end.

Fixpoint string_rev_append (s acc : string) : string :=
  match s with
  | EmptyString => acc
  | String c s' => string_rev_append s' (String c acc)
  end.

Definition string_rev (s : string) : string := string_rev_append s "".

Definition strip (s : string) : string := string_rev (lstrip (string_rev (lstrip s))).

(** A run of digits in which single underscores may separate digits:
    the value so far, the count of digits and the rest of the input.
    [prev] tells whether the character before was a digit. *)
Fixpoint read_digits (s : string) (acc : Z) (cnt : Z) (prev : bool) : Z * Z * string :=
  match s with
  | String c s' =>
      if is_digit c then read_digits s' (acc * 10 + digit_value c) (cnt + 1) true
      else if prev && Ascii.eqb c "_" then
        match s' with
        | String c' _ => if is_digit c' then read_digits s' acc cnt false else (acc, cnt, s)
        | EmptyString => (acc, cnt, s)
        end
      else (acc, cnt, s)
  | EmptyString => (acc, cnt, s)
  end.

Definition read_sign (s : string) : bool * string :=
  match s with
  | String "-" s' => (true, s')
  | String "+" s' => (false, s')
  | _ => (false, s)
  end.

(** The optional exponent part: [None] when the input is malformed. *)
Definition read_exponent (s : string) : option Z :=
  match s with
  | EmptyString => Some 0
  | String c s' =>
      if Ascii.eqb (lower c) "e" then
        let '(neg, s'') := read_sign s' in
        let '(v, cnt, rest) := read_digits s'' 0 0 false in
        if (0 <? cnt) && String.eqb rest "" then Some (if neg then - v else v) else None
      else None
  end.

(** The decimal literal after the sign. *)
Definition read_decimal (neg : bool) (s : string) : option float :=
  let '(ip, icnt, s1) := read_digits s 0 0 false in
  let '(fp, fcnt, s2) :=
    match s1 with
    | String "." s1' => read_digits s1' ip 0 false
    | _ => (ip, 0, s1)
    end in
  if 0 <? icnt + fcnt then
    match read_exponent s2 with
    | Some ex => Some (decimal_to_float neg fp (ex - fcnt))
    | None => None
    end
  else None.

(** [repr] of a string, for messages: exact for strings without quotes,
    backslashes and control characters. *)
Definition str_repr (s : string) : string := "'" ++ s ++ "'".

(** [float(s)] of a string. *)
Definition float_of_string (s : string) : result float :=
  let '(neg, body) := read_sign (strip s) in
  let low := lower_string body in
  if String.eqb low "inf" || String.eqb low "infinity" then Ok (S754_infinity neg)
  else if String.eqb low "nan" then Ok S754_nan
  else
    match read_decimal neg body with
    | Some f => Ok f
    | None => raise ValueError ("could not convert string to float: " ++ str_repr s)
    end.

(** *** [requests.utils.quote]: percent-encoding of every byte but letters,
    digits and [_.-~/] *)

Definition is_unreserved (c : ascii) : bool :=
  let n := nat_of_ascii c in
  ((48 <=? n)%nat && (n <=? 57)%nat) || ((65 <=? n)%nat && (n <=? 90)%nat)
  || ((97 <=? n)%nat && (n <=? 122)%nat)
  || Ascii.eqb c "_" || Ascii.eqb c "." || Ascii.eqb c "-" || Ascii.eqb c "~"
  || Ascii.eqb c "/".

Definition hex_digit (n : nat) : ascii :=
  if (n <? 10)%nat then ascii_of_nat (48 + n) else ascii_of_nat (55 + n).

Fixpoint quote (s : string) : string :=
  match s with
  | EmptyString => EmptyString
  | String c s' =>
      if is_unreserved c then String c (quote s')
      else
        let n := nat_of_ascii c in
        String "%" (String (hex_digit (n / 16)) (String (hex_digit (n mod 16)) (quote s')))
  end.

(** [sub] occurs in [s]. *)
Definition contains (sub s : string) : Prop :=
  exists pre post, s = pre ++ sub ++ post.

(** ** The program: constants and helper functions *)

Definition CO2_PER_KM : Z := 150.
Definition COST_PER_KM : Z := 8.
Definition TILE_URL : string :=
  "https://{s}.basemaps.cartocdn.com/light_all/{z}/{x}/{y}{r}.png".
Definition TILE_ATTR : string := "© OpenStreetMap • © CartoDB".
Definition HEADERS : list (string * string) :=
  [("User-Agent", "streamlit-carbon-demo")].

(** [km]: [round(meters / 1000, 2)]. *)
Definition km (meters : float) : result float :=
  q <- float_truediv meters (float_of_int 1000) ;;
  py_round_ndigits q 2.

(** The separator that the f-string of [hmin] holds three times is not the
    ASCII space but U+202F NARROW NO-BREAK SPACE: the bytes E2 80 AF. *)
Definition NNBSP : string :=
  String "226"%char (String "128"%char (String "175"%char EmptyString)).

(** [c in s] for a character. *)
Fixpoint has_char (c : ascii) (s : string) : bool :=
  match s with
  | EmptyString => false
  | String x s' => Ascii.eqb x c || has_char c s'
  end.

(** [hmin]: the hours are [int(seconds // 3600)], the minutes
    [int(round((seconds % 3600) / 60))]; [round] already returns an [int].
    The text is [h], U+202F, the letter h, U+202F, [m], U+202F, "min". *)
Definition hmin (seconds : float) : result string :=
  fd <- float_floordiv seconds (float_of_int 3600) ;;
  h <- py_int fd ;;
  r <- float_mod seconds (float_of_int 3600) ;;
  q <- float_truediv r (float_of_int 60) ;;
  m <- py_round q ;;
  Ok (str_of_Z h ++ NNBSP ++ "h" ++ NNBSP ++ str_of_Z m ++ NNBSP ++ "min").

(** [calc_metrics]: grams of CO2 and cost of a distance. *)
Definition calc_metrics (distance_km : float) : result (Z * Z) :=
  co2 <- py_int (fmul distance_km (float_of_int CO2_PER_KM)) ;;
  cost <- py_int (fmul distance_km (float_of_int COST_PER_KM)) ;;
  Ok (co2, cost).

(** ** JSON values, as [response.json()] returns them

    [JNum] holds the double a number denotes.  (Python's [json] yields an
    [int] for an integer literal; the arithmetic below converts it to the
    same double whenever its magnitude is at most [2^53].) *)

#[local] Set Warnings "-register-all".

Inductive json :=
| JNull
| JBool (b : bool)
| JNum (x : float)
| JStr (s : string)
| JArr (items : list json)
| JObj (fields : list (string * json)).

Definition type_name (j : json) : string :=
  match j with
  | JNull => "NoneType"
  | JBool _ => "bool"
  | JNum _ => "float"
  | JStr _ => "str"
  | JArr _ => "list"
  | JObj _ => "dict"
  end.

(** Python truth value. *)
Definition truthy (j : json) : bool :=
  match j with
  | JNull => false
  | JBool b => b
  | JNum x => c_true x
  | JStr s => negb (String.eqb s "")
  | JArr items => match items with [] => false | _ => true end
  | JObj fields => match fields with [] => false | _ => true end
  end.

(** Lookup in a decoded object: of repeated names the last one wins. *)
Fixpoint dict_get (k : string) (fields : list (string * json)) : option json :=
  match fields with
  | [] => None
  | (k', v) :: rest =>
      match dict_get k rest with
      | Some v' => Some v'
      | None => if String.eqb k k' then Some v else None
      end
  end.

(** [j[i]] for a constant index [i >= 0]. *)
Definition getitem_int (j : json) (i : nat) : result json :=
  match j with
  | JArr items =>
      match nth_error items i with
      | Some v => Ok v
      | None => raise IndexError "list index out of range"
      end
  | JStr s =>
      match String.get i s with
      | Some c => Ok (JStr (String c ""))
      | None => raise IndexError "string index out of range"
      end
  | JObj _ => raise KeyError (str_of_Z (Z.of_nat i))
  | _ => raise TypeError ("'" ++ type_name j ++ "' object is not subscriptable")
  end.

(** [j[k]] for a string key [k]. *)
Definition getitem_str (j : json) (k : string) : result json :=
  match j with
  | JObj fields =>
      match dict_get k fields with
      | Some v => Ok v
      | None => raise KeyError (str_repr k)
      end
  | JArr _ => raise TypeError "list indices must be integers or slices, not str"
  | JStr _ => raise TypeError "string indices must be integers, not 'str'"
  | _ => raise TypeError ("'" ++ type_name j ++ "' object is not subscriptable")
  end.

(** [j.get(k)]. *)
Definition dict_method_get (j : json) (k : string) : result json :=
  match j with
  | JObj fields =>
      match dict_get k fields with
      | Some v => Ok v
      | None => Ok JNull
      end
  | _ => raise AttributeError ("'" ++ type_name j ++ "' object has no attribute 'get'")
  end.

(** [len(j)]. *)
Definition py_len (j : json) : result Z :=
  match j with
  | JArr items => Ok (Z.of_nat (List.length items))
  | JStr s => Ok (Z.of_nat (String.length s))
  | JObj fields => Ok (Z.of_nat (List.length fields))
  | _ => raise TypeError ("object of type '" ++ type_name j ++ "' has no len()")
  end.

(** [float(j)]. *)
Definition py_float (j : json) : result float :=
  match j with
  | JNum x => Ok x
  | JStr s => float_of_string s
  | JBool b => Ok (float_of_int (if b then 1 else 0))
  | _ => raise TypeError
           ("float() argument must be a string or a real number, not '" ++ type_name j ++ "'")
  end.

(** The left operand of [j op n] for a constant [int] [n]. *)
Definition num_operand (op : string) (j : json) : result float :=
  match j with
  | JNum x => Ok x
  | JBool b => Ok (float_of_int (if b then 1 else 0))
  | _ => raise TypeError
           ("unsupported operand type(s) for " ++ op ++ ": '" ++ type_name j ++ "' and 'int'")
  end.

(** ** The network and the page *)

(** A GET request: the URL, the headers passed explicitly and the timeout. *)
Record request := mk_request {
  req_url : string;
  req_headers : list (string * string);
  req_timeout : Z
}.

(** What [requests.get(...).json()] gives for a request, in the light of the
    requests made before it: the decoded body, or the exception raised by
    the transport or by the decoding. *)
Definition world := list request -> request -> result json.

Inductive map_child :=
| GeoJson (data : json) (name color : string) (weight : Z) (dash_array : option string)
          (tooltip : string)
| Marker (location : float * float) (tooltip icon_color : string)
         (icon icon_prefix : option string)
| LayerControl.

Record folium_map := mk_map {
  map_location : float * float;
  map_zoom_start : Z;
  map_tiles : string;
  map_attr : string;
  map_children : list map_child
}.

(** The calls into the map library that are given data of the run:
    [folium.Map(...)] (the map has no children yet), [folium.GeoJson(...)]
    and [folium.Marker(...)], and [st_folium(m, ...)], which renders the
    map.  They check what they are given (a location must be two numbers,
    not NaN; the data must be something that can be drawn) and raise
    otherwise. *)
Inductive folium_call :=
| New_map (m : folium_map)
| New_child (c : map_child)
| Render (m : folium_map) (width height : Z).

(** What the library does with a call: it returns, or it raises. *)
Definition folium := folium_call -> result unit.

(** The elements of the page, in the order the script emits them; [col] is
    the column an element is placed in. *)
Inductive ui_element :=
| St_page_config (page_title layout : string)
| St_title (text : string)
| St_columns (widths : list Z)
| St_text_input (col : nat) (label default : string)
| St_button (col : nat) (label : string) (use_container_width : bool)
| St_folium (m : folium_map) (width height : Z)
| St_markdown (text : string)
| St_metric (col : nat) (label value : string) (delta help : option string)
| St_success (col : nat) (text : string)
| St_error (text : string).

(** The state a run threads: the requests made and the page built so far. *)
Record session := mk_session {
  requests_log : list request;
  page : list ui_element
}.

(** Computations with effects on the session that may raise. *)
Definition io (A : Type) : Type := session -> result A * session.

Definition io_ret {A} (a : A) : io A := fun s => (Ok a, s).

Definition io_bind {A B} (c : io A) (k : A -> io B) : io B :=
  fun s =>
    match c s with
    | (Ok a, s') => k a s'
    | (Raise e, s') => (Raise e, s')
    end.

Notation "x <~ c ;; k" := (io_bind c (fun x => k))
  (at level 61, c at next level, right associativity).

Definition io_lift {A} (r : result A) : io A := fun s => (r, s).

Definition io_raise {A} (k : exn_kind) (msg : string) : io A := io_lift (raise k msg).

Definition emit (u : ui_element) : io unit :=
  fun s => (Ok tt, mk_session (requests_log s) (page s ++ [u])%list).

(** [requests.get(url, headers=..., timeout=...).json()]. *)
Definition requests_get_json (w : world) (r : request) : io json :=
  fun s => (w (requests_log s) r, mk_session (requests_log s ++ [r])%list (page s)).

(** [try: body except Exception as e: st.error(str(e))]. *)
Definition try_except_error (body : io unit) : io unit :=
  fun s =>
    match body s with
    | (Ok tt, s') => (Ok tt, s')
    | (Raise e, s') => emit (St_error (exn_str e)) s'
    end.

(** ** The program: the two service calls *)

Definition geocode_url (place : string) : string :=
  "https://nominatim.openstreetmap.org/search?format=json&q=" ++ quote place ++ "&limit=1".

(** [geocode]: the (latitude, longitude) of a place. *)
Definition geocode (w : world) (place : string) : io (float * float) :=
  js <~ requests_get_json w (mk_request (geocode_url place) HEADERS 15) ;;
  if negb (truthy js) then io_raise ValueError ("Place not found: " ++ place)
  else
    io_lift (
      first <- getitem_int js 0 ;;
      lat_field <- getitem_str first "lat" ;;
      lat <- py_float lat_field ;;
      first' <- getitem_int js 0 ;;
      lon_field <- getitem_str first' "lon" ;;
      lon <- py_float lon_field ;;
      Ok (lat, lon)).

Definition routes_coords (start end_ : float * float) : string :=
  float_repr (snd start) ++ "," ++ float_repr (fst start) ++ ";"
  ++ float_repr (snd end_) ++ "," ++ float_repr (fst end_).

Definition routes_url (start end_ : float * float) : string :=
  "https://router.project-osrm.org/route/v1/driving/"
  ++ routes_coords start end_
  ++ "?alternatives=true&overview=full&geometries=geojson".

(** [fetch_routes]: the first route and the second one, or the first one
    again.  The request passes no [headers] argument. *)
Definition fetch_routes (w : world) (start end_ : float * float) : io (json * json) :=
  js <~ requests_get_json w (mk_request (routes_url start end_) [] 20) ;;
  io_lift (
    found <- dict_method_get js "routes" ;;
    if negb (truthy found) then raise ValueError "No routes found from OSRM"
    else
      routes <- getitem_str js "routes" ;;
      best <- getitem_int routes 0 ;;
      n <- py_len routes ;;
      alt <- (if 1 <? n then getitem_int routes 1 else getitem_int routes 0) ;;
      Ok (best, alt)).

(** ** The program: the Streamlit script *)

(** The mean of two coordinates: [(a + b) / 2]. *)
Definition midpoint (a b : float) : float := fdiv (fadd a b) (float_of_int 2).

(** [km(route["distance"])]. *)
Definition route_km (route : json) : result float :=
  d <- getitem_str route "distance" ;;
  meters <- num_operand "/" d ;;
  km meters.

(** [hmin(route['duration'])]. *)
Definition route_hmin (route : json) : result string :=
  d <- getitem_str route "duration" ;;
  seconds <- num_operand "//" d ;;
  hmin seconds.

(** The column of metrics of the old route. *)
Definition old_route_column (best : json) (best_km : float) (best_co2 best_cost : Z) : io unit :=
  help <~ io_lift (route_hmin best) ;;
  _ <~ emit (St_metric 1 "Old route" (float_repr best_km ++ " km") None (Some help)) ;;
  _ <~ emit (St_metric 1 "CO₂" (str_of_Z best_co2 ++ " g") None None) ;;
  emit (St_metric 1 "Cost" ("₹" ++ str_of_Z best_cost) None None).

(** The column of metrics of the other route, with the differences. *)
Definition optimized_column (alt : json) (best_km alt_km : float)
    (best_co2 best_cost alt_co2 alt_cost : Z) : io unit :=
  help <~ io_lift (route_hmin alt) ;;
  _ <~ emit (St_metric 2 "Optimized" (float_repr alt_km ++ " km")
               (Some (float_repr_signed (fsub best_km alt_km) ++ " km")) (Some help)) ;;
  _ <~ emit (St_metric 2 "CO₂" (str_of_Z alt_co2 ++ " g")
               (Some (str_of_Z_signed (best_co2 - alt_co2) ++ " g")) None) ;;
  emit (St_metric 2 "Cost" ("₹" ++ str_of_Z alt_cost)
          (Some ("₹" ++ str_of_Z_signed (best_cost - alt_cost))) None).

(** The column of savings: old minus optimized. *)
Definition savings_column (best_co2 best_cost alt_co2 alt_cost : Z) : io unit :=
  _ <~ emit (St_success 3 ("**CO₂ saved:** " ++ str_of_Z (best_co2 - alt_co2) ++ " g")) ;;
  emit (St_success 3 ("**₹ saved:** " ++ str_of_Z (best_cost - alt_cost))).

(** The body of the [try] block. *)
Definition pipeline (w : world) (f : folium) (origin destination : string) : io unit :=
  start <~ geocode w origin ;;
  end_ <~ geocode w destination ;;
  routes <~ fetch_routes w start end_ ;;
  let '(best, alt) := routes in
  (* Metrics *)
  best_km <~ io_lift (route_km best) ;;
  alt_km <~ io_lift (route_km alt) ;;
  best_m <~ io_lift (calc_metrics best_km) ;;
  alt_m <~ io_lift (calc_metrics alt_km) ;;
  let '(best_co2, best_cost) := best_m in
  let '(alt_co2, alt_cost) := alt_m in
  (* Map *)
  let center := (midpoint (fst start) (fst end_), midpoint (snd start) (snd end_)) in
  _ <~ io_lift (f (New_map (mk_map center 10 TILE_URL TILE_ATTR []))) ;;
  best_geometry <~ io_lift (getitem_str best "geometry") ;;
  best_time <~ io_lift (route_hmin best) ;;
  let old_layer :=
    GeoJson best_geometry "Old route" "red" 6 None
      ("Old: " ++ float_repr best_km ++ " km, " ++ best_time) in
  _ <~ io_lift (f (New_child old_layer)) ;;
  alt_geometry <~ io_lift (getitem_str alt "geometry") ;;
  alt_time <~ io_lift (route_hmin alt) ;;
  let new_layer :=
    GeoJson alt_geometry "Optimized route" "blue" 6 (Some "6 6")
      ("Opt: " ++ float_repr alt_km ++ " km, " ++ alt_time) in
  _ <~ io_lift (f (New_child new_layer)) ;;
  let start_marker := Marker start "Start" "green" None None in
  _ <~ io_lift (f (New_child start_marker)) ;;
  let end_marker := Marker end_ "End" "green" (Some "flag-checkered") (Some "fa") in
  _ <~ io_lift (f (New_child end_marker)) ;;
  let m := mk_map center 10 TILE_URL TILE_ATTR
    [ old_layer; new_layer; start_marker; end_marker; LayerControl ] in
  _ <~ io_lift (f (Render m 900 600)) ;;
  _ <~ emit (St_folium m 900 600) ;;
  _ <~ emit (St_markdown "### 📊 Route metrics") ;;
  _ <~ emit (St_columns [1; 1; 1]) ;;
  _ <~ old_route_column best best_km best_co2 best_cost ;;
  _ <~ optimized_column alt best_km alt_km best_co2 best_cost alt_co2 alt_cost ;;
  savings_column best_co2 best_cost alt_co2 alt_cost.

(** What follows [if go:]. *)
Definition on_go (w : world) (f : folium) (origin destination : string) : io unit :=
  try_except_error (pipeline w f origin destination).

(** The whole script, for the values [origin] and [destination] that the
    two text inputs return and the state [go] that the button returns. *)
Definition script (w : world) (f : folium) (origin destination : string) (go : bool) : io unit :=
  _ <~ emit (St_page_config "Route & Carbon Tracker" "wide") ;;
  _ <~ emit (St_title "🚚 Logistics Route & Carbon Tracker") ;;
  _ <~ emit (St_columns [3; 3; 1]) ;;
  _ <~ emit (St_text_input 1 "Origin" "Uttam Nagar, Delhi") ;;
  _ <~ emit (St_text_input 2 "Destination" "Dwarka Sector 21, Delhi") ;;
  _ <~ emit (St_button 3 "Get Routes" true) ;;
  if go then on_go w f origin destination else io_ret tt.

Definition empty_session : session := mk_session [] [].

(** ** Reading a shown integer back, and the end-to-end scenario *)

(** [int(s)] of a decimal string. *)
Definition Z_of_str (s : string) : option Z :=
  option_map Z.of_int (NilZero.int_of_string s).

Definition place_json (lat lon : string) : json :=
  JArr [JObj [("lat", JStr lat); ("lon", JStr lon)]].

Definition route_json (distance duration : Z) : json :=
  JObj [("distance", JNum (float_of_int distance));
        ("duration", JNum (float_of_int duration));
        ("geometry", JObj [("type", JStr "LineString"); ("coordinates", JArr [])])].

(** The services of the scenario: the origin is at (28.6, 77.05), the
    destination at (28.59, 77.04), and two routes of 12000 m in 1500 s and
    15000 m in 1800 s are found. *)
Definition scenario_world : world :=
  fun log _ =>
    match log with
    | [] => Ok (place_json "28.6" "77.05")
    | [_] => Ok (place_json "28.59" "77.04")
    | _ => Ok (JObj [("code", JStr "Ok");
                     ("routes", JArr [route_json 12000 1500; route_json 15000 1800])])
    end.

(** A map library that draws whatever it is given. *)
Definition folium_draws : folium := fun _ => Ok tt.

(** Services that find no place at all. *)
Definition nowhere_world : world := fun _ _ => Ok (JArr []).

(** Services that find the places but not the routing server. *)
Definition offline_router_world : world :=
  fun log _ =>
    match log with
    | [] => Ok (place_json "28.6" "77.05")
    | [_] => Ok (place_json "28.59" "77.04")
    | _ => Raise (mk_exn RequestException "HTTPSConnectionPool: Max retries exceeded")
    end.

(** Services that find the origin only. *)
Definition one_place_world : world :=
  fun log _ =>
    match log with
    | [] => Ok (place_json "28.6" "77.05")
    | _ => Ok (JArr [])
    end.

(** What the scenario is expected to show below the input widgets. *)
Definition scenario_map : folium_map :=
  mk_map
    (S754_finite false 8048776959041208 (-48), S754_finite false 5421559895168123 (-46))
    10 TILE_URL TILE_ATTR
    [ GeoJson (JObj [("type", JStr "LineString"); ("coordinates", JArr [])])
        "Old route" "red" 6 None
        ("Old: 12.0 km, 0" ++ NNBSP ++ "h" ++ NNBSP ++ "25" ++ NNBSP ++ "min");
      GeoJson (JObj [("type", JStr "LineString"); ("coordinates", JArr [])])
        "Optimized route" "blue" 6 (Some "6 6")
        ("Opt: 15.0 km, 0" ++ NNBSP ++ "h" ++ NNBSP ++ "30" ++ NNBSP ++ "min");
      Marker (S754_finite false 8050184333924762 (-48),
              S754_finite false 5421911738889011 (-46)) "Start" "green" None None;
      Marker (S754_finite false 8047369584157655 (-48),
              S754_finite false 5421208051447235 (-46)) "End" "green"
             (Some "flag-checkered") (Some "fa");
      LayerControl ].

Definition scenario_display : list ui_element :=
  [ St_folium scenario_map 900 600;
    St_markdown "### 📊 Route metrics";
    St_columns [1; 1; 1];
    St_metric 1 "Old route" "12.0 km" None
      (Some ("0" ++ NNBSP ++ "h" ++ NNBSP ++ "25" ++ NNBSP ++ "min")%string);
    St_metric 1 "CO₂" "1800 g" None None;
    St_metric 1 "Cost" "₹96" None None;
    St_metric 2 "Optimized" "15.0 km" (Some "-3.0 km")
      (Some ("0" ++ NNBSP ++ "h" ++ NNBSP ++ "30" ++ NNBSP ++ "min")%string);
    St_metric 2 "CO₂" "2250 g" (Some "-450 g") None;
    St_metric 2 "Cost" "₹120" (Some "₹-24") None;
    St_success 3 "**CO₂ saved:** -450 g";
    St_success 3 "**₹ saved:** -24" ].

(** Services that find the two places and a single route of 12000 m in
    1500 s between them. *)
Definition single_route_world : world :=
  fun log _ =>
    match log with
    | [] => Ok (place_json "28.6" "77.05")
    | [_] => Ok (place_json "28.59" "77.04")
    | _ => Ok (JObj [("code", JStr "Ok"); ("routes", JArr [route_json 12000 1500])])
    end.

(** The number that a string of decimal digits denotes, after the digits
    already read into [acc]. *)
Fixpoint digits_value (s : string) (acc : Z) : Z :=
  match s with
  | EmptyString => acc
  | String c s' => digits_value s' (acc * 10 + digit_value c)
  end.

Fixpoint all_digits (s : string) : bool :=
  match s with
  | EmptyString => true
  | String c s' => is_digit c && all_digits s'
  end.

Definition pow10 (k : Z) : Q := (10 ^ k)%Q.

(* ================================================================== *)
(** * Part II: lemmas and theorems *)
(* ================================================================== *)

(** ** Rounding to nearest even in binary64 *)

Lemma pow2_pos e : (0 < pow2 e)%Q.
Proof. apply Qpower_0_lt. reflexivity. Qed.

Lemma pow2_add a b : (pow2 (a + b) == pow2 a * pow2 b)%Q.
Proof. apply Qpower_plus. discriminate. Qed.

Lemma pow2_succ e : (pow2 (e + 1) == 2 * pow2 e)%Q.
Proof. rewrite pow2_add. unfold pow2 at 2. simpl. ring. Qed.

Lemma pow2_le a b : a <= b -> (pow2 a <= pow2 b)%Q.
Proof. intros. apply Qpower_le_compat_l; [assumption | discriminate]. Qed.

Lemma pow2_lt a b : a < b -> (pow2 a < pow2 b)%Q.
Proof. intros. apply Qpower_lt_compat_l; [assumption | reflexivity]. Qed.

Lemma pow2_Z n : 0 <= n -> (pow2 n == inject_Z (2 ^ n))%Q.
Proof. intros. unfold pow2. rewrite Zpower_Qpower by assumption. reflexivity. Qed.

Lemma inject_Z_xO p : (inject_Z (Z.pos p~0) == 2 * inject_Z (Z.pos p))%Q.
Proof. change (Z.pos p~0) with (2 * Z.pos p). rewrite inject_Z_mult. reflexivity. Qed.

Lemma inject_Z_xI p : (inject_Z (Z.pos p~1) == 2 * inject_Z (Z.pos p) + 1)%Q.
Proof. change (Z.pos p~1) with (2 * Z.pos p + 1). rewrite inject_Z_plus, inject_Z_mult. reflexivity. Qed.

Ltac split_ands :=
  repeat match goal with
  | H : _ /\ _ |- _ => destruct H
  end.

Lemma shr_1_inb mrs e x : inb_rec mrs e x -> inb_rec (shr_1 mrs) (e + 1) x.
Proof.
  destruct mrs as [m r s]. unfold inb_rec, inbetween. cbn [shr_m].
  intros [Hm H]. pose proof (pow2_pos e) as HP. pose proof (pow2_succ e) as HS.
  destruct m as [|p|p]; [| |lia].
  - change (inject_Z 0) with 0%Q in *.
    destruct r, s; cbn [shr_m loc_of_shr_record shr_1 orb] in *; (split; [lia|]);
      split_ands; change (inject_Z 0) with 0%Q in *; repeat split; rewrite ?HS; try lra.
  - pose proof (inject_Z_xO p) as HO. pose proof (inject_Z_xI p) as HI.
    destruct p; destruct r, s; cbn [shr_m loc_of_shr_record shr_1 orb] in *; (split; [lia|]);
      split_ands; change (inject_Z 0) with 0%Q in *; change (inject_Z 1) with 1%Q in *;
      rewrite ?inject_Z_xO, ?inject_Z_xI in *;
      repeat split; rewrite ?HS; try lra.
Qed.

Lemma fexp64_eq e : fexp64 e = Z.max (e - 53) (-1074).
Proof. reflexivity. Qed.

Lemma iter_shr_1_inb x p : forall mrs e,
  inb_rec mrs e x -> inb_rec (iter_pos shr_1 p mrs) (e + Z.pos p) x.
Proof.
  induction p as [p IH|p IH|]; intros mrs e H; cbn [iter_pos].
  - replace (e + Z.pos p~1) with (e + 1 + Z.pos p + Z.pos p) by lia.
    apply IH, IH, shr_1_inb, H.
  - replace (e + Z.pos p~0) with (e + Z.pos p + Z.pos p) by lia.
    apply IH, IH, H.
  - apply shr_1_inb, H.
Qed.

Lemma shr_inb x mrs e n :
  0 <= n -> inb_rec mrs e x ->
  inb_rec (fst (shr mrs e n)) (e + n) x /\ snd (shr mrs e n) = e + n.
Proof.
  intros Hn H. destruct n as [|p|p]; cbn [shr fst snd]; [|split; [apply iter_shr_1_inb, H|reflexivity]|lia].
  rewrite Z.add_0_r. split; [exact H|reflexivity].
Qed.

Lemma loc_of_shr_record_of_loc m l :
  loc_of_shr_record (shr_record_of_loc m l) = l /\ shr_m (shr_record_of_loc m l) = m.
Proof. destruct l as [|[| |]]; split; reflexivity. Qed.

Lemma digits2_pos_bounds p :
  2 ^ (Z.pos (digits2_pos p) - 1) <= Z.pos p < 2 ^ Z.pos (digits2_pos p).
Proof.
  induction p as [p IH|p IH|]; cbn [digits2_pos]; [| |simpl; lia];
    rewrite Pos2Z.inj_succ;
    replace (Z.succ (Z.pos (digits2_pos p)) - 1) with (Z.succ (Z.pos (digits2_pos p) - 1)) by lia;
    rewrite !Z.pow_succ_r by lia; lia.
Qed.

Lemma inject_Z_pow2_lt a b e : (inject_Z a * pow2 e < inject_Z b * pow2 e)%Q -> a < b.
Proof.
  intros H. apply Qmult_lt_r in H; [|apply pow2_pos]. now rewrite <- Zlt_Qlt in H.
Qed.

Lemma inject_Z_pow2_le a b e : a <= b -> (inject_Z a * pow2 e <= inject_Z b * pow2 e)%Q.
Proof.
  intros H. apply Qmult_le_r; [apply pow2_pos|]. now rewrite <- Zle_Qle.
Qed.

Lemma pow2_shift (M : Z) F E : E <= F ->
  (inject_Z M * pow2 F == inject_Z (M * 2 ^ (F - E)) * pow2 E)%Q.
Proof.
  intros H. replace F with ((F - E) + E) at 1 by lia.
  rewrite pow2_add, pow2_Z by lia. rewrite inject_Z_mult. ring.
Qed.

Ltac qabs_le d x :=
  apply Qabs_Qle_condition;
  pose proof (Qle_Qabs (d - x));
  let H := fresh in pose proof (Qle_Qabs (- (d - x))) as H; rewrite Qabs_opp in H.

Lemma rne_nearest_int m l E x :
  0 <= m -> inbetween m l E x ->
  let m1 := round_nearest_even m l in
  (m1 = m \/ m1 = m + 1) /\
  forall K : Z, (Qabs (inject_Z m1 * pow2 E - x) <= Qabs (inject_Z K * pow2 E - x))%Q.
Proof.
  intros Hm H m1. pose proof (pow2_pos E) as HP.
  assert (HK : forall K : Z, (inject_Z K * pow2 E <= inject_Z m * pow2 E)%Q \/
                             ((inject_Z m + 1) * pow2 E <= inject_Z K * pow2 E)%Q).
  { intros K. destruct (Z_le_gt_dec K m) as [Hle|Hgt].
    - left. now apply inject_Z_pow2_le.
    - right. assert (Hle : m + 1 <= K) by lia. apply (inject_Z_pow2_le _ _ E) in Hle.
      rewrite inject_Z_plus in Hle. exact Hle. }
  assert (Hm1 : (inject_Z (m + 1) == inject_Z m + 1)%Q) by (rewrite inject_Z_plus; reflexivity).
  subst m1. unfold inbetween in H.
  destruct l as [|[| |]]; cbn [round_nearest_even]; split_ands.
  - split; [now left|]. intros K. rewrite <- H.
    setoid_replace (x - x)%Q with 0%Q by ring. apply Qabs_nonneg.
  - destruct (Z.even m); (split; [auto|]); intros K;
      qabs_le (inject_Z K * pow2 E)%Q x; rewrite ?Hm1; destruct (HK K); split; try lra.

  - split; [now left|]. intros K.
      qabs_le (inject_Z K * pow2 E)%Q x; rewrite ?Hm1; destruct (HK K); split; lra.
  - split; [now right|]. intros K.
      qabs_le (inject_Z K * pow2 E)%Q x; rewrite ?Hm1; destruct (HK K); split; lra.
Qed.

Lemma inbetween_bounds m l e x :
  inbetween m l e x ->
  (inject_Z m * pow2 e <= x)%Q /\ (x < (inject_Z m + 1) * pow2 e)%Q.
Proof.
  pose proof (pow2_pos e). destruct l; cbn [inbetween]; intros Hx.
  - rewrite Hx. split; lra.
  - split; [apply Qlt_le_weak|]; tauto.
Qed.

Lemma pow2_split k E : 0 <= k -> (pow2 (k + E) == inject_Z (2 ^ k) * pow2 E)%Q.
Proof. intros. rewrite pow2_add, pow2_Z by assumption. reflexivity. Qed.

Lemma Zdigits2_succ_le m : 0 <= m -> m + 1 <= 2 ^ Zdigits2 m.
Proof.
  destruct m as [|p|p]; intros; [simpl; lia| |lia].
  cbn [Zdigits2]. pose proof (digits2_pos_bounds p). lia.
Qed.

Lemma Zdigits2_nonneg m : 0 <= Zdigits2 m.
Proof. destruct m; simpl; lia. Qed.

Lemma nearest_ext x v v' : (v == v')%Q -> nearest x v -> nearest x v'.
Proof. intros E H M F HM HF. rewrite <- E. now apply H. Qed.

Lemma shr_not_pos mrs e n : n <= 0 -> shr mrs e n = (mrs, e).
Proof. destruct n; intros; try reflexivity; lia. Qed.

Lemma pow2_53_digits : Zdigits2 (2 ^ 53) = 54.
Proof. reflexivity. Qed.

Lemma Zdigits2_le_53 m : 0 < m < 2 ^ 53 -> 0 < Zdigits2 m <= 53.
Proof.
  destruct m as [|p|p]; try lia. intros H. cbn [Zdigits2].
  pose proof (digits2_pos_bounds p) as Hd. split; [lia|].
  destruct (Z_le_gt_dec (Z.pos (digits2_pos p)) 53) as [|Hgt]; [assumption|exfalso].
  assert (2 ^ 53 <= 2 ^ (Z.pos (digits2_pos p) - 1)) by (apply Z.pow_le_mono_r; lia).
  lia.
Qed.

Lemma Zdigits2_eq_53 m : 2 ^ 52 <= m < 2 ^ 53 -> Zdigits2 m = 53.
Proof.
  intros H. pose proof (Zdigits2_le_53 m ltac:(lia)) as Hd.
  destruct m as [|p|p]; try lia. cbn [Zdigits2] in *.
  pose proof (digits2_pos_bounds p) as Hb.
  destruct (Z_le_gt_dec (Z.pos (digits2_pos p)) 52) as [Hle|]; [exfalso|lia].
  assert (2 ^ Z.pos (digits2_pos p) <= 2 ^ 52) by (apply Z.pow_le_mono_r; lia).
  lia.
Qed.

Theorem binary_round_aux_spec s m e l x :
  0 <= m -> inbetween m l e x -> e <= fexp64 (Zdigits2 m + e) ->
  round_spec s x (binary_round_aux 53 1024 s m e l).
Proof.
  intros Hm Hin He.
  unfold binary_round_aux, shr_fexp. change (fexp 53 1024) with fexp64.
  set (d := Zdigits2 m) in *.
  set (E := fexp64 (d + e)) in *.
  assert (HEmin : -1074 <= E) by (subst E; rewrite fexp64_eq; lia).
  assert (HEd : d + e - 53 <= E) by (subst E; rewrite fexp64_eq; lia).
  destruct (shr_inb x (shr_record_of_loc m l) e (E - e)) as [Hin' He'].
  { lia. }
  { unfold inb_rec. destruct (loc_of_shr_record_of_loc m l) as [-> ->]. split; assumption. }
  destruct (shr (shr_record_of_loc m l) e (E - e)) as [mrs' e'].
  cbn [fst snd] in Hin', He'. replace (e + (E - e)) with E in * by lia. subst e'.
  destruct Hin' as [Hm' Hin'].
  set (m' := shr_m mrs') in *. set (l' := loc_of_shr_record mrs') in *.
  pose proof (pow2_pos e) as HPe. pose proof (pow2_pos E) as HPE.
  destruct (inbetween_bounds _ _ _ _ Hin) as [Hlo Hhi].
  destruct (inbetween_bounds _ _ _ _ Hin') as [Hlo' Hhi'].
  assert (Hd0 : 0 <= d) by apply Zdigits2_nonneg.
  (* the shifted mantissa fits the precision *)
  assert (Hm'hi : m' < 2 ^ 53).
  { apply (inject_Z_pow2_lt _ _ E). rewrite <- pow2_split by lia.
    assert ((inject_Z m + 1) * pow2 e <= pow2 (d + e))%Q.
    { rewrite pow2_split by assumption.
      pose proof (Zdigits2_succ_le m Hm) as H1. fold d in H1.
      apply (inject_Z_pow2_le _ _ e) in H1. rewrite inject_Z_plus in H1. exact H1. }
    assert (pow2 (d + e) <= pow2 (53 + E))%Q by (apply pow2_le; lia).
    lra. }
  (* and is normal unless the exponent is the smallest one *)
  assert (Hm'lo : -1074 < E -> 2 ^ 52 <= m').
  { intros HE.
    assert (Hmpos : 0 < m).
    { destruct (Z.eq_dec m 0) as [->|]; [|lia]. exfalso. subst E d. cbn [Zdigits2] in *.
      rewrite fexp64_eq in *. lia. }
    assert (HEeq : E = d + e - 53) by (subst E; rewrite fexp64_eq in *; lia).
    assert (H1 : 2 ^ (d - 1) <= m).
    { destruct m as [|p|p]; try lia. subst d. cbn [Zdigits2]. apply digits2_pos_bounds. }
    apply (inject_Z_pow2_le _ _ e) in H1. rewrite <- pow2_split in H1 by lia.
    replace (d - 1 + e) with (52 + E) in H1 by lia. rewrite pow2_split in H1 by lia.
    assert (H2 : 2 ^ 52 < m' + 1).
    { apply (inject_Z_pow2_lt _ _ E). rewrite inject_Z_plus. change (inject_Z 1) with 1%Q. lra. }
    lia. }
  destruct (rne_nearest_int m' l' E x Hm' Hin') as [Hm1 Hnear].
  set (m1 := round_nearest_even m' l') in *.
  assert (Hnearest : nearest x (inject_Z m1 * pow2 E)).
  { intros M F HM HF. destruct (Z_le_gt_dec E F) as [HEF|HEF].
    - rewrite (pow2_shift M F E HEF). apply Hnear.
    - assert (H52 : 2 ^ 52 <= m') by (apply Hm'lo; lia).
      apply (inject_Z_pow2_le _ _ E) in H52.
      assert (HMF : (inject_Z M * pow2 F <= inject_Z (2 ^ 52) * pow2 E)%Q).
      { rewrite <- pow2_split by lia.
        assert (pow2 (53 + F) <= pow2 (52 + E))%Q by (apply pow2_le; lia).
        rewrite pow2_split in H by lia.
        assert (H1 : M <= 2 ^ 53) by lia.
        apply (inject_Z_pow2_le _ _ F) in H1. lra. }
      specialize (Hnear m').
      apply Qabs_Qle_condition in Hnear.
      pose proof (Qabs_nonneg (inject_Z m' * pow2 E - x)).
      assert (Qabs (inject_Z m' * pow2 E - x) == x - inject_Z m' * pow2 E)%Q.
      { setoid_replace (inject_Z m' * pow2 E - x)%Q with (- (x - inject_Z m' * pow2 E))%Q by ring.
        rewrite Qabs_opp. apply Qabs_pos. lra. }
      qabs_le (inject_Z M * pow2 F)%Q x. split; lra. }
  assert (Hm1cases : m1 = 0 \/ 0 < m1 < 2 ^ 53 \/ m1 = 2 ^ 53) by lia.
  cbn [shr_record_of_loc].
  destruct Hm1cases as [H0|[Hmid|Htop]].
  - rewrite H0 in *. rewrite shr_not_pos by (cbn [Zdigits2]; rewrite fexp64_eq; lia).
    cbn [shr_m]. apply RS_zero.
    revert Hnearest. apply nearest_ext. change (inject_Z 0) with 0%Q. ring.
  - pose proof (Zdigits2_le_53 m1 Hmid) as Hd1.
    rewrite shr_not_pos by (rewrite fexp64_eq; lia).
    cbn [shr_m]. destruct m1 as [|p|p] eqn:Ep; try lia.
    destruct (Z.leb_spec E (1024 - 53)) as [Hle|Hgt].
    + apply RS_finite; [|exact Hnearest].
      unfold bounded, canonical_mantissa. apply andb_true_intro. split; [|apply Z.leb_le; lia].
      apply Z.eqb_eq. change (Z.pos (digits2_pos p)) with (Zdigits2 (Z.pos p)).
      rewrite fexp64_eq. destruct (Z.eq_dec E (-1074)) as [->|]; [lia|].
      rewrite (Zdigits2_eq_53 (Z.pos p)) by lia. lia.
    + apply RS_inf with (v := (inject_Z (Z.pos p) * pow2 E)%Q); [exact Hnearest|].
      assert (H52 : 2 ^ 52 <= Z.pos p) by lia.
      apply (inject_Z_pow2_le _ _ E) in H52. rewrite <- pow2_split in H52 by lia.
      assert (pow2 1024 <= pow2 (52 + E))%Q by (apply pow2_le; lia). lra.
  - rewrite Htop in *. rewrite pow2_53_digits.
    replace (fexp64 (54 + E) - E) with 1 by (rewrite fexp64_eq; lia).
    change (shr {| shr_m := 2 ^ 53; shr_r := false; shr_s := false |} E 1)
      with ({| shr_m := 2 ^ 52; shr_r := false; shr_s := false |}, E + 1).
    cbn [shr_m]. change (2 ^ 52) with (Z.pos (2 ^ 52)).
    assert (Hv : (inject_Z (2 ^ 53) * pow2 E == inject_Z (Z.pos (2 ^ 52)) * pow2 (E + 1))%Q).
    { rewrite pow2_succ. change (2 ^ 53) with (2 * Z.pos (2 ^ 52)). rewrite inject_Z_mult.
      change (inject_Z 2) with 2%Q. ring. }
    destruct (Z.leb_spec (E + 1) (1024 - 53)) as [Hle|Hgt].
    + apply RS_finite; [|revert Hnearest; apply nearest_ext; exact Hv].
      unfold bounded, canonical_mantissa. apply andb_true_intro. split; [|apply Z.leb_le; lia].
      apply Z.eqb_eq. change (Z.pos (digits2_pos (2 ^ 52))) with 53. rewrite fexp64_eq. lia.
    + apply RS_inf with (v := (inject_Z (2 ^ 53) * pow2 E)%Q); [exact Hnearest|].
      rewrite <- pow2_split by lia. apply pow2_le. lia.
Qed.

Lemma new_location_spec nb k :
  0 < nb -> 0 <= k < nb ->
  new_location nb k = if k =? 0 then loc_Exact else loc_Inexact (2 * k ?= nb).
Proof.
  intros Hnb Hk. unfold new_location, new_location_even, new_location_odd.
  destruct (Z.even nb) eqn:Hev; destruct (Z.eqb_spec k 0); try reflexivity.
  f_equal.
  assert (Hodd : Z.odd nb = true) by (rewrite <- Z.negb_even, Hev; reflexivity).
  apply Z.odd_spec in Hodd. destruct Hodd as [j Hj].
  destruct (Z.compare_spec (2 * k + 1) nb); destruct (Z.compare_spec (2 * k) nb); try reflexivity; lia.
Qed.

Lemma fexp64_mono a b : a <= b -> fexp64 a <= fexp64 b.
Proof. rewrite !fexp64_eq. lia. Qed.

Lemma fexp64_ge e : -1074 <= fexp64 e.
Proof. rewrite fexp64_eq. lia. Qed.

Lemma Zdigits2_lt m : 0 <= m -> m < 2 ^ Zdigits2 m.
Proof. intros H. pose proof (Zdigits2_succ_le m H). lia. Qed.

Lemma Zdigits2_ge_pow k q : 0 <= k -> 2 ^ k <= q -> k + 1 <= Zdigits2 q.
Proof.
  intros Hk Hq. assert (0 <= q) by (pose proof (Z.pow_pos_nonneg 2 k); lia).
  pose proof (Zdigits2_lt q H) as Hlt. pose proof (Zdigits2_nonneg q).
  destruct (Z_le_gt_dec (k + 1) (Zdigits2 q)); [assumption|exfalso].
  assert (2 ^ Zdigits2 q <= 2 ^ k) by (apply Z.pow_le_mono_r; lia). lia.
Qed.

Lemma Zdigits2_pos_low m : 0 < m -> 2 ^ (Zdigits2 m - 1) <= m.
Proof. destruct m as [|p|p]; try lia. intros _. apply digits2_pos_bounds. Qed.

(** The quotient, exponent and location computed by the division core
    bracket the exact quotient and satisfy the side condition of
    [binary_round_aux_spec]. *)
Lemma SFdiv_core_binary_spec m1 e1 m2 e2 x :
  0 < m1 -> 0 < m2 ->
  (x == inject_Z m1 / inject_Z m2 * pow2 (e1 - e2))%Q ->
  let '(q, e', l) := SFdiv_core_binary 53 1024 m1 e1 m2 e2 in
  0 <= q /\ inbetween q l e' x /\ e' <= fexp64 (Zdigits2 q + e').
Proof.
  intros H1 H2 Hx. unfold SFdiv_core_binary. change (fexp 53 1024) with fexp64.
  set (d1 := Zdigits2 m1). set (d2 := Zdigits2 m2).
  set (D := d1 + e1 - (d2 + e2)).
  set (e' := Z.min (fexp64 D) (e1 - e2)).
  set (s := e1 - e2 - e').
  assert (Hs : 0 <= s) by (subst s e'; lia).
  set (m' := match s with Z.pos _ => Z.shiftl m1 s | 0 => m1 | Z.neg _ => 0 end).
  assert (Hm' : m' = m1 * 2 ^ s).
  { subst m'. destruct s as [|p|p] eqn:Es; [simpl; lia| |lia].
    rewrite Z.shiftl_mul_pow2 by lia. reflexivity. }
  pose proof (Z_div_mod m' m2 ltac:(lia)) as Hdm.
  destruct (Z.div_eucl m' m2) as [q r]. destruct Hdm as [Hdm Hr].
  assert (Hpow : 0 < 2 ^ s) by (apply Z.pow_pos_nonneg; lia).
  assert (Hq : 0 <= q) by nia.
  split; [assumption|].
  pose proof (pow2_pos e') as HP.
  assert (Hm2Q : (0 < inject_Z m2)%Q) by (rewrite Zlt_Qlt in H2; exact H2).
  assert (HxQ : (x == (inject_Z q + inject_Z r / inject_Z m2) * pow2 e')%Q).
  { rewrite Hx. replace (e1 - e2) with (s + e') by (subst s; lia).
    rewrite pow2_split by assumption.
    assert (Hi : (inject_Z m1 * inject_Z (2 ^ s) == inject_Z m2 * inject_Z q + inject_Z r)%Q).
    { rewrite <- !inject_Z_mult, <- inject_Z_plus, <- Hdm, Hm'. reflexivity. }
    setoid_replace (inject_Z m1 / inject_Z m2 * (inject_Z (2 ^ s) * pow2 e'))%Q
      with ((inject_Z m1 * inject_Z (2 ^ s)) / inject_Z m2 * pow2 e')%Q by (field; lra).
    rewrite Hi. field. lra. }
  assert (Hfr : (0 <= inject_Z r / inject_Z m2)%Q /\ (inject_Z r / inject_Z m2 < 1)%Q).
  { split.
    - apply Qle_shift_div_l; [assumption|]. rewrite Qmult_0_l. change 0%Q with (inject_Z 0).
      rewrite <- Zle_Qle. lia.
    - apply Qlt_shift_div_r; [assumption|]. rewrite Qmult_1_l. rewrite <- Zlt_Qlt. lia. }
  split.
  - rewrite new_location_spec by lia. unfold inbetween.
    destruct (Z.eqb_spec r 0) as [->|Hr0].
    + rewrite HxQ. change (inject_Z 0) with 0%Q. field. lra.
    + assert (Hrpos : (0 < inject_Z r / inject_Z m2)%Q).
      { apply Qlt_shift_div_l; [assumption|]. rewrite Qmult_0_l. change 0%Q with (inject_Z 0).
        rewrite <- Zlt_Qlt. lia. }
      destruct Hfr as [_ Hfr1].
      split; [rewrite HxQ; nra|]. split; [rewrite HxQ; nra|].
      destruct (Z.compare_spec (2 * r) m2) as [Hc|Hc|Hc].
      * assert (Hh : (inject_Z r / inject_Z m2 == 1 # 2)%Q).
        { assert (HrQ : (0 < inject_Z r)%Q) by (change 0%Q with (inject_Z 0); rewrite <- Zlt_Qlt; lia).
          assert (Hm2r : (inject_Z m2 == 2 * inject_Z r)%Q) by (rewrite <- Hc, inject_Z_mult; reflexivity).
          rewrite Hm2r. field. lra. }
        rewrite HxQ, Hh. reflexivity.
      * assert (Hh : (inject_Z r / inject_Z m2 < 1 # 2)%Q).
        { apply Qlt_shift_div_r; [assumption|]. rewrite Zlt_Qlt, inject_Z_mult in Hc.
          change (inject_Z 2) with 2%Q in Hc. lra. }
        rewrite HxQ. nra.
      * assert (Hh : ((1 # 2) < inject_Z r / inject_Z m2)%Q).
        { apply Qlt_shift_div_l; [assumption|]. rewrite Zlt_Qlt, inject_Z_mult in Hc.
          change (inject_Z 2) with 2%Q in Hc. lra. }
        rewrite HxQ. nra.
  - assert (He'D : e' <= fexp64 D) by (subst e'; lia).
    destruct (Z_le_gt_dec (d2 - d1 + 1) s) as [Hbig|Hsmall].
    + (* the quotient has enough digits *)
      assert (Hdq : D <= Zdigits2 q + e').
      { assert (Hlow : 2 ^ (d1 - 1 + s - d2) <= q).
        { pose proof (Zdigits2_pos_low m1 H1) as Hl1. fold d1 in Hl1.
          pose proof (Zdigits2_lt m2 ltac:(lia)) as Hl2. fold d2 in Hl2.
          assert (Hd1 : 0 < d1) by (subst d1; destruct m1; simpl; lia).
          assert (Hd2 : 0 < d2) by (subst d2; destruct m2; simpl; lia).
          assert (Hp : 2 ^ (d1 - 1 + s) = 2 ^ (d1 - 1 + s - d2) * 2 ^ d2).
          { rewrite <- Z.pow_add_r by lia. f_equal. lia. }
          assert (Hp2 : 2 ^ (d1 - 1 + s) = 2 ^ (d1 - 1) * 2 ^ s).
          { rewrite <- Z.pow_add_r by lia. reflexivity. }
          assert (Hpp : 0 < 2 ^ (d1 - 1 + s - d2)) by (apply Z.pow_pos_nonneg; lia).
          assert (Hpd : 0 < 2 ^ d2) by (apply Z.pow_pos_nonneg; lia).
          (* m' >= 2^(d1-1+s) = P * 2^d2 > P * m2, hence q >= P *)
          apply Z.lt_succ_r. apply (Z.mul_lt_mono_pos_l m2); [lia|]. nia. }
        apply Zdigits2_ge_pow in Hlow; [|lia]. subst D s. lia. }
      apply fexp64_mono in Hdq. lia.
    + assert (e' <= -1074) by (subst s D; rewrite fexp64_eq in He'D; lia).
      pose proof (fexp64_ge (Zdigits2 q + e')). lia.
Qed.

Lemma round_spec_nonneg x r : round_spec false x r -> rounds_nonneg x r.
Proof.
  intros [H|m e Hb H|v H Hv].
  - left. split; [reflexivity|exact H].
  - left. split; [exact Hb|]. revert H. apply nearest_ext. cbn [B2Q]. ring.
  - right. split; [reflexivity|]. exists v. split; assumption.
Qed.

Lemma bounded_range m e :
  bounded 53 1024 m e = true -> Z.pos m < 2 ^ 53 /\ -1074 <= e <= 971.
Proof.
  unfold bounded, canonical_mantissa. intros H. apply andb_prop in H. destruct H as [Hc He].
  apply Z.eqb_eq in Hc. apply Z.leb_le in He. rewrite fexp64_eq in Hc.
  pose proof (digits2_pos_bounds m) as Hd.
  split; [|lia].
  assert (Z.pos (digits2_pos m) <= 53) by lia.
  assert (2 ^ Z.pos (digits2_pos m) <= 2 ^ 53) by (apply Z.pow_le_mono_r; lia). lia.
Qed.

Lemma finite_nonneg_flt f :
  finite_nonneg f = true ->
  exists M F, 0 <= M < 2 ^ 53 /\ -1074 <= F <= 971 /\ (B2Q f == inject_Z M * pow2 F)%Q.
Proof.
  destruct f as [s|s| |[|] m e]; cbn [finite_nonneg]; try discriminate.
  - intros _. exists 0, 0. split; [lia|]. split; [lia|].
    cbn [B2Q]. change (inject_Z 0) with 0%Q. ring.
  - intros H. apply bounded_range in H. exists (Z.pos m), e. split; [lia|]. split; [lia|].
    cbn [B2Q]. ring.
Qed.

Lemma finite_nonneg_ge0 f : finite_nonneg f = true -> (0 <= B2Q f)%Q.
Proof.
  destruct f as [s|s| |[|] m e]; cbn [finite_nonneg B2Q]; try discriminate; intros _; try lra.
  pose proof (pow2_pos e). assert (0 < inject_Z (Z.pos m))%Q by reflexivity. nra.
Qed.

Lemma finite_nonneg_lt_max f : finite_nonneg f = true -> (B2Q f < pow2 1024)%Q.
Proof.
  intros H. destruct (finite_nonneg_flt f H) as (M & F & HM & HF & ->).
  assert (H2 : (inject_Z M * pow2 F < inject_Z (2 ^ 53) * pow2 F)%Q).
  { apply Qmult_lt_r; [apply pow2_pos|]. rewrite <- Zlt_Qlt. lia. }
  pose proof (pow2_split 53 F ltac:(lia)) as H3.
  assert (pow2 (53 + F) <= pow2 1024)%Q by (apply pow2_le; lia).
  lra.
Qed.

Lemma nearest_exact x v M F :
  nearest x v -> Z.abs M < 2 ^ 53 -> -1074 <= F -> (x == inject_Z M * pow2 F)%Q -> (v == x)%Q.
Proof.
  intros Hn HM HF Hx. specialize (Hn M F HM HF). rewrite <- Hx in Hn.
  setoid_replace (x - x)%Q with 0%Q in Hn by ring. change (Qabs 0) with 0%Q in Hn.
  pose proof (Qabs_nonneg (v - x)). pose proof (Qle_Qabs (v - x)).
  pose proof (Qle_Qabs (- (v - x))) as H1. rewrite Qabs_opp in H1. lra.
Qed.

Lemma nearest_le x v M F :
  nearest x v -> Z.abs M < 2 ^ 53 -> -1074 <= F ->
  (x <= inject_Z M * pow2 F)%Q -> (v <= inject_Z M * pow2 F)%Q.
Proof.
  intros Hn HM HF Hx. specialize (Hn M F HM HF).
  rewrite (Qabs_pos (inject_Z M * pow2 F - x)) in Hn by lra.
  pose proof (Qle_Qabs (v - x)). lra.
Qed.

Lemma nearest_ge x v M F :
  nearest x v -> Z.abs M < 2 ^ 53 -> -1074 <= F ->
  (inject_Z M * pow2 F <= x)%Q -> (inject_Z M * pow2 F <= v)%Q.
Proof.
  intros Hn HM HF Hx. specialize (Hn M F HM HF).
  rewrite (Qabs_neg (inject_Z M * pow2 F - x)) in Hn by lra.
  pose proof (Qle_Qabs (- (v - x))) as H. rewrite Qabs_opp in H. lra.
Qed.

(** Rounding is exact on representable values, and monotone against
    representable bounds. *)
Lemma rounds_nonneg_exact x r c :
  rounds_nonneg x r -> finite_nonneg c = true -> (x == B2Q c)%Q ->
  finite_nonneg r = true /\ (B2Q r == x)%Q.
Proof.
  intros Hr Hc Hx. destruct (finite_nonneg_flt c Hc) as (M & F & HM & HF & HcQ).
  pose proof (finite_nonneg_lt_max c Hc) as Hmax.
  destruct Hr as [[Hfin Hn]|[_ (v & Hn & Hv)]].
  - split; [assumption|]. apply (nearest_exact x _ M F); try assumption; try lia.
    now rewrite Hx.
  - exfalso. assert (v == x)%Q.
    { apply (nearest_exact x _ M F); try assumption; try lia. now rewrite Hx. }
    lra.
Qed.

Lemma rounds_nonneg_le x r c :
  rounds_nonneg x r -> finite_nonneg c = true -> (x <= B2Q c)%Q ->
  finite_nonneg r = true /\ (B2Q r <= B2Q c)%Q.
Proof.
  intros Hr Hc Hx. destruct (finite_nonneg_flt c Hc) as (M & F & HM & HF & HcQ).
  pose proof (finite_nonneg_lt_max c Hc) as Hmax.
  destruct Hr as [[Hfin Hn]|[_ (v & Hn & Hv)]].
  - split; [assumption|]. rewrite HcQ in *. apply (nearest_le x); try assumption; lia.
  - exfalso. assert (v <= inject_Z M * pow2 F)%Q.
    { apply (nearest_le x); try assumption; try lia. now rewrite <- HcQ. }
    lra.
Qed.

Lemma rounds_nonneg_ge x r c :
  rounds_nonneg x r -> finite_nonneg r = true -> finite_nonneg c = true ->
  (B2Q c <= x)%Q -> (B2Q c <= B2Q r)%Q.
Proof.
  intros Hr Hfin Hc Hx. destruct (finite_nonneg_flt c Hc) as (M & F & HM & HF & HcQ).
  destruct Hr as [[_ Hn]|[-> _]]; [|discriminate].
  rewrite HcQ in *. apply (nearest_ge x); try assumption; lia.
Qed.

Lemma nearest_self x v : (v == x)%Q -> nearest x v.
Proof.
  intros H M F _ _. setoid_replace (v - x)%Q with 0%Q by (rewrite H; ring). apply Qabs_nonneg.
Qed.

Lemma rounds_nonneg_self f : finite_nonneg f = true -> rounds_nonneg (B2Q f) f.
Proof. intros H. left. split; [assumption|]. apply nearest_self. reflexivity. Qed.

Lemma rounds_nonneg_ext x y r : (x == y)%Q -> rounds_nonneg x r -> rounds_nonneg y r.
Proof.
  intros E [[Hf Hn]|[-> (v & Hn & Hv)]]; [left|right]; (split; [assumption || reflexivity|]).
  - intros M F HM HF. rewrite <- E. now apply Hn.
  - exists v. split; [|assumption]. intros M F HM HF. rewrite <- E. now apply Hn.
Qed.

Lemma round_spec_ext s x y r : (x == y)%Q -> round_spec s x r -> round_spec s y r.
Proof.
  intros E [H|m e Hb H|v H Hv].
  - apply RS_zero. intros M F HM HF. rewrite <- E. now apply H.
  - apply RS_finite; [assumption|]. intros M F HM HF. rewrite <- E. now apply H.
  - apply RS_inf with (v := v); [|assumption]. intros M F HM HF. rewrite <- E. now apply H.
Qed.

(** ** Division *)
Lemma SFdiv_finite_spec sx mx ex sy my ey :
  round_spec (xorb sx sy)
    (inject_Z (Z.pos mx) * pow2 ex / (inject_Z (Z.pos my) * pow2 ey))
    (SFdiv 53 1024 (S754_finite sx mx ex) (S754_finite sy my ey)).
Proof.
  cbn [SFdiv].
  pose proof (SFdiv_core_binary_spec (Z.pos mx) ex (Z.pos my) ey
    (inject_Z (Z.pos mx) * pow2 ex / (inject_Z (Z.pos my) * pow2 ey))%Q) as H.
  destruct (SFdiv_core_binary 53 1024 (Z.pos mx) ex (Z.pos my) ey) as [[q e'] l].
  destruct H as (Hq & Hin & He); try lia.
  - unfold Z.sub. rewrite pow2_add. unfold pow2 at 4. rewrite Qpower_opp. fold (pow2 ey).
    pose proof (pow2_pos ey). assert (0 < inject_Z (Z.pos my))%Q by reflexivity.
    field. split; lra.
  - now apply binary_round_aux_spec.
Qed.

Lemma SFdiv_nonneg_spec x y :
  finite_nonneg x = true -> finite_nonneg y = true -> (0 < B2Q y)%Q ->
  rounds_nonneg (B2Q x / B2Q y) (SFdiv 53 1024 x y).
Proof.
  intros Hx Hy Hpos.
  destruct y as [sy|sy| |[|] my ey]; cbn [finite_nonneg B2Q] in *; try discriminate; try lra.
  destruct x as [sx|sx| |[|] mx ex]; cbn [finite_nonneg B2Q] in *; try discriminate.
  - left. split; [reflexivity|]. apply nearest_self. cbn [SFdiv B2Q].
    unfold Qdiv. ring.
  - apply round_spec_nonneg. pose proof (SFdiv_finite_spec false mx ex false my ey) as H.
    cbn [xorb] in H. revert H.
    assert (E : (inject_Z (Z.pos mx) * pow2 ex / (inject_Z (Z.pos my) * pow2 ey) ==
                 1 * inject_Z (Z.pos mx) * pow2 ex / (1 * inject_Z (Z.pos my) * pow2 ey))%Q).
    { pose proof (pow2_pos ey). assert (0 < inject_Z (Z.pos my))%Q by reflexivity.
      field. split; lra. }
    apply round_spec_ext. exact E.
Qed.

Lemma digits2_pos_iter m d : digits2_pos (Pos.iter xO m d) = (digits2_pos m + d)%positive.
Proof.
  induction d as [|d IH] using Pos.peano_ind.
  - cbn. lia.
  - rewrite Pos.iter_succ. cbn [digits2_pos]. rewrite IH. lia.
Qed.

Lemma iter_xO_value m d : Z.pos (Pos.iter xO m d) = Z.pos m * 2 ^ Z.pos d.
Proof.
  change (Pos.iter xO m d) with (shift_pos d m). rewrite shift_pos_correct.
  rewrite Zpower_pos_nat, Zpower_nat_Z, positive_nat_Z. lia.
Qed.

Lemma shl_align_value m e e' :
  e' <= e ->
  Z.pos (fst (shl_align m e e')) = Z.pos m * 2 ^ (e - e') /\ snd (shl_align m e e') = e'.
Proof.
  intros H. unfold shl_align. destruct (e' - e) as [|d|d] eqn:Ed; cbn [fst snd]; try lia.
  - replace (e - e') with 0 by lia. split; lia.
  - rewrite iter_xO_value. replace (e - e') with (Z.pos d) by lia. split; reflexivity.
Qed.

Lemma binary_round_spec s m e :
  round_spec s (inject_Z (Z.pos m) * pow2 e) (binary_round 53 1024 s m e).
Proof.
  unfold binary_round. change (fexp 53 1024) with fexp64. set (E := fexp64 (Z.pos (digits2_pos m) + e)).
  unfold shl_align. destruct (E - e) as [|d|d] eqn:Ed.
  - apply binary_round_aux_spec; [lia|reflexivity|]. cbn [Zdigits2]. fold E. lia.
  - apply binary_round_aux_spec; [lia|reflexivity|]. cbn [Zdigits2]. fold E. lia.
  - apply binary_round_aux_spec; [lia| |].
    + cbn [inbetween]. rewrite iter_xO_value, inject_Z_mult.
      replace e with (Z.pos d + E) at 1 by lia. rewrite pow2_split by lia. ring.
    + cbn [Zdigits2]. rewrite digits2_pos_iter, Pos2Z.inj_add.
      replace (Z.pos (digits2_pos m) + Z.pos d + E) with (Z.pos (digits2_pos m) + e) by lia.
      fold E. lia.
Qed.

Lemma aligned_value m e e' :
  e' <= e ->
  (inject_Z (Z.pos (fst (shl_align m e e'))) * pow2 e' == inject_Z (Z.pos m) * pow2 e)%Q.
Proof.
  intros H. destruct (shl_align_value m e e' H) as [-> _].
  rewrite inject_Z_mult. replace e with ((e - e') + e') at 2 by lia.
  rewrite pow2_split by lia. ring.
Qed.

(** ** Subtraction and addition of values that are not below zero *)
Lemma SFsub_nonneg_spec x y :
  finite_nonneg x = true -> finite_nonneg y = true -> (B2Q y <= B2Q x)%Q ->
  rounds_nonneg (B2Q x - B2Q y) (SFsub 53 1024 x y).
Proof.
  intros Hx Hy Hle.
  destruct x as [sx|sx| |[|] mx ex]; cbn [finite_nonneg] in Hx; try discriminate;
  destruct y as [sy|sy| |[|] my ey]; cbn [finite_nonneg] in Hy; try discriminate.
  - left. split; [destruct sx, sy; reflexivity|]. apply nearest_self.
    destruct sx, sy; cbn [SFsub B2Q]; ring.
  - exfalso. cbn [B2Q] in Hle. pose proof (pow2_pos ey).
    assert (0 < inject_Z (Z.pos my))%Q by reflexivity. nra.
  - left. split; [exact Hx|]. apply nearest_self. cbn [SFsub B2Q]. ring.
  - cbn [SFsub cond_Zopp].
    set (ez := Z.min ex ey).
    pose proof (aligned_value mx ex ez ltac:(lia)) as HX.
    pose proof (aligned_value my ey ez ltac:(lia)) as HY.
    set (X := Z.pos (fst (shl_align mx ex ez))) in *.
    set (Y := Z.pos (fst (shl_align my ey ez))) in *.
    cbn [B2Q] in *. pose proof (pow2_pos ez) as HP.
    assert (Hd : (inject_Z (X - Y) * pow2 ez == 1 * inject_Z (Z.pos mx) * pow2 ex
                   - 1 * inject_Z (Z.pos my) * pow2 ey)%Q).
    { unfold Z.sub. rewrite inject_Z_plus, inject_Z_opp. lra. }
    assert (HXY : Y <= X).
    { destruct (Z_le_gt_dec Y X); [assumption|exfalso].
      assert (Hlt : X < Y) by lia. rewrite Zlt_Qlt in Hlt.
      assert (inject_Z X * pow2 ez < inject_Z Y * pow2 ez)%Q by (apply Qmult_lt_r; assumption).
      lra. }
    destruct (X - Y) as [|p|p] eqn:Ep; try lia; cbn [binary_normalize].
    + left. split; [reflexivity|]. apply nearest_self. cbn [B2Q]. rewrite <- Hd.
      change (inject_Z 0) with 0%Q. ring.
    + apply round_spec_nonneg. apply (round_spec_ext _ _ _ _ Hd). apply binary_round_spec.
Qed.

Lemma SFadd_nonneg_spec x y :
  finite_nonneg x = true -> finite_nonneg y = true ->
  rounds_nonneg (B2Q x + B2Q y) (SFadd 53 1024 x y).
Proof.
  intros Hx Hy.
  destruct x as [sx|sx| |[|] mx ex]; cbn [finite_nonneg] in Hx; try discriminate;
  destruct y as [sy|sy| |[|] my ey]; cbn [finite_nonneg] in Hy; try discriminate.
  - left. split; [destruct sx, sy; reflexivity|]. apply nearest_self.
    destruct sx, sy; cbn [SFadd B2Q]; ring.
  - left. split; [exact Hy|]. apply nearest_self. cbn [SFadd B2Q]. ring.
  - left. split; [exact Hx|]. apply nearest_self. cbn [SFadd B2Q]. ring.
  - cbn [SFadd cond_Zopp].
    set (ez := Z.min ex ey).
    pose proof (aligned_value mx ex ez ltac:(lia)) as HX.
    pose proof (aligned_value my ey ez ltac:(lia)) as HY.
    set (X := fst (shl_align mx ex ez)) in *.
    set (Y := fst (shl_align my ey ez)) in *.
    cbn [B2Q Z.add binary_normalize] in *.
    apply round_spec_nonneg.
    assert (Hd : (inject_Z (Z.pos (X + Y)) * pow2 ez == 1 * inject_Z (Z.pos mx) * pow2 ex
                   + 1 * inject_Z (Z.pos my) * pow2 ey)%Q).
    { rewrite Pos2Z.inj_add, inject_Z_plus. lra. }
    apply (round_spec_ext _ _ _ _ Hd). apply binary_round_spec.
Qed.

(** ** The numeric built-ins on values that are not below zero *)

Lemma inject_Z_sub a b : (inject_Z (a - b) == inject_Z a - inject_Z b)%Q.
Proof. unfold Z.sub. rewrite inject_Z_plus, inject_Z_opp. ring. Qed.

Lemma pow2_neg e : e <= 0 -> (pow2 e == 1 / inject_Z (2 ^ (- e)))%Q.
Proof.
  intros H. replace e with (- (- e)) at 1 by lia. unfold pow2. rewrite Qpower_opp.
  fold (pow2 (- e)). rewrite pow2_Z by lia. unfold Qdiv. ring.
Qed.

Lemma inject_Z_pow2_pos n : 0 <= n -> (0 < inject_Z (2 ^ n))%Q.
Proof.
  intros H. change 0%Q with (inject_Z 0). rewrite <- Zlt_Qlt. now apply Z.pow_pos_nonneg.
Qed.

Lemma B2Q_finite_false m e :
  (B2Q (S754_finite false m e) == inject_Z (Z.pos m) * pow2 e)%Q.
Proof. cbn [B2Q]. ring. Qed.

(** [int(x)] is the floor of the exact value. *)
Lemma py_int_finite_false m e :
  py_int (S754_finite false m e) = Ok (Qfloor (B2Q (S754_finite false m e))).
Proof.
  cbn [py_int]. f_equal. destruct (Z.leb_spec 0 e) as [He|He].
  - rewrite <- (Qfloor_Z (Z.pos m * 2 ^ e)). apply Qfloor_comp.
    rewrite B2Q_finite_false, pow2_Z, inject_Z_mult by assumption. reflexivity.
  - rewrite Zdiv_Qdiv. apply Qfloor_comp.
    rewrite B2Q_finite_false, pow2_neg by lia. unfold Qdiv. ring.
Qed.

Lemma py_int_nonneg f :
  finite_nonneg f = true -> py_int f = Ok (Qfloor (B2Q f)).
Proof.
  destruct f as [s|s| |[|] m e]; cbn [finite_nonneg]; try discriminate; intros _.
  - reflexivity.
  - apply py_int_finite_false.
Qed.

Lemma Qfloor_nonneg x : (0 <= x)%Q -> 0 <= Qfloor x.
Proof. intros H. change 0 with (Qfloor 0). now apply Qfloor_resp_le. Qed.

(** Integer division to nearest. *)
Lemma rne_div_spec n d :
  0 < d -> 2 * Z.abs (rne_div n d * d - n) <= d.
Proof.
  intros Hd. unfold rne_div.
  pose proof (Z.div_mod n d ltac:(lia)) as Hdm.
  pose proof (Z.mod_pos_bound n d Hd) as Hr.
  destruct (Z.compare_spec (2 * (n mod d)) d); [destruct (Z.even (n / d))| |]; nia.
Qed.

Lemma rne_div_bounds n d lo hi :
  0 < d -> lo * d <= n <= hi * d -> lo <= rne_div n d <= hi.
Proof.
  intros Hd H. unfold rne_div.
  pose proof (Z.div_mod n d ltac:(lia)) as Hdm.
  pose proof (Z.mod_pos_bound n d Hd) as Hr.
  assert (lo <= n / d) by (apply Z.div_le_lower_bound; lia).
  assert (Hq : n / d <= hi) by (apply Z.div_le_upper_bound; lia).
  destruct (Z.compare_spec (2 * (n mod d)) d); [destruct (Z.even (n / d))| |]; try lia.
  - destruct (Z.eq_dec (n / d) hi); [|lia]. nia.
  - destruct (Z.eq_dec (n / d) hi); [|lia]. nia.
Qed.

(** [round(x)] is an integer nearest to the exact value. *)
Lemma py_round_finite_false m e :
  exists r, py_round (S754_finite false m e) = Ok r /\
    (Qabs (inject_Z r - B2Q (S754_finite false m e)) <= 1 # 2)%Q.
Proof.
  cbn [py_round]. destruct (Z.leb_spec 0 e) as [He|He].
  - eexists. split; [reflexivity|].
    rewrite B2Q_finite_false, pow2_Z, <- inject_Z_mult by assumption.
    setoid_replace (inject_Z (Z.pos m * 2 ^ e) - inject_Z (Z.pos m * 2 ^ e))%Q with 0%Q by ring.
    discriminate.
  - eexists. split; [reflexivity|].
    set (d := 2 ^ (- e)). assert (Hd : 0 < d) by (apply Z.pow_pos_nonneg; lia).
    pose proof (rne_div_spec (Z.pos m) d Hd) as Hs.
    set (r := rne_div (Z.pos m) d) in *.
    rewrite B2Q_finite_false, pow2_neg by lia. fold d.
    assert (HdQ : (0 < inject_Z d)%Q) by (change 0%Q with (inject_Z 0); rewrite <- Zlt_Qlt; lia).
    assert (Hlo : - d <= 2 * (r * d - Z.pos m)) by lia.
    assert (Hhi : 2 * (r * d - Z.pos m) <= d) by lia.
    rewrite Zle_Qle in Hlo, Hhi.
    rewrite inject_Z_mult, inject_Z_sub, inject_Z_mult in Hlo, Hhi.
    rewrite inject_Z_opp in Hlo. change (inject_Z 2) with 2%Q in *.
    set (i := (1 / inject_Z d)%Q).
    assert (Hi : (i * inject_Z d == 1)%Q) by (unfold i; field; lra).
    assert (Hipos : (0 < i)%Q).
    { unfold i. apply Qlt_shift_div_l; [assumption|]. lra. }
    assert (E : (inject_Z r - inject_Z (Z.pos m) * i
                 == (inject_Z r * inject_Z d - inject_Z (Z.pos m)) * i)%Q).
    { setoid_replace (inject_Z r) with (inject_Z r * (i * inject_Z d))%Q at 1
        by (rewrite Hi; ring). ring. }
    apply Qabs_Qle_condition. rewrite E.
    set (t := (inject_Z r * inject_Z d - inject_Z (Z.pos m))%Q) in *.
    clearbody t i.
    split; nra.
Qed.

(** Rounding against bounds and values given by a mantissa and an exponent. *)
Lemma flt_lt_max M F :
  0 <= M < 2 ^ 53 -> F <= 971 -> (inject_Z M * pow2 F < pow2 1024)%Q.
Proof.
  intros HM HF.
  assert (H2 : (inject_Z M * pow2 F < inject_Z (2 ^ 53) * pow2 F)%Q).
  { apply Qmult_lt_r; [apply pow2_pos|]. rewrite <- Zlt_Qlt. lia. }
  pose proof (pow2_split 53 F ltac:(lia)) as H3.
  assert (pow2 (53 + F) <= pow2 1024)%Q by (apply pow2_le; lia).
  lra.
Qed.

Lemma rounds_nonneg_exact_flt x r M F :
  rounds_nonneg x r -> 0 <= M < 2 ^ 53 -> -1074 <= F -> (x == inject_Z M * pow2 F)%Q ->
  (x < pow2 1024)%Q -> finite_nonneg r = true /\ (B2Q r == x)%Q.
Proof.
  intros Hr HM HF Hx Hmax.
  destruct Hr as [[Hfin Hn]|[_ (v & Hn & Hv)]].
  - split; [assumption|]. apply (nearest_exact x _ M F); try assumption; lia.
  - exfalso. assert (v == x)%Q by (apply (nearest_exact x _ M F); try assumption; lia). lra.
Qed.

Lemma rounds_nonneg_le_flt x r M F :
  rounds_nonneg x r -> 0 <= M < 2 ^ 53 -> -1074 <= F <= 971 -> (x <= inject_Z M * pow2 F)%Q ->
  finite_nonneg r = true /\ (B2Q r <= inject_Z M * pow2 F)%Q.
Proof.
  intros Hr HM HF Hx. pose proof (flt_lt_max M F HM ltac:(lia)) as Hmax.
  destruct Hr as [[Hfin Hn]|[_ (v & Hn & Hv)]].
  - split; [assumption|]. apply (nearest_le x); try assumption; lia.
  - exfalso. assert (v <= inject_Z M * pow2 F)%Q by (apply (nearest_le x); try assumption; lia).
    lra.
Qed.

Lemma binary_normalize_nonneg_exact n e :
  0 <= n < 2 ^ 53 -> -1074 <= e <= 971 ->
  finite_nonneg (binary_normalize 53 1024 n e false) = true /\
  (B2Q (binary_normalize 53 1024 n e false) == inject_Z n * pow2 e)%Q.
Proof.
  intros Hn He. destruct n as [|p|p]; try lia; cbn [binary_normalize].
  - split; [reflexivity|]. cbn [B2Q]. change (inject_Z 0) with 0%Q. ring.
  - apply (rounds_nonneg_exact_flt _ _ (Z.pos p) e); try lia; try reflexivity.
    + apply round_spec_nonneg, binary_round_spec.
    + apply flt_lt_max; lia.
Qed.

(** The comparisons of [_float_div_mod] against zero. *)
Lemma fltb_nonneg_zero f : finite_nonneg f = true -> fltb f (fzero false) = false.
Proof. destruct f as [s|s| |[|] m e]; cbn [finite_nonneg]; try discriminate; reflexivity. Qed.

Lemma c_true_B2Q f : finite_nonneg f = true -> c_true f = false -> (B2Q f == 0)%Q.
Proof. destruct f; cbn; try discriminate; reflexivity. Qed.

Lemma c_true_pos f : finite_nonneg f = true -> c_true f = true -> (0 < B2Q f)%Q.
Proof.
  destruct f as [s|s| |[|] m e]; cbn [finite_nonneg c_true]; try discriminate. intros _ _.
  rewrite B2Q_finite_false. pose proof (pow2_pos e).
  assert (0 < inject_Z (Z.pos m))%Q by reflexivity. nra.
Qed.

Lemma B2Q_zero_c_true f : finite_nonneg f = true -> (B2Q f == 0)%Q -> c_true f = false.
Proof.
  intros Hf H0. destruct (c_true f) eqn:E; [|reflexivity].
  pose proof (c_true_pos f Hf E). lra.
Qed.

(** [fmod] by a positive divisor: the exact remainder. *)
Lemma c_fmod_nonneg x my ey :
  finite_nonneg x = true -> bounded 53 1024 my ey = true ->
  let y := S754_finite false my ey in
  finite_nonneg (c_fmod x y) = true /\
  exists k, 0 <= k /\
    (B2Q x == inject_Z k * B2Q y + B2Q (c_fmod x y))%Q /\
    (0 <= B2Q (c_fmod x y))%Q /\ (B2Q (c_fmod x y) < B2Q y)%Q.
Proof.
  intros Hx Hy y. subst y.
  assert (Hypos : (0 < B2Q (S754_finite false my ey))%Q) by (apply c_true_pos; [exact Hy|reflexivity]).
  destruct x as [s|s| |[|] mx ex]; cbn [finite_nonneg] in Hx; try discriminate.
  - cbn [c_fmod]. split; [reflexivity|]. exists 0. split; [lia|].
    cbn [B2Q] in *. change (inject_Z 0) with 0%Q. repeat split; lra.
  - cbn [c_fmod cond_Zopp].
    pose proof (bounded_range _ _ Hx) as [Hmx Hex].
    pose proof (bounded_range _ _ Hy) as [Hmy Hey].
    set (ez := Z.min ex ey).
    set (X := Z.pos mx * 2 ^ (ex - ez)). set (Y := Z.pos my * 2 ^ (ey - ez)).
    assert (HX : (inject_Z X * pow2 ez == B2Q (S754_finite false mx ex))%Q).
    { rewrite B2Q_finite_false. unfold X. rewrite inject_Z_mult.
      replace ex with ((ex - ez) + ez) at 2 by lia. rewrite pow2_split by lia. ring. }
    assert (HY : (inject_Z Y * pow2 ez == B2Q (S754_finite false my ey))%Q).
    { rewrite B2Q_finite_false. unfold Y. rewrite inject_Z_mult.
      replace ey with ((ey - ez) + ez) at 2 by lia. rewrite pow2_split by lia. ring. }
    assert (HXpos : 0 < X) by (unfold X; apply Z.mul_pos_pos; [lia|apply Z.pow_pos_nonneg; lia]).
    assert (HYpos : 0 < Y) by (unfold Y; apply Z.mul_pos_pos; [lia|apply Z.pow_pos_nonneg; lia]).
    pose proof (Z.div_mod X Y ltac:(lia)) as Hdm.
    pose proof (Z.mod_pos_bound X Y HYpos) as Hr.
    assert (Hk : 0 <= X / Y) by (apply Z.div_pos; lia).
    assert (HR53 : X mod Y < 2 ^ 53).
    { destruct (Z_le_gt_dec ex ey).
      - assert (X = Z.pos mx) by (unfold X; replace (ex - ez) with 0 by lia; lia).
        assert (X mod Y <= X) by (apply Z.mod_le; lia). lia.
      - assert (Y = Z.pos my) by (unfold Y; replace (ey - ez) with 0 by lia; lia). lia. }
    pose proof (pow2_pos ez) as HP.
    destruct (binary_normalize_nonneg_exact (X mod Y) ez ltac:(lia) ltac:(lia)) as [Hfin Hval].
    split; [exact Hfin|]. exists (X / Y). split; [exact Hk|].
    rewrite Hval, <- HX, <- HY.
    assert (HdmQ : (inject_Z X == inject_Z Y * inject_Z (X / Y) + inject_Z (X mod Y))%Q).
    { rewrite <- inject_Z_mult, <- inject_Z_plus, <- Hdm. reflexivity. }
    assert (HrQ0 : (0 <= inject_Z (X mod Y))%Q) by (change 0%Q with (inject_Z 0); rewrite <- Zle_Qle; lia).
    assert (HrQ1 : (inject_Z (X mod Y) < inject_Z Y)%Q) by (rewrite <- Zlt_Qlt; lia).
    split; [rewrite HdmQ; ring|]. split; nra.
Qed.

(** C [floor] of a value that is not below zero. *)
Lemma c_floor_nonneg f :
  finite_nonneg f = true ->
  finite_nonneg (c_floor f) = true /\ (B2Q (c_floor f) == inject_Z (Qfloor (B2Q f)))%Q.
Proof.
  intros Hf. destruct f as [s|s| |[|] m e]; cbn [finite_nonneg] in Hf; try discriminate.
  - split; reflexivity.
  - pose proof (bounded_range _ _ Hf) as [Hm He].
    cbn [c_floor]. destruct (Z.leb_spec 0 e) as [H0|H0].
    + split; [exact Hf|]. rewrite B2Q_finite_false, pow2_Z, <- inject_Z_mult by assumption.
      rewrite Qfloor_Z. reflexivity.
    + assert (Hd : 0 < 2 ^ (- e)) by (apply Z.pow_pos_nonneg; lia).
      assert (Hq : 0 <= Z.pos m / 2 ^ (- e) < 2 ^ 53).
      { split; [apply Z.div_pos; lia|].
        assert (Z.pos m / 2 ^ (- e) <= Z.pos m) by (apply Z.div_le_upper_bound; nia). lia. }
      destruct (binary_normalize_nonneg_exact (Z.pos m / 2 ^ (- e)) 0 Hq ltac:(lia)) as [Hfin Hval].
      split; [exact Hfin|]. rewrite Hval. change (pow2 0) with 1%Q. rewrite Qmult_1_r.
      assert (E : (B2Q (S754_finite false m e) == inject_Z (Z.pos m) / inject_Z (2 ^ (- e)))%Q).
      { rewrite B2Q_finite_false, pow2_neg by lia. unfold Qdiv. ring. }
      rewrite (Qfloor_comp _ _ E), <- Zdiv_Qdiv. reflexivity.
Qed.

(** ** The constants of the program as floats *)

Lemma f3600_eq : float_of_int 3600 = S754_finite false 7916483719987200 (-41).
Proof. reflexivity. Qed.
Lemma f60_eq : float_of_int 60 = S754_finite false 8444249301319680 (-47).
Proof. reflexivity. Qed.
Lemma f1000_eq : float_of_int 1000 = S754_finite false 8796093022208000 (-43).
Proof. reflexivity. Qed.
Lemma f150_eq : float_of_int 150 = S754_finite false 5277655813324800 (-45).
Proof. reflexivity. Qed.
Lemma f8_eq : float_of_int 8 = S754_finite false 4503599627370496 (-49).
Proof. reflexivity. Qed.

Lemma B2Q_3600 : (B2Q (S754_finite false 7916483719987200 (-41)) == 3600)%Q.
Proof. vm_compute. reflexivity. Qed.
Lemma B2Q_60 : (B2Q (S754_finite false 8444249301319680 (-47)) == 60)%Q.
Proof. vm_compute. reflexivity. Qed.
Lemma B2Q_1000 : (B2Q (S754_finite false 8796093022208000 (-43)) == 1000)%Q.
Proof. vm_compute. reflexivity. Qed.
Lemma B2Q_1 : (B2Q f_1_0 == 1)%Q.
Proof. vm_compute. reflexivity. Qed.

Lemma Qfloor_unique x k : (inject_Z k <= x)%Q -> (x < inject_Z k + 1)%Q -> Qfloor x = k.
Proof.
  intros Hlo Hhi. pose proof (Qfloor_le x) as H1. pose proof (Qlt_floor x) as H2.
  rewrite inject_Z_plus in H2. change (inject_Z 1) with 1%Q in H2.
  assert (Ha : (inject_Z k < inject_Z (Qfloor x) + 1)%Q) by lra.
  assert (Hb : (inject_Z (Qfloor x) < inject_Z k + 1)%Q) by lra.
  change 1%Q with (inject_Z 1) in Ha, Hb. rewrite <- inject_Z_plus, <- Zlt_Qlt in Ha, Hb. lia.
Qed.

Lemma fltb_half_zero z :
  finite_nonneg z = true -> (B2Q z == 0)%Q -> fltb f_0_5 z = false.
Proof.
  intros Hz H0. pose proof (B2Q_zero_c_true z Hz H0) as Hc.
  destruct z as [s|s| |s m e]; try discriminate. reflexivity.
Qed.

Lemma Z_of_Q_lt a b : (inject_Z a < inject_Z b)%Q -> a < b.
Proof. intros H. now rewrite <- Zlt_Qlt in H. Qed.

(** ** Floor division by 3600 *)
Lemma floordiv_3600_nonneg s :
  finite_nonneg s = true ->
  let fd := float_div_mod_floordiv s (float_of_int 3600) in
  finite_nonneg fd = true /\
  ((B2Q s < inject_Z (2 ^ 53))%Q -> (B2Q fd == inject_Z (Qfloor (B2Q s / 3600)))%Q).
Proof.
  intros Hs. rewrite f3600_eq. set (w := S754_finite false 7916483719987200 (-41)).
  assert (Hw : finite_nonneg w = true) by reflexivity.
  assert (Hwv : (B2Q w == 3600)%Q) by apply B2Q_3600.
  destruct (c_fmod_nonneg s 7916483719987200 (-41) Hs eq_refl)
    as [Hmfin (k & Hk & Hsk & Hr0 & Hr1)].
  fold w in Hmfin, Hsk, Hr0, Hr1. rewrite Hwv in Hsk, Hr1.
  unfold float_div_mod_floordiv. set (r := c_fmod s w) in *.
  assert (HkQ : (0 <= inject_Z k)%Q) by (change 0%Q with (inject_Z 0); rewrite <- Zle_Qle; lia).
  (* vx - mod *)
  assert (Hrs : (B2Q r <= B2Q s)%Q) by lra.
  pose proof (SFsub_nonneg_spec s r Hs Hmfin Hrs) as Hsub. fold (fsub s r) in Hsub.
  assert (Hsr : (B2Q s - B2Q r <= B2Q s)%Q) by lra.
  destruct (rounds_nonneg_le _ _ s Hsub Hs Hsr) as [Hsubfin Hsuble].
  pose proof (finite_nonneg_ge0 _ Hsubfin) as Hsub0.
  pose proof (finite_nonneg_lt_max _ Hs) as Hsmax.
  (* (vx - mod) / wx *)
  assert (Hwpos : (0 < B2Q w)%Q) by (rewrite Hwv; reflexivity).
  pose proof (SFdiv_nonneg_spec (fsub s r) w Hsubfin Hw Hwpos) as Hdiv.
  fold (fdiv (fsub s r) w) in Hdiv. set (div := fdiv (fsub s r) w) in *.
  pose proof (pow2_split 11 1013 ltac:(lia)) as H1024. change (11 + 1013) with 1024 in H1024.
  change (inject_Z (2 ^ 11)) with 2048%Q in H1024.
  pose proof (pow2_split 52 961 ltac:(lia)) as H1013. change (52 + 961) with 1013 in H1013.
  pose proof (pow2_pos 1013) as HP1013.
  assert (Hdivx : (B2Q (fsub s r) / B2Q w <= inject_Z (2 ^ 52) * pow2 961)%Q).
  { rewrite Hwv, <- H1013. apply Qle_shift_div_r; lra. }
  destruct (rounds_nonneg_le_flt _ _ (2 ^ 52) 961 Hdiv ltac:(lia) ltac:(lia) Hdivx) as [Hdivfin Hdivle].
  pose proof (finite_nonneg_ge0 _ Hdivfin) as Hdiv0.
  replace (if c_true r
           then if xorb (fltb w (fzero false)) (fltb r (fzero false)) then fsub div f_1_0 else div
           else div) with div.
  2:{ rewrite (fltb_nonneg_zero r Hmfin). change (fltb w (fzero false)) with false.
      cbn [xorb]. destruct (c_true r); reflexivity. }
  (* exact values below 2^53 *)
  assert (Hexact : (B2Q s < inject_Z (2 ^ 53))%Q ->
            (B2Q div == inject_Z k)%Q /\ Qfloor (B2Q s / 3600) = k).
  { intros H53.
    assert (Hk53 : 3600 * k < 2 ^ 53).
    { apply Z_of_Q_lt. rewrite inject_Z_mult. change (inject_Z 3600) with 3600%Q. lra. }
    assert (Hsubv : (B2Q (fsub s r) == inject_Z (3600 * k))%Q).
    { destruct (rounds_nonneg_exact_flt _ _ (3600 * k) 0 Hsub ltac:(lia) ltac:(lia)) as [_ Hv].
      - change (pow2 0) with 1%Q. rewrite inject_Z_mult. change (inject_Z 3600) with 3600%Q. lra.
      - lra.
      - rewrite Hv, inject_Z_mult. change (inject_Z 3600) with 3600%Q. lra. }
    split.
    - destruct (rounds_nonneg_exact_flt _ _ k 0 Hdiv ltac:(lia) ltac:(lia)) as [_ Hv].
      + rewrite Hsubv, Hwv, inject_Z_mult. change (inject_Z 3600) with 3600%Q.
        change (pow2 0) with 1%Q. field.
      + rewrite Hwv. apply Qlt_shift_div_r; lra.
      + rewrite Hv, Hsubv, Hwv, inject_Z_mult. change (inject_Z 3600) with 3600%Q. field.
    - apply Qfloor_unique.
      + apply Qle_shift_div_l; lra.
      + apply Qlt_shift_div_r; lra. }
  destruct (c_true div) eqn:Hct.
  - destruct (c_floor_nonneg div Hdivfin) as [Hflfin Hflv].
    set (fl := c_floor div) in *.
    pose proof (Qfloor_le (B2Q div)) as Hfl_le. rewrite <- Hflv in Hfl_le.
    destruct (fltb f_0_5 (fsub div fl)) eqn:Hsnap.
    + pose proof (SFadd_nonneg_spec fl f_1_0 Hflfin eq_refl) as Hadd.
      fold (fadd fl f_1_0) in Hadd.
      apply (rounds_nonneg_ext _ (B2Q fl + 1)%Q) in Hadd; [|rewrite B2Q_1; reflexivity].
      pose proof (pow2_split 52 962 ltac:(lia)) as H1014. change (52 + 962) with 1014 in H1014.
      pose proof (pow2_succ 1013) as Hs1013. change (1013 + 1) with 1014 in Hs1013.
      assert (H1 : (1 <= pow2 1013)%Q) by (change 1%Q with (pow2 0); apply pow2_le; lia).
      destruct (rounds_nonneg_le_flt _ _ (2 ^ 52) 962 Hadd ltac:(lia) ltac:(lia)) as [Haddfin _].
      { lra. }
      split; [exact Haddfin|].
      intros H53. exfalso. destruct (Hexact H53) as [Hdk _].
      assert (Hflk : (B2Q fl == inject_Z k)%Q).
      { rewrite Hflv. rewrite (Qfloor_comp _ _ Hdk), Qfloor_Z. reflexivity. }
      pose proof (SFsub_nonneg_spec div fl Hdivfin Hflfin ltac:(lra)) as Hz.
      fold (fsub div fl) in Hz.
      destruct (rounds_nonneg_exact_flt _ _ 0 0 Hz ltac:(lia) ltac:(lia)) as [Hzfin Hzv].
      { change (inject_Z 0) with 0%Q. lra. }
      { pose proof (pow2_pos 1024). lra. }
      rewrite (fltb_half_zero _ Hzfin) in Hsnap by lra. discriminate.
    + split; [exact Hflfin|]. intros H53. destruct (Hexact H53) as [Hdk ->].
      rewrite Hflv, (Qfloor_comp _ _ Hdk), Qfloor_Z. reflexivity.
  - split; [reflexivity|]. intros H53. destruct (Hexact H53) as [Hdk ->].
    rewrite <- Hdk. rewrite (c_true_B2Q div Hdivfin Hct).
    destruct (fdiv s w) as [a|a| |a m e]; reflexivity.
Qed.

(** ** Remainder modulo 3600 and the minutes *)
Lemma mod_3600_nonneg s :
  finite_nonneg s = true ->
  let rem := float_div_mod_mod s (float_of_int 3600) in
  finite_nonneg rem = true /\
  (B2Q rem == B2Q s - 3600 * inject_Z (Qfloor (B2Q s / 3600)))%Q /\
  (0 <= B2Q rem)%Q /\ (B2Q rem < 3600)%Q.
Proof.
  intros Hs. rewrite f3600_eq. set (w := S754_finite false 7916483719987200 (-41)).
  assert (Hwv : (B2Q w == 3600)%Q) by apply B2Q_3600.
  destruct (c_fmod_nonneg s 7916483719987200 (-41) Hs eq_refl)
    as [Hmfin (k & Hk & Hsk & Hr0 & Hr1)].
  fold w in Hmfin, Hsk, Hr0, Hr1. rewrite Hwv in Hsk, Hr1.
  unfold float_div_mod_mod. set (r := c_fmod s w) in *. cbv zeta.
  assert (HkQ : (0 <= inject_Z k)%Q) by (change 0%Q with (inject_Z 0); rewrite <- Zle_Qle; lia).
  assert (Hfl : Qfloor (B2Q s / 3600) = k).
  { apply Qfloor_unique.
    - apply Qle_shift_div_l; lra.
    - apply Qlt_shift_div_r; lra. }
  rewrite Hfl.
  rewrite (fltb_nonneg_zero r Hmfin). change (fltb w (fzero false)) with false. cbn [xorb].
  destruct (c_true r) eqn:Hct.
  - split; [exact Hmfin|]. split; [lra|]. split; lra.
  - pose proof (c_true_B2Q r Hmfin Hct) as H0.
    change (c_copysign (fzero false) w) with (S754_zero false).
    split; [reflexivity|]. cbn [B2Q]. split; [lra|]. split; lra.
Qed.

Lemma py_round_nonneg y :
  finite_nonneg y = true ->
  exists M, py_round y = Ok M /\ (Qabs (inject_Z M - B2Q y) <= 1 # 2)%Q.
Proof.
  destruct y as [s|s| |[|] m e]; cbn [finite_nonneg]; try discriminate; intros _.
  - exists 0. split; [reflexivity|]. cbn [B2Q]. discriminate.
  - apply py_round_finite_false.
Qed.

Lemma Z_of_Q_le a b : (inject_Z a <= inject_Z b)%Q -> a <= b.
Proof. intros H. now rewrite <- Zle_Qle in H. Qed.

Lemma minutes_nonneg rem :
  finite_nonneg rem = true -> (B2Q rem < 3600)%Q ->
  exists M, py_round (fdiv rem (float_of_int 60)) = Ok M /\
    (Qabs (inject_Z M - B2Q (fdiv rem (float_of_int 60))) <= 1 # 2)%Q /\
    0 <= M <= 60.
Proof.
  intros Hrem Hlt. rewrite f60_eq. set (w := S754_finite false 8444249301319680 (-47)).
  assert (Hwv : (B2Q w == 60)%Q) by apply B2Q_60.
  assert (Hwpos : (0 < B2Q w)%Q) by (rewrite Hwv; reflexivity).
  pose proof (finite_nonneg_ge0 _ Hrem) as H0.
  pose proof (SFdiv_nonneg_spec rem w Hrem eq_refl Hwpos) as Hdiv. fold (fdiv rem w) in Hdiv.
  assert (Hx : (B2Q rem / B2Q w <= inject_Z 60 * pow2 0)%Q).
  { rewrite Hwv. change (inject_Z 60 * pow2 0)%Q with 60%Q. apply Qle_shift_div_r; lra. }
  destruct (rounds_nonneg_le_flt _ _ 60 0 Hdiv ltac:(lia) ltac:(lia) Hx) as [Hyfin Hyle].
  change (inject_Z 60 * pow2 0)%Q with 60%Q in Hyle.
  pose proof (finite_nonneg_ge0 _ Hyfin) as Hy0.
  destruct (py_round_nonneg _ Hyfin) as (M & HM & Hnear).
  exists M. split; [exact HM|]. split; [exact Hnear|].
  apply Qabs_Qle_condition in Hnear. destruct Hnear as [Hlo Hhi].
  split.
  - assert (H : (inject_Z (-1) < inject_Z M)%Q) by (change (inject_Z (-1)) with (-1)%Q; lra).
    apply Z_of_Q_lt in H. lia.
  - assert (H : (inject_Z M < inject_Z 61)%Q) by (change (inject_Z 61) with 61%Q; lra).
    apply Z_of_Q_lt in H. lia.
Qed.

(** ** The minutes are nearest to the exact quotient

    Rounding the quotient by 60 to binary64 never moves it onto a half
    integer: the remainder is a multiple of its own unit in the last place,
    which is more than 30 times finer than the spacing of doubles around
    the half integer. *)

Lemma bounded_normal m e :
  bounded 53 1024 m e = true -> -1074 < e -> 2 ^ 52 <= Z.pos m.
Proof.
  unfold bounded, canonical_mantissa. intros H He. apply andb_prop in H. destruct H as [Hc _].
  apply Z.eqb_eq in Hc. change (fexp 53 1024) with fexp64 in Hc. rewrite fexp64_eq in Hc.
  pose proof (digits2_pos_bounds m) as Hd.
  replace (Z.pos (digits2_pos m)) with 53 in Hd by lia. exact (proj1 Hd).
Qed.

Lemma remainder_exponent m e :
  bounded 53 1024 m e = true ->
  (22 <= inject_Z (Z.pos m) * pow2 e)%Q -> (inject_Z (Z.pos m) * pow2 e < 3600)%Q ->
  -1069 <= e < 0.
Proof.
  intros Hb Hlo Hhi. pose proof (bounded_range _ _ Hb) as [Hm He].
  pose proof (pow2_pos e) as HP. split.
  - destruct (Z_le_gt_dec (-1069) e) as [|Hlt]; [assumption|exfalso].
    assert (H1 : (pow2 e <= pow2 (-1070))%Q) by (apply pow2_le; lia).
    assert (H2 : (inject_Z (Z.pos m) <= inject_Z (2 ^ 53))%Q) by (rewrite <- Zle_Qle; lia).
    pose proof (pow2_split 53 (-1070) ltac:(lia)) as H3. change (53 + -1070) with (-1017) in H3.
    assert (H4 : (pow2 (-1017) <= pow2 0)%Q) by (apply pow2_le; lia).
    change (pow2 0) with 1%Q in H4.
    assert (H5 : (0 < inject_Z (2 ^ 53))%Q) by reflexivity.
    pose proof (pow2_pos (-1070)). nra.
  - destruct (Z_le_gt_dec 0 e) as [Hge|]; [exfalso|lia].
    pose proof (bounded_normal m e Hb ltac:(lia)) as Hn.
    assert (H1 : (pow2 0 <= pow2 e)%Q) by (apply pow2_le; lia). change (pow2 0) with 1%Q in H1.
    assert (H2 : (inject_Z (2 ^ 52) <= inject_Z (Z.pos m))%Q) by (rewrite <- Zle_Qle; lia).
    assert (H3 : (3600 < inject_Z (2 ^ 52))%Q) by reflexivity.
    nra.
Qed.

Lemma pow2_times_inv e : e <= 0 -> (pow2 e * inject_Z (2 ^ (- e)) == 1)%Q.
Proof.
  intros He. rewrite pow2_neg by assumption.
  pose proof (inject_Z_pow2_pos (- e) ltac:(lia)). field. lra.
Qed.

Lemma pow2_minus_5 e : (pow2 (e - 5) == (1 # 32) * pow2 e)%Q.
Proof.
  replace (e - 5) with (e + (-5)) by lia. rewrite pow2_add.
  change (pow2 (-5)) with (1 # 32)%Q. ring.
Qed.

Lemma minutes_exact rem M :
  finite_nonneg rem = true -> (B2Q rem < 3600)%Q ->
  py_round (fdiv rem (float_of_int 60)) = Ok M ->
  (Qabs (inject_Z M - B2Q rem / 60) <= 1 # 2)%Q.
Proof.
  intros Hrem Hlt HM.
  destruct (minutes_nonneg rem Hrem Hlt) as (M' & HM' & Hnear & HMrange).
  rewrite HM in HM'. inversion HM'; subst M'; clear HM'.
  revert Hnear HM. rewrite f60_eq. set (w := S754_finite false 8444249301319680 (-47)).
  intros Hnear HM.
  assert (Hwv : (B2Q w == 60)%Q) by apply B2Q_60.
  assert (Hwpos : (0 < B2Q w)%Q) by (rewrite Hwv; reflexivity).
  pose proof (finite_nonneg_ge0 _ Hrem) as H0.
  pose proof (SFdiv_nonneg_spec rem w Hrem eq_refl Hwpos) as Hdiv. fold (fdiv rem w) in Hdiv.
  apply (rounds_nonneg_ext _ (B2Q rem / 60)%Q) in Hdiv; [|rewrite Hwv; reflexivity].
  set (y := fdiv rem w) in *. set (q := (B2Q rem / 60)%Q) in *.
  assert (Hq0 : (0 <= q)%Q) by (unfold q; apply Qle_shift_div_l; lra).
  assert (Hq60 : (q * 60 == B2Q rem)%Q) by (unfold q; field).
  assert (Hx : (q <= inject_Z 60 * pow2 0)%Q).
  { change (inject_Z 60 * pow2 0)%Q with 60%Q. lra. }
  destruct (rounds_nonneg_le_flt _ _ 60 0 Hdiv ltac:(lia) ltac:(lia) Hx) as [Hyfin _].
  assert (Hn : nearest q (B2Q y)).
  { destruct Hdiv as [[_ Hn]|[Hinf _]]; [exact Hn|]. rewrite Hinf in Hyfin. discriminate. }
  apply Qabs_Qle_condition in Hnear. destruct Hnear as [HYlo HYhi].
  assert (HMq0 : (0 <= inject_Z M)%Q) by (change 0%Q with (inject_Z 0); rewrite <- Zle_Qle; lia).
  apply Qabs_Qle_condition. split.
  - (* the quotient is not above M + 1/2 *)
    destruct (Qlt_le_dec (inject_Z M + (1 # 2)) q) as [Hgt|Hle]; [exfalso|lra].
    assert (Ht : (inject_Z M + (1 # 2) == inject_Z (2 * M + 1) * pow2 (-1))%Q).
    { rewrite inject_Z_plus, inject_Z_mult. change (pow2 (-1)) with (1 # 2)%Q.
      change (inject_Z 2) with 2%Q. change (inject_Z 1) with 1%Q. ring. }
    assert (HYt : (B2Q y == inject_Z M + (1 # 2))%Q).
    { pose proof (nearest_ge q (B2Q y) (2 * M + 1) (-1) Hn ltac:(lia) ltac:(lia)) as Hge.
      rewrite <- Ht in Hge. specialize (Hge ltac:(lra)). lra. }
    destruct rem as [s|s| |[|] m e]; cbn [finite_nonneg] in Hrem; try discriminate.
    { cbn [B2Q] in Hq60. lra. }
    rewrite B2Q_finite_false in Hq60, Hlt.
    destruct (remainder_exponent m e Hrem ltac:(lra) Hlt) as [He1 He2].
    pose proof (pow2_times_inv e ltac:(lia)) as HPE. pose proof (pow2_pos e) as HE.
    set (P := 2 ^ (- e)) in *. assert (HP : 0 < P) by (apply Z.pow_pos_nonneg; lia).
    pose proof (bounded_range _ _ Hrem) as [Hm53 _].
    assert (HPq : (0 < inject_Z P)%Q) by (change 0%Q with (inject_Z 0); rewrite <- Zlt_Qlt; lia).
    (* the mantissa is beyond the half integer by one unit at least *)
    assert (Hmgt : 30 * (2 * M + 1) * P < Z.pos m).
    { apply Z_of_Q_lt. rewrite !inject_Z_mult, inject_Z_plus, inject_Z_mult.
      change (inject_Z 30) with 30%Q. change (inject_Z 2) with 2%Q. change (inject_Z 1) with 1%Q.
      assert (H1 : (30 * (2 * inject_Z M + 1) < inject_Z (Z.pos m) * pow2 e)%Q) by lra.
      assert (H2 : (30 * (2 * inject_Z M + 1) * inject_Z P
                    < inject_Z (Z.pos m) * pow2 e * inject_Z P)%Q)
        by (apply Qmult_lt_r; assumption).
      setoid_replace (inject_Z (Z.pos m) * pow2 e * inject_Z P)%Q
        with (inject_Z (Z.pos m) * (pow2 e * inject_Z P))%Q in H2 by ring.
      rewrite HPE in H2. lra. }
    assert (HMP : 0 <= M * P) by nia.
    set (N := 16 * (2 * M + 1) * P + 1).
    assert (HN : Z.abs N < 2 ^ 53) by (unfold N; lia).
    assert (HNv : (inject_Z N * pow2 (e - 5) == inject_Z M + (1 # 2) + (1 # 32) * pow2 e)%Q).
    { unfold N. rewrite pow2_minus_5, inject_Z_plus, !inject_Z_mult, inject_Z_plus, inject_Z_mult.
      change (inject_Z 16) with 16%Q. change (inject_Z 2) with 2%Q. change (inject_Z 1) with 1%Q.
      setoid_replace (((16 * (2 * inject_Z M + 1) * inject_Z P + 1) * ((1 # 32) * pow2 e)))%Q
        with ((1 # 2) * (2 * inject_Z M + 1) * (pow2 e * inject_Z P) + (1 # 32) * pow2 e)%Q by ring.
      rewrite HPE. ring. }
    assert (Hgap : ((1 # 60) * pow2 e <= q - (inject_Z M + (1 # 2)))%Q).
    { assert (H1 : 30 * (2 * M + 1) * P + 1 <= Z.pos m) by lia.
      rewrite Zle_Qle in H1.
      rewrite inject_Z_plus, !inject_Z_mult, inject_Z_plus, inject_Z_mult in H1.
      change (inject_Z 30) with 30%Q in H1. change (inject_Z 2) with 2%Q in H1.
      change (inject_Z 1) with 1%Q in H1.
      assert (H2 : ((30 * (2 * inject_Z M + 1) * inject_Z P + 1) * pow2 e
                    <= inject_Z (Z.pos m) * pow2 e)%Q) by (apply Qmult_le_r; assumption).
      setoid_replace ((30 * (2 * inject_Z M + 1) * inject_Z P + 1) * pow2 e)%Q
        with (30 * (2 * inject_Z M + 1) * (pow2 e * inject_Z P) + pow2 e)%Q in H2 by ring.
      rewrite HPE in H2. lra. }
    specialize (Hn N (e - 5) HN ltac:(lia)). rewrite HNv, HYt in Hn.
    assert (Hc : (Qabs (inject_Z M + (1 # 2) + (1 # 32) * pow2 e - q) < q - (inject_Z M + (1 # 2)))%Q).
    { apply Qabs_Qlt_condition. split; lra. }
    rewrite (Qabs_neg (inject_Z M + (1 # 2) - q)) in Hn by lra. lra.
  - (* the quotient is not below M - 1/2 *)
    destruct (Qlt_le_dec q (inject_Z M - (1 # 2))) as [Hgt|Hle]; [exfalso|lra].
    assert (HM1 : 1 <= M).
    { destruct (Z_le_gt_dec 1 M); [assumption|].
      assert (M = 0) by lia. subst M. change (inject_Z 0) with 0%Q in Hgt. lra. }
    assert (HMq1 : (1 <= inject_Z M)%Q) by (change 1%Q with (inject_Z 1); rewrite <- Zle_Qle; lia).
    assert (Ht : (inject_Z M - (1 # 2) == inject_Z (2 * M - 1) * pow2 (-1))%Q).
    { rewrite inject_Z_sub, inject_Z_mult. change (pow2 (-1)) with (1 # 2)%Q.
      change (inject_Z 2) with 2%Q. change (inject_Z 1) with 1%Q. ring. }
    assert (HYt : (B2Q y == inject_Z M - (1 # 2))%Q).
    { pose proof (nearest_le q (B2Q y) (2 * M - 1) (-1) Hn ltac:(lia) ltac:(lia)) as Hge.
      rewrite <- Ht in Hge. specialize (Hge ltac:(lra)). lra. }
    (* a first, coarse comparison: the quotient is above 3/4 of the half integer *)
    assert (Hq34 : ((3 # 4) * (inject_Z M - (1 # 2)) <= q)%Q).
    { destruct (Qlt_le_dec q ((3 # 4) * (inject_Z M - (1 # 2)))) as [Hlow|]; [exfalso|assumption].
      assert (Ht2 : ((inject_Z M - (1 # 2)) / 2 == inject_Z (2 * M - 1) * pow2 (-2))%Q).
      { rewrite inject_Z_sub, inject_Z_mult. change (pow2 (-2)) with (1 # 4)%Q.
        change (inject_Z 2) with 2%Q. change (inject_Z 1) with 1%Q. field. }
      pose proof (Hn (2 * M - 1) (-2) ltac:(lia) ltac:(lia)) as Hc. rewrite <- Ht2, HYt in Hc.
      assert (Hc' : (Qabs ((inject_Z M - (1 # 2)) / 2 - q) < inject_Z M - (1 # 2) - q)%Q).
      { apply Qabs_Qlt_condition.
        assert (E2 : ((inject_Z M - (1 # 2)) / 2 == (1 # 2) * (inject_Z M - (1 # 2)))%Q) by field.
        rewrite E2. split; lra. }
      rewrite (Qabs_pos (inject_Z M - (1 # 2) - q)) in Hc by lra. lra. }
    destruct rem as [s|s| |[|] m e]; cbn [finite_nonneg] in Hrem; try discriminate.
    { cbn [B2Q] in Hq60. lra. }
    rewrite B2Q_finite_false in Hq60, Hlt.
    destruct (remainder_exponent m e Hrem ltac:(lra) Hlt) as [He1 He2].
    pose proof (pow2_times_inv e ltac:(lia)) as HPE. pose proof (pow2_pos e) as HE.
    set (P := 2 ^ (- e)) in *. assert (HP : 0 < P) by (apply Z.pow_pos_nonneg; lia).
    pose proof (bounded_range _ _ Hrem) as [Hm53 _].
    assert (HPq : (0 < inject_Z P)%Q) by (change 0%Q with (inject_Z 0); rewrite <- Zlt_Qlt; lia).
    assert (Hmlt : Z.pos m < 30 * (2 * M - 1) * P).
    { apply Z_of_Q_lt. rewrite !inject_Z_mult, inject_Z_sub, inject_Z_mult.
      change (inject_Z 30) with 30%Q. change (inject_Z 2) with 2%Q. change (inject_Z 1) with 1%Q.
      assert (H1 : (inject_Z (Z.pos m) * pow2 e < 30 * (2 * inject_Z M - 1))%Q) by lra.
      assert (H2 : (inject_Z (Z.pos m) * pow2 e * inject_Z P
                    < 30 * (2 * inject_Z M - 1) * inject_Z P)%Q)
        by (apply Qmult_lt_r; assumption).
      setoid_replace (inject_Z (Z.pos m) * pow2 e * inject_Z P)%Q
        with (inject_Z (Z.pos m) * (pow2 e * inject_Z P))%Q in H2 by ring.
      rewrite HPE in H2. lra. }
    assert (Hmge : 45 * (2 * M - 1) * P <= 2 * Z.pos m).
    { apply Z_of_Q_le. rewrite !inject_Z_mult, inject_Z_sub, inject_Z_mult.
      change (inject_Z 45) with 45%Q. change (inject_Z 2) with 2%Q. change (inject_Z 1) with 1%Q.
      assert (H1 : (45 * (2 * inject_Z M - 1) <= 2 * (inject_Z (Z.pos m) * pow2 e))%Q) by lra.
      assert (H2 : (45 * (2 * inject_Z M - 1) * inject_Z P
                    <= 2 * (inject_Z (Z.pos m) * pow2 e) * inject_Z P)%Q)
        by (apply Qmult_le_r; assumption).
      setoid_replace (2 * (inject_Z (Z.pos m) * pow2 e) * inject_Z P)%Q
        with (2 * inject_Z (Z.pos m) * (pow2 e * inject_Z P))%Q in H2 by ring.
      rewrite HPE in H2. lra. }
    assert (HMP : 1 <= M * P) by nia.
    set (N := 16 * (2 * M - 1) * P - 1).
    assert (HN : Z.abs N < 2 ^ 53) by (unfold N; lia).
    assert (HNv : (inject_Z N * pow2 (e - 5) == inject_Z M - (1 # 2) - (1 # 32) * pow2 e)%Q).
    { unfold N. rewrite pow2_minus_5, inject_Z_sub, !inject_Z_mult, inject_Z_sub, inject_Z_mult.
      change (inject_Z 16) with 16%Q. change (inject_Z 2) with 2%Q. change (inject_Z 1) with 1%Q.
      setoid_replace (((16 * (2 * inject_Z M - 1) * inject_Z P - 1) * ((1 # 32) * pow2 e)))%Q
        with ((1 # 2) * (2 * inject_Z M - 1) * (pow2 e * inject_Z P) - (1 # 32) * pow2 e)%Q by ring.
      rewrite HPE. ring. }
    assert (Hgap : ((1 # 60) * pow2 e <= inject_Z M - (1 # 2) - q)%Q).
    { assert (H1 : Z.pos m + 1 <= 30 * (2 * M - 1) * P) by lia.
      rewrite Zle_Qle in H1.
      rewrite inject_Z_plus, !inject_Z_mult, inject_Z_sub, inject_Z_mult in H1.
      change (inject_Z 30) with 30%Q in H1. change (inject_Z 2) with 2%Q in H1.
      change (inject_Z 1) with 1%Q in H1.
      assert (H2 : ((inject_Z (Z.pos m) + 1) * pow2 e
                    <= 30 * (2 * inject_Z M - 1) * inject_Z P * pow2 e)%Q)
        by (apply Qmult_le_r; assumption).
      setoid_replace (30 * (2 * inject_Z M - 1) * inject_Z P * pow2 e)%Q
        with (30 * (2 * inject_Z M - 1) * (pow2 e * inject_Z P))%Q in H2 by ring.
      rewrite HPE in H2. lra. }
    specialize (Hn N (e - 5) HN ltac:(lia)). rewrite HNv, HYt in Hn.
    assert (Hc : (Qabs (inject_Z M - (1 # 2) - (1 # 32) * pow2 e - q) < inject_Z M - (1 # 2) - q)%Q).
    { apply Qabs_Qlt_condition. split; lra. }
    rewrite (Qabs_pos (inject_Z M - (1 # 2) - q)) in Hn by lra. lra.
Qed.

(** ** [hmin] on durations that are not below zero *)

Lemma has_char_app c a b : has_char c (a ++ b) = has_char c a || has_char c b.
Proof.
  induction a as [|x a IH]; [reflexivity|].
  cbn [append has_char]. now rewrite IH, orb_assoc.
Qed.

Lemma hmin_nonneg s :
  finite_nonneg s = true ->
  exists H M : Z,
    hmin s = Ok (str_of_Z H ++ NNBSP ++ "h" ++ NNBSP ++ str_of_Z M ++ NNBSP ++ "min") /\
    0 <= H /\ 0 <= M <= 60 /\
    ((B2Q s < inject_Z (2 ^ 53))%Q -> H = Qfloor (B2Q s / 3600)) /\
    (Qabs (inject_Z M - (B2Q s - 3600 * inject_Z (Qfloor (B2Q s / 3600))) / 60) <= 1 # 2)%Q.
Proof.
  intros Hs.
  destruct (floordiv_3600_nonneg s Hs) as [Hfdfin Hfdv].
  destruct (mod_3600_nonneg s Hs) as (Hremfin & Hremv & Hrem0 & Hrem1).
  set (fd := float_div_mod_floordiv s (float_of_int 3600)) in *.
  set (rem := float_div_mod_mod s (float_of_int 3600)) in *.
  destruct (minutes_nonneg rem Hremfin Hrem1) as (M & HM & HMnear & HMrange).
  exists (Qfloor (B2Q fd)), M.
  assert (Hfd : float_floordiv s (float_of_int 3600) = Ok fd) by reflexivity.
  assert (Hmod : float_mod s (float_of_int 3600) = Ok rem) by reflexivity.
  assert (Hdiv : float_truediv rem (float_of_int 60) = Ok (fdiv rem (float_of_int 60)))
    by reflexivity.
  split.
  - unfold hmin. rewrite Hfd. cbn [bind]. rewrite (py_int_nonneg fd Hfdfin). cbn [bind].
    rewrite Hmod. cbn [bind]. rewrite Hdiv. cbn [bind]. rewrite HM. reflexivity.
  - split; [apply Qfloor_nonneg, finite_nonneg_ge0, Hfdfin|]. split; [exact HMrange|].
    split.
    + intros H53. rewrite (Qfloor_comp _ _ (Hfdv H53)), Qfloor_Z. reflexivity.
    + pose proof (minutes_exact rem M Hremfin Hrem1 HM) as Hex.
      assert (E : ((B2Q s - 3600 * inject_Z (Qfloor (B2Q s / 3600))) / 60 == B2Q rem / 60)%Q)
        by (rewrite Hremv; reflexivity).
      rewrite E. exact Hex.
Qed.

(** ** Rounding to two decimals *)

Lemma round_ratio_spec s n d :
  0 < n -> 0 < d -> round_spec s (inject_Z n / inject_Z d) (round_ratio s n d).
Proof.
  intros Hn Hd. destruct n as [|p|p]; try lia. cbn [round_ratio].
  pose proof (SFdiv_core_binary_spec (Z.pos p) 0 d 0 (inject_Z (Z.pos p) / inject_Z d)%Q Hn Hd) as H.
  destruct (SFdiv_core_binary 53 1024 (Z.pos p) 0 d 0) as [[q e] l].
  destruct H as (Hq & Hin & He).
  - change (pow2 (0 - 0)) with 1%Q. ring.
  - now apply binary_round_aux_spec.
Qed.

Lemma finite_nonneg_le_max f :
  finite_nonneg f = true -> (B2Q f <= pow2 1024 - pow2 971)%Q.
Proof.
  intros H. destruct (finite_nonneg_flt f H) as (M & F & HM & HF & ->).
  assert (H1 : M <= 2 ^ 53 - 1) by lia.
  apply (inject_Z_pow2_le _ _ F) in H1. rewrite inject_Z_sub in H1.
  change (inject_Z 1) with 1%Q in H1.
  pose proof (pow2_split 53 F ltac:(lia)) as H3.
  assert (pow2 F <= pow2 971)%Q by (apply pow2_le; lia).
  pose proof (pow2_split 53 971 ltac:(lia)) as H4. change (53 + 971) with 1024 in H4.
  assert (H5 : (0 <= inject_Z (2 ^ 53) - 1)%Q) by (vm_compute; discriminate).
  pose proof (pow2_pos F). nra.
Qed.

Lemma decimal_units_spec m e :
  (Qabs (inject_Z (decimal_units m e 2) / 100 - inject_Z (Z.pos m) * pow2 e) <= 1 # 200)%Q /\
  0 <= decimal_units m e 2.
Proof.
  unfold decimal_units. change (Z.max 2 0) with 2. change (Z.max (- (2)) 0) with 0.
  change (10 ^ 0) with 1. rewrite Z.mul_1_r.
  set (num := Z.pos m * 2 ^ Z.max e 0 * 10 ^ 2). set (den := 2 ^ Z.max (- e) 0).
  assert (Hden : 0 < den) by (apply Z.pow_pos_nonneg; lia).
  assert (Hnum : 0 <= num).
  { unfold num. assert (0 < 2 ^ Z.max e 0) by (apply Z.pow_pos_nonneg; lia). nia. }
  pose proof (rne_div_spec num den Hden) as Hs.
  pose proof (rne_div_bounds num den 0 num Hden ltac:(nia)) as Hb.
  set (u := rne_div num den) in *. split; [|lia].
  assert (HdenQ : (0 < inject_Z den)%Q) by (change 0%Q with (inject_Z 0); rewrite <- Zlt_Qlt; lia).
  assert (Hval : (inject_Z (Z.pos m) * pow2 e * 100 == inject_Z num / inject_Z den)%Q).
  { unfold num, den. rewrite !inject_Z_mult. change (inject_Z (10 ^ 2)) with 100%Q.
    destruct (Z_le_gt_dec 0 e).
    - replace (Z.max e 0) with e by lia. replace (Z.max (- e) 0) with 0 by lia.
      rewrite pow2_Z by lia. change (inject_Z (2 ^ 0)) with 1%Q. field.
    - replace (Z.max e 0) with 0 by lia. replace (Z.max (- e) 0) with (- e) by lia.
      rewrite pow2_neg by lia. change (inject_Z (2 ^ 0)) with 1%Q.
      pose proof (inject_Z_pow2_pos (- e) ltac:(lia)). field. lra. }
  assert (Hlo : - den <= 2 * (u * den - num)) by lia.
  assert (Hhi : 2 * (u * den - num) <= den) by lia.
  rewrite Zle_Qle in Hlo, Hhi.
  rewrite inject_Z_mult, inject_Z_sub, inject_Z_mult in Hlo, Hhi.
  rewrite inject_Z_opp in Hlo. change (inject_Z 2) with 2%Q in *.
  set (y := (inject_Z (Z.pos m) * pow2 e)%Q) in *.
  assert (Hy : (y * 100 * inject_Z den == inject_Z num)%Q).
  { rewrite Hval. field. lra. }
  apply Qabs_Qle_condition.
  clearbody y u. split.
  - apply Qle_minus_iff. 
    assert (0 <= (inject_Z u / 100 - y + (1 # 200)) * (200 * inject_Z den))%Q.
    { setoid_replace ((inject_Z u / 100 - y + (1 # 200)) * (200 * inject_Z den))%Q
        with (2 * (inject_Z u * inject_Z den) - 2 * (y * 100 * inject_Z den) + inject_Z den)%Q
        by field. rewrite Hy. lra. }
    setoid_replace (inject_Z u / 100 - y + - - (1 # 200))%Q
      with (inject_Z u / 100 - y + (1 # 200))%Q by ring.
    apply (Qmult_le_r _ _ (200 * inject_Z den)); [lra|]. lra.
  - apply Qle_minus_iff.
    assert (0 <= ((1 # 200) - (inject_Z u / 100 - y)) * (200 * inject_Z den))%Q.
    { setoid_replace (((1 # 200) - (inject_Z u / 100 - y)) * (200 * inject_Z den))%Q
        with (inject_Z den - (2 * (inject_Z u * inject_Z den) - 2 * (y * 100 * inject_Z den)))%Q
        by field. rewrite Hy. lra. }
    setoid_replace ((1 # 200) + - (inject_Z u / 100 - y))%Q
      with ((1 # 200) - (inject_Z u / 100 - y))%Q by ring.
    apply (Qmult_le_r _ _ (200 * inject_Z den)); [lra|]. lra.
Qed.

Lemma py_round_2_nonneg y :
  finite_nonneg y = true ->
  exists r u,
    py_round_ndigits y 2 = Ok r /\ finite_nonneg r = true /\
    (Qabs (inject_Z u / 100 - B2Q y) <= 1 # 200)%Q /\
    nearest (inject_Z u / 100) (B2Q r) /\
    (Qabs (B2Q r - B2Q y) <= 1 # 100)%Q.
Proof.
  intros Hy. destruct y as [s|s| |[|] m e]; cbn [finite_nonneg] in Hy; try discriminate.
  - exists (S754_zero s), 0. cbn [py_round_ndigits B2Q].
    split; [reflexivity|]. split; [reflexivity|]. split; [discriminate|].
    split; [apply nearest_self; reflexivity|discriminate].
  - cbn [py_round_ndigits]. change (323 <? 2) with false. change (2 <? -308) with false.
    cbv iota. change (Z.max (- (2)) 0) with 0. change (Z.max 2 0) with 2.
    change (10 ^ 0) with 1. change (10 ^ 2) with 100. rewrite Z.mul_1_r.
    destruct (decimal_units_spec m e) as [Hu Hu0].
    set (u := decimal_units m e 2) in *.
    rewrite <- B2Q_finite_false in Hu. set (y := S754_finite false m e) in *.
    assert (Hyfin : finite_nonneg y = true) by exact Hy.
    destruct (finite_nonneg_flt y Hyfin) as (My & Fy & HMy & HFy & HyQ).
    pose proof (finite_nonneg_le_max y Hyfin) as Hymax.
    pose proof (finite_nonneg_ge0 y Hyfin) as Hy0.
    assert (Hrs : rounds_nonneg (inject_Z u / 100) (round_ratio false u 100)).
    { destruct (Z.eq_dec u 0) as [->|Hne].
      - left. split; [reflexivity|]. apply nearest_self. reflexivity.
      - apply round_spec_nonneg. apply (round_ratio_spec false u 100); lia. }
    assert (Hdist : forall v, nearest (inject_Z u / 100) v -> (Qabs (v - B2Q y) <= 1 # 100)%Q).
    { intros v Hn. specialize (Hn My Fy ltac:(lia) ltac:(lia)). rewrite <- HyQ in Hn.
      rewrite (Qabs_Qminus (B2Q y)) in Hn.
      setoid_replace (v - B2Q y)%Q with ((v - inject_Z u / 100) + (inject_Z u / 100 - B2Q y))%Q
        by ring.
      eapply Qle_trans; [apply Qabs_triangle|]. lra. }
    destruct Hrs as [[Hrfin Hrn]|[Hrinf (v & Hvn & Hv)]].
    + exists (round_ratio false u 100), u.
      split.
      { destruct (round_ratio false u 100); try reflexivity. discriminate. }
      split; [exact Hrfin|]. split; [exact Hu|]. split; [exact Hrn|]. apply Hdist, Hrn.
    + exfalso. pose proof (Hdist v Hvn) as Hd. apply Qabs_Qle_condition in Hd.
      assert (1 <= pow2 971)%Q by (change 1%Q with (pow2 0); apply pow2_le; lia). lra.
Qed.

(** ** [km] on distances that are not below zero *)
Lemma km_nonneg meters :
  finite_nonneg meters = true ->
  exists r u,
    km meters = Ok r /\ finite_nonneg r = true /\
    finite_nonneg (fdiv meters (float_of_int 1000)) = true /\
    (Qabs (inject_Z u / 100 - B2Q (fdiv meters (float_of_int 1000))) <= 1 # 200)%Q /\
    nearest (inject_Z u / 100) (B2Q r) /\
    (Qabs (B2Q r - B2Q (fdiv meters (float_of_int 1000))) <= 1 # 100)%Q.
Proof.
  intros Hm. rewrite f1000_eq. set (w := S754_finite false 8796093022208000 (-43)).
  assert (Hwv : (B2Q w == 1000)%Q) by apply B2Q_1000.
  assert (Hwpos : (0 < B2Q w)%Q) by (rewrite Hwv; reflexivity).
  pose proof (finite_nonneg_ge0 _ Hm) as H0.
  pose proof (SFdiv_nonneg_spec meters w Hm eq_refl Hwpos) as Hdiv. fold (fdiv meters w) in Hdiv.
  assert (Hx : (B2Q meters / B2Q w <= B2Q meters)%Q).
  { rewrite Hwv. apply Qle_shift_div_r; lra. }
  destruct (rounds_nonneg_le _ _ meters Hdiv Hm Hx) as [Hyfin _].
  destruct (py_round_2_nonneg _ Hyfin) as (r & u & Hr & Hrfin & Hu & Hn & Hd).
  exists r, u. split.
  - unfold km. rewrite f1000_eq. fold w.
    change (float_truediv meters w) with (Ok (fdiv meters w)). cbn [bind]. exact Hr.
  - repeat split; assumption.
Qed.

(** ** Products by a positive constant *)

Lemma binary_round_aux_sign s m e l :
  match binary_round_aux 53 1024 s m e l with
  | S754_zero s' | S754_finite s' _ _ | S754_infinity s' => s' = s
  | S754_nan => True
  end.
Proof.
  unfold binary_round_aux.
  destruct (shr_fexp 53 1024 m e l) as [mrs' e'].
  destruct (shr_fexp 53 1024 _ e' loc_Exact) as [mrs'' e''].
  destruct (shr_m mrs''); [reflexivity| |exact I].
  destruct (e'' <=? 1024 - 53); reflexivity.
Qed.

Lemma fmul_nonneg_sign x mc ec :
  finite_nonneg x = true ->
  match fmul x (S754_finite false mc ec) with
  | S754_zero _ => True
  | S754_finite s _ _ | S754_infinity s => s = false
  | S754_nan => True
  end.
Proof.
  intros Hx. destruct x as [s|s| |[|] m e]; cbn [finite_nonneg] in Hx; try discriminate.
  - exact I.
  - unfold fmul. cbn [SFmul xorb].
    pose proof (binary_round_aux_sign false (Z.pos (m * mc)) (e + ec) loc_Exact) as H.
    destruct (binary_round_aux 53 1024 false (Z.pos (m * mc)) (e + ec) loc_Exact); auto.
Qed.

(** [int] of a finite product is the floor of its exact value; of an
    infinite one it raises. *)
Lemma py_int_fmul x mc ec :
  finite_nonneg x = true ->
  let p := fmul x (S754_finite false mc ec) in
  (is_finite p = true -> py_int p = Ok (Qfloor (B2Q p))) /\
  (is_finite p = false -> p <> S754_nan ->
   py_int p = raise OverflowError "cannot convert float infinity to integer").
Proof.
  intros Hx p. pose proof (fmul_nonneg_sign x mc ec Hx) as Hs. fold p in Hs.
  destruct p as [s|s| |s m e]; cbn [is_finite]; split; intros H; try discriminate.
  - reflexivity.
  - intros _. reflexivity.
  - intros Hn. now contradiction Hn.
  - subst s. apply py_int_finite_false.
Qed.

Lemma calc_metrics_nonneg x :
  finite_nonneg x = true ->
  let p150 := fmul x (float_of_int 150) in
  let p8 := fmul x (float_of_int 8) in
  (is_finite p150 = true -> is_finite p8 = true ->
   calc_metrics x = Ok (Qfloor (B2Q p150), Qfloor (B2Q p8))) /\
  (p150 = S754_infinity false ->
   calc_metrics x = raise OverflowError "cannot convert float infinity to integer").
Proof.
  intros Hx p150 p8. unfold calc_metrics, CO2_PER_KM, COST_PER_KM. fold p150 p8.
  subst p150 p8. rewrite f150_eq, f8_eq.
  destruct (py_int_fmul x 5277655813324800 (-45) Hx) as [Ha1 Ha2].
  destruct (py_int_fmul x 4503599627370496 (-49) Hx) as [Hb1 _].
  cbv zeta in Ha1, Ha2, Hb1. split.
  - intros H1 H2. rewrite (Ha1 H1). cbn [bind]. rewrite (Hb1 H2). reflexivity.
  - intros Hinf. rewrite Hinf in *. reflexivity.
Qed.

(** The product by a normal positive constant is the rounded exact
    product. *)
Lemma fmul_const_spec x mc ec :
  finite_nonneg x = true -> 2 ^ 52 <= Z.pos mc ->
  rounds_nonneg (B2Q x * B2Q (S754_finite false mc ec)) (fmul x (S754_finite false mc ec)).
Proof.
  intros Hx Hmc. destruct x as [s|s| |[|] m e]; cbn [finite_nonneg] in Hx; try discriminate.
  - left. split; [reflexivity|]. apply nearest_self. cbn [fmul SFmul B2Q]. ring.
  - unfold fmul. cbn [SFmul xorb]. apply round_spec_nonneg.
    apply (round_spec_ext _ (inject_Z (Z.pos (m * mc)) * pow2 (e + ec))%Q).
    { rewrite !B2Q_finite_false, Pos2Z.inj_mul, inject_Z_mult, pow2_add. ring. }
    apply binary_round_aux_spec; [lia|reflexivity|].
    pose proof (bounded_range _ _ Hx) as [Hm He].
    assert (Hd : 53 <= Zdigits2 (Z.pos (m * mc))).
    { apply (Zdigits2_ge_pow 52); [lia|]. rewrite Pos2Z.inj_mul. nia. }
    rewrite fexp64_eq. lia.
Qed.

Lemma rounds_nonneg_finite_lt x r :
  rounds_nonneg x r -> is_finite r = true -> finite_nonneg r = true /\ (x < pow2 1024)%Q.
Proof.
  intros [[Hfin Hn]|[-> _]] Hr; [|discriminate]. split; [exact Hfin|].
  pose proof (finite_nonneg_lt_max r Hfin) as Hv.
  specialize (Hn (2 ^ 52) 972 ltac:(lia) ltac:(lia)).
  rewrite <- pow2_split in Hn by lia. change (52 + 972) with 1024 in Hn.
  destruct (Qlt_le_dec x (pow2 1024)) as [|Hge]; [assumption|exfalso].
  rewrite (Qabs_neg (B2Q r - x)), (Qabs_neg (pow2 1024 - x)) in Hn by lra. lra.
Qed.

Lemma fmul_8_finite x :
  finite_nonneg x = true ->
  is_finite (fmul x (float_of_int 150)) = true -> is_finite (fmul x (float_of_int 8)) = true.
Proof.
  intros Hx H150. rewrite f150_eq in H150. rewrite f8_eq.
  pose proof (fmul_const_spec x 5277655813324800 (-45) Hx ltac:(lia)) as R150.
  pose proof (fmul_const_spec x 4503599627370496 (-49) Hx ltac:(lia)) as R8.
  destruct (rounds_nonneg_finite_lt _ _ R150 H150) as [_ Hlt].
  assert (E150 : (B2Q (S754_finite false 5277655813324800 (-45)) == 150)%Q)
    by (vm_compute; reflexivity).
  assert (E8 : (B2Q (S754_finite false 4503599627370496 (-49)) == 8)%Q)
    by (vm_compute; reflexivity).
  rewrite E150 in Hlt.
  pose proof (finite_nonneg_ge0 x Hx) as H0.
  pose proof (pow2_split 4 1020 ltac:(lia)) as H1024. change (4 + 1020) with 1024 in H1024.
  change (inject_Z (2 ^ 4)) with 16%Q in H1024.
  pose proof (pow2_split 52 968 ltac:(lia)) as H1020. change (52 + 968) with 1020 in H1020.
  pose proof (pow2_pos 1020).
  destruct (rounds_nonneg_le_flt _ _ (2 ^ 52) 968 R8 ltac:(lia) ltac:(lia)) as [Hfin _].
  { rewrite E8. lra. }
  destruct (fmul x (S754_finite false 4503599627370496 (-49))) as [s|s| |[|] m e];
    try discriminate; reflexivity.
Qed.

Lemma finite_nonneg_is_finite f : finite_nonneg f = true -> is_finite f = true.
Proof. destruct f as [s|s| |[|] m e]; cbn; intros H; try discriminate; reflexivity. Qed.

(** The product by 150 is finite up to the largest double. *)
Lemma fmul_150_finite x :
  finite_nonneg x = true ->
  (B2Q x * 150 <= inject_Z (2 ^ 53 - 1) * pow2 971)%Q ->
  is_finite (fmul x (float_of_int 150)) = true.
Proof.
  intros Hx Hle. rewrite f150_eq.
  pose proof (fmul_const_spec x 5277655813324800 (-45) Hx ltac:(lia)) as R150.
  assert (E150 : (B2Q (S754_finite false 5277655813324800 (-45)) == 150)%Q)
    by (vm_compute; reflexivity).
  apply (rounds_nonneg_ext _ (B2Q x * 150)%Q) in R150; [|rewrite E150; reflexivity].
  destruct (rounds_nonneg_le_flt _ _ (2 ^ 53 - 1) 971 R150 ltac:(lia) ltac:(lia) Hle) as [Hfin _].
  apply finite_nonneg_is_finite, Hfin.
Qed.

(** ** Effects of the two service calls *)

Lemma io_bind_ok {A B} (c : io A) (k : A -> io B) s b s' :
  io_bind c k s = (Ok b, s') ->
  exists a s1, c s = (Ok a, s1) /\ k a s1 = (Ok b, s').
Proof.
  unfold io_bind. destruct (c s) as [[a|e] s1]; intros H; [|discriminate].
  exists a, s1. split; [reflexivity|exact H].
Qed.

Lemma io_bind_raise {A B} (c : io A) (k : A -> io B) s e s1 :
  c s = (Raise e, s1) -> io_bind c k s = (Raise e, s1).
Proof. unfold io_bind. intros ->. reflexivity. Qed.

Lemma io_bind_step {A B} (c : io A) (k : A -> io B) s a s1 :
  c s = (Ok a, s1) -> io_bind c k s = k a s1.
Proof. unfold io_bind. intros ->. reflexivity. Qed.

Lemma io_lift_ok {A} (r : result A) s a s' :
  io_lift r s = (Ok a, s') -> r = Ok a /\ s' = s.
Proof. unfold io_lift. intros H. inversion H. split; reflexivity. Qed.

(** Each call makes exactly one request and leaves the page alone. *)
Lemma geocode_session w place s :
  snd (geocode w place s) =
  mk_session (requests_log s ++ [mk_request (geocode_url place) HEADERS 15])%list (page s).
Proof.
  unfold geocode, io_bind, requests_get_json.
  destruct (w (requests_log s) _) as [js|e]; [|reflexivity].
  destruct (negb (truthy js)); reflexivity.
Qed.

Lemma fetch_routes_session w start end_ s :
  snd (fetch_routes w start end_ s) =
  mk_session (requests_log s ++ [mk_request (routes_url start end_) [] 20])%list (page s).
Proof.
  unfold fetch_routes, io_bind, requests_get_json.
  destruct (w (requests_log s) _) as [js|e]; reflexivity.
Qed.

Lemma string_app_nil_r s : s ++ "" = s.
Proof. induction s as [|c s IH]; cbn; [reflexivity|now rewrite IH]. Qed.

Lemma string_app_assoc a b c : (a ++ b) ++ c = a ++ b ++ c.
Proof. induction a as [|x a IH]; cbn; [reflexivity|now rewrite IH]. Qed.

Lemma contains_suffix pre s : contains s (pre ++ s).
Proof. exists pre, "". now rewrite string_app_nil_r. Qed.

(** The decimal text of an integer reads back as that integer. *)
Lemma Z_of_str_of_Z n : Z_of_str (str_of_Z n) = Some n.
Proof.
  unfold Z_of_str, str_of_Z. rewrite NilZero.isi.
  - cbn [option_map]. now rewrite DecimalZ.of_to.
  - destruct n as [|p|p]; cbn [Z.to_int]; try discriminate.
    intros H. inversion H as [H1]. now apply DecimalPos.Unsigned.to_uint_nonnil in H1.
  - destruct n as [|p|p]; cbn [Z.to_int]; try discriminate.
    intros H. inversion H as [H1]. now apply DecimalPos.Unsigned.to_uint_nonnil in H1.
Qed.

(* ------------------------------------------------------------------ *)
(** ** The claims about the two service calls *)

(** C3. For every routing response whose [routes] list is not empty,
    [fetch_routes] returns the route at index 0 as the best one and the
    route at index 1 as the alternative when there are at least two; with
    exactly one route it returns that route twice. *)
Theorem fetch_routes_best_and_alternative :
  forall (w : world) (start end_ : float * float) (s : session)
         (fields : list (string * json)) (r0 : json) (rest : list json),
    w (requests_log s) (mk_request (routes_url start end_) [] 20) = Ok (JObj fields) ->
    dict_get "routes" fields = Some (JArr (r0 :: rest)) ->
    fst (fetch_routes w start end_ s) =
      Ok (r0, match rest with r1 :: _ => r1 | [] => r0 end).
Proof.
  intros w start end_ s fields r0 rest Hw Hroutes.
  unfold fetch_routes, io_bind, requests_get_json. rewrite Hw.
  unfold io_lift. cbn [fst dict_method_get getitem_str]. rewrite Hroutes.
  cbn [bind truthy negb getitem_int nth_error py_len].
  destruct rest as [|r1 rest'].
  - reflexivity.
  - replace (1 <? Z.of_nat (Datatypes.length (r0 :: r1 :: rest'))) with true.
    + reflexivity.
    + symmetry. apply Z.ltb_lt. cbn [Datatypes.length]. lia.
Qed.

Lemma fetch_routes_best_and_alternative_witness :
  fst (fetch_routes scenario_world
         (float_of_int 1, float_of_int 2) (float_of_int 3, float_of_int 4)
         (mk_session
            [mk_request "a" [] 1; mk_request "b" [] 1] [])) =
  Ok (route_json 12000 1500, route_json 15000 1800).
Proof.
  apply (fetch_routes_best_and_alternative scenario_world _ _ _
           [("code", JStr "Ok");
            ("routes", JArr [route_json 12000 1500; route_json 15000 1800])]
           (route_json 12000 1500) [route_json 15000 1800]); reflexivity.
Defined.

(** C4. The geocoding request carries the client-identification header
    [HEADERS]; the routing request of [fetch_routes] is made without any
    [headers] argument. *)
Theorem routing_request_without_headers :
  (forall w place s,
     requests_log (snd (geocode w place s)) =
     (requests_log s ++ [mk_request (geocode_url place) HEADERS 15])%list) /\
  (forall w start end_ s,
     requests_log (snd (fetch_routes w start end_ s)) =
     (requests_log s ++ [mk_request (routes_url start end_) [] 20])%list) /\
  HEADERS = [("User-Agent", "streamlit-carbon-demo")].
Proof.
  split; [|split].
  - intros. now rewrite geocode_session.
  - intros. now rewrite fetch_routes_session.
  - reflexivity.
Qed.

(** C5. For every place, when the geocoding service returns an empty list,
    [geocode] raises [ValueError] with the message "Place not found: "
    followed by the place, which therefore occurs in the message, and no
    coordinate is returned. *)
Theorem geocode_empty_result_not_found :
  forall (w : world) (place : string) (s : session),
    w (requests_log s) (mk_request (geocode_url place) HEADERS 15) = Ok (JArr []) ->
    fst (geocode w place s) = Raise (mk_exn ValueError ("Place not found: " ++ place)) /\
    contains place ("Place not found: " ++ place).
Proof.
  intros w place s Hw. split; [|apply contains_suffix].
  unfold geocode, io_bind, requests_get_json. rewrite Hw. reflexivity.
Qed.

Lemma geocode_empty_result_not_found_witness :
  fst (geocode nowhere_world "Atlantis" empty_session) =
    Raise (mk_exn ValueError "Place not found: Atlantis") /\
  contains "Atlantis" "Place not found: Atlantis".
Proof.
  apply (geocode_empty_result_not_found nowhere_world "Atlantis" empty_session). reflexivity.
Defined.

(** C9. [geocode] returns the fields [lat] and [lon] of the first result
    in the order (latitude, longitude), and for every start (lat1, lon1)
    and end (lat2, lon2) [fetch_routes] requests the path
    /route/v1/driving/{lon1},{lat1};{lon2},{lat2}: longitude first, the two
    pairs separated by a semicolon. *)
Theorem routing_path_longitude_first :
  (forall w place s first rest lat_field lon_field lat lon,
     w (requests_log s) (mk_request (geocode_url place) HEADERS 15)
       = Ok (JArr (JObj first :: rest)) ->
     dict_get "lat" first = Some lat_field -> py_float lat_field = Ok lat ->
     dict_get "lon" first = Some lon_field -> py_float lon_field = Ok lon ->
     fst (geocode w place s) = Ok (lat, lon)) /\
  (forall w lat1 lon1 lat2 lon2 s,
     requests_log (snd (fetch_routes w (lat1, lon1) (lat2, lon2) s)) =
     (requests_log s ++
      [mk_request
         ("https://router.project-osrm.org" ++ "/route/v1/driving/"
          ++ float_repr lon1 ++ "," ++ float_repr lat1 ++ ";"
          ++ float_repr lon2 ++ "," ++ float_repr lat2
          ++ "?alternatives=true&overview=full&geometries=geojson")
         [] 20])%list).
Proof.
  split.
  - intros w place s first rest lat_field lon_field lat lon Hw Hlat Hplat Hlon Hplon.
    unfold geocode, io_bind, requests_get_json. rewrite Hw.
    cbn [truthy negb]. unfold io_lift. cbn [fst getitem_int nth_error bind getitem_str].
    rewrite Hlat. cbn [bind]. rewrite Hplat. cbn [bind]. rewrite Hlon. cbn [bind].
    rewrite Hplon. reflexivity.
  - intros. rewrite fetch_routes_session. cbn [requests_log]. do 2 f_equal.
    unfold routes_url, routes_coords. cbn [fst snd].
    rewrite !string_app_assoc. reflexivity.
Qed.

Lemma routing_path_longitude_first_witness :
  fst (geocode scenario_world "Uttam Nagar, Delhi" empty_session) =
    Ok (S754_finite false 8050184333924762 (-48), S754_finite false 5421911738889011 (-46)) /\
  requests_log (snd (fetch_routes scenario_world
      (S754_finite false 8050184333924762 (-48), S754_finite false 5421911738889011 (-46))
      (S754_finite false 8047369584157655 (-48), S754_finite false 5421208051447235 (-46))
      empty_session)) =
    [mk_request
       "https://router.project-osrm.org/route/v1/driving/77.05,28.6;77.04,28.59?alternatives=true&overview=full&geometries=geojson"
       [] 20].
Proof.
  split.
  - apply (proj1 routing_path_longitude_first scenario_world "Uttam Nagar, Delhi" empty_session
             [("lat", JStr "28.6"); ("lon", JStr "77.05")] [] (JStr "28.6") (JStr "77.05"));
      vm_compute; reflexivity.
  - rewrite (proj2 routing_path_longitude_first). vm_compute. reflexivity.
Defined.

(* ------------------------------------------------------------------ *)
(** ** The claims about the page *)

Lemma geocode_state w place s r s1 :
  geocode w place s = (r, s1) ->
  s1 = mk_session (requests_log s ++ [mk_request (geocode_url place) HEADERS 15])%list (page s).
Proof. intros H. rewrite <- (geocode_session w place s), H. reflexivity. Qed.

Lemma fetch_routes_state w start end_ s r s1 :
  fetch_routes w start end_ s = (r, s1) ->
  s1 = mk_session (requests_log s ++ [mk_request (routes_url start end_) [] 20])%list (page s).
Proof. intros H. rewrite <- (fetch_routes_session w start end_ s), H. reflexivity. Qed.

(** C8. For every run, when the geocoding of the origin, the geocoding of
    the destination or the routing call raises, the rest of the pipeline
    is skipped: the page gains nothing but an error element with the text
    of the exception, and no request is made after the one that failed. *)
Theorem failure_aborts_and_shows_error :
  forall (w : world) (f : folium) (origin destination : string) (s : session),
    (forall e s1,
       geocode w origin s = (Raise e, s1) ->
       on_go w f origin destination s =
       (Ok tt,
        mk_session
          (requests_log s ++ [mk_request (geocode_url origin) HEADERS 15])%list
          (page s ++ [St_error (exn_str e)])%list)) /\
    (forall start s1 e s2,
       geocode w origin s = (Ok start, s1) ->
       geocode w destination s1 = (Raise e, s2) ->
       on_go w f origin destination s =
       (Ok tt,
        mk_session
          ((requests_log s ++ [mk_request (geocode_url origin) HEADERS 15])
             ++ [mk_request (geocode_url destination) HEADERS 15])%list
          (page s ++ [St_error (exn_str e)])%list)) /\
    (forall start s1 end_ s2 e s3,
       geocode w origin s = (Ok start, s1) ->
       geocode w destination s1 = (Ok end_, s2) ->
       fetch_routes w start end_ s2 = (Raise e, s3) ->
       on_go w f origin destination s =
       (Ok tt,
        mk_session
          (((requests_log s ++ [mk_request (geocode_url origin) HEADERS 15])
              ++ [mk_request (geocode_url destination) HEADERS 15])
             ++ [mk_request (routes_url start end_) [] 20])%list
          (page s ++ [St_error (exn_str e)])%list)).
Proof.
  intros w f origin destination s. unfold on_go, try_except_error, pipeline.
  split; [|split].
  - intros e s1 H1. rewrite (io_bind_raise _ _ _ _ _ H1).
    rewrite (geocode_state _ _ _ _ _ H1). reflexivity.
  - intros start s1 e s2 H1 H2. rewrite (io_bind_step _ _ _ _ _ H1).
    rewrite (io_bind_raise _ _ _ _ _ H2).
    rewrite (geocode_state _ _ _ _ _ H2), (geocode_state _ _ _ _ _ H1). reflexivity.
  - intros start s1 end_ s2 e s3 H1 H2 H3. rewrite (io_bind_step _ _ _ _ _ H1).
    rewrite (io_bind_step _ _ _ _ _ H2). rewrite (io_bind_raise _ _ _ _ _ H3).
    rewrite (fetch_routes_state _ _ _ _ _ _ H3), (geocode_state _ _ _ _ _ H2),
      (geocode_state _ _ _ _ _ H1). reflexivity.
Qed.

Lemma failure_aborts_and_shows_error_witness :
  page (snd (on_go nowhere_world folium_draws "Atlantis" "El Dorado" empty_session)) =
    [St_error "Place not found: Atlantis"] /\
  page (snd (on_go one_place_world folium_draws "Uttam Nagar, Delhi" "El Dorado" empty_session)) =
    [St_error "Place not found: El Dorado"] /\
  page (snd (on_go offline_router_world folium_draws "Uttam Nagar, Delhi" "Dwarka Sector 21, Delhi"
               empty_session)) =
    [St_error "HTTPSConnectionPool: Max retries exceeded"].
Proof.
  split; [|split].
  - rewrite (proj1 (failure_aborts_and_shows_error nowhere_world folium_draws "Atlantis" "El Dorado"
                      empty_session)
               (mk_exn ValueError "Place not found: Atlantis")
               (mk_session [mk_request (geocode_url "Atlantis") HEADERS 15] []));
      reflexivity.
  - rewrite (proj1 (proj2 (failure_aborts_and_shows_error one_place_world folium_draws
                             "Uttam Nagar, Delhi" "El Dorado" empty_session))
               (S754_finite false 8050184333924762 (-48),
                S754_finite false 5421911738889011 (-46))
               (mk_session [mk_request (geocode_url "Uttam Nagar, Delhi") HEADERS 15] [])
               (mk_exn ValueError "Place not found: El Dorado")
               (mk_session [mk_request (geocode_url "Uttam Nagar, Delhi") HEADERS 15;
                            mk_request (geocode_url "El Dorado") HEADERS 15] []));
      vm_compute; reflexivity.
  - rewrite (proj2 (proj2 (failure_aborts_and_shows_error offline_router_world folium_draws
                             "Uttam Nagar, Delhi" "Dwarka Sector 21, Delhi" empty_session))
               (S754_finite false 8050184333924762 (-48),
                S754_finite false 5421911738889011 (-46))
               (mk_session [mk_request (geocode_url "Uttam Nagar, Delhi") HEADERS 15] [])
               (S754_finite false 8047369584157655 (-48),
                S754_finite false 5421208051447235 (-46))
               (mk_session [mk_request (geocode_url "Uttam Nagar, Delhi") HEADERS 15;
                            mk_request (geocode_url "Dwarka Sector 21, Delhi") HEADERS 15] [])
               (mk_exn RequestException "HTTPSConnectionPool: Max retries exceeded")
               (mk_session
                  [mk_request (geocode_url "Uttam Nagar, Delhi") HEADERS 15;
                   mk_request (geocode_url "Dwarka Sector 21, Delhi") HEADERS 15;
                   mk_request
                     (routes_url
                        (S754_finite false 8050184333924762 (-48),
                         S754_finite false 5421911738889011 (-46))
                        (S754_finite false 8047369584157655 (-48),
                         S754_finite false 5421208051447235 (-46))) [] 20] []));
      vm_compute; reflexivity.
Defined.

Lemma emit_eq u s : emit u s = (Ok tt, mk_session (requests_log s) (page s ++ [u])%list).
Proof. reflexivity. Qed.

Ltac inv_bind H :=
  let a := fresh "a" in let s1 := fresh "s" in let H1 := fresh "H" in
  apply io_bind_ok in H; destruct H as (a & s1 & H1 & H).

Ltac inv_lift H :=
  let E := fresh "E" in
  apply io_lift_ok in H; destruct H as [E ->].

Lemma io_bind_lift {A B} (r : result A) (k : A -> io B) s :
  io_bind (io_lift r) k s = match r with Ok a => k a s | Raise e => (Raise e, s) end.
Proof. unfold io_bind, io_lift. destruct r; reflexivity. Qed.

Lemma io_bind_emit {B} u (k : unit -> io B) s :
  io_bind (emit u) k s = k tt (mk_session (requests_log s) (page s ++ [u])%list).
Proof. reflexivity. Qed.

Lemma io_bind_assoc {A B C} (c : io A) (k : A -> io B) (k' : B -> io C) s :
  io_bind (io_bind c k) k' s = io_bind c (fun a => io_bind (k a) k') s.
Proof. unfold io_bind. destruct (c s) as [[a|e] s1]; reflexivity. Qed.

Lemma old_route_column_ok best best_km best_co2 best_cost best_time s :
  route_hmin best = Ok best_time ->
  old_route_column best best_km best_co2 best_cost s =
  (Ok tt,
   mk_session (requests_log s)
     (page s ++
      [ St_metric 1 "Old route" (float_repr best_km ++ " km") None (Some best_time);
        St_metric 1 "CO₂" (str_of_Z best_co2 ++ " g") None None;
        St_metric 1 "Cost" ("₹" ++ str_of_Z best_cost) None None ])%list).
Proof.
  intros H. unfold old_route_column. rewrite io_bind_lift, H.
  unfold io_bind. rewrite !emit_eq. cbn [requests_log page].
  rewrite <- !List.app_assoc. reflexivity.
Qed.

Lemma optimized_column_ok alt best_km alt_km best_co2 best_cost alt_co2 alt_cost alt_time s :
  route_hmin alt = Ok alt_time ->
  optimized_column alt best_km alt_km best_co2 best_cost alt_co2 alt_cost s =
  (Ok tt,
   mk_session (requests_log s)
     (page s ++
      [ St_metric 2 "Optimized" (float_repr alt_km ++ " km")
          (Some (float_repr_signed (fsub best_km alt_km) ++ " km")%string) (Some alt_time);
        St_metric 2 "CO₂" (str_of_Z alt_co2 ++ " g")
          (Some (str_of_Z_signed (best_co2 - alt_co2) ++ " g")%string) None;
        St_metric 2 "Cost" ("₹" ++ str_of_Z alt_cost)
          (Some ("₹" ++ str_of_Z_signed (best_cost - alt_cost))%string) None ])%list).
Proof.
  intros H. unfold optimized_column. rewrite io_bind_lift, H.
  unfold io_bind. rewrite !emit_eq. cbn [requests_log page].
  rewrite <- !List.app_assoc. reflexivity.
Qed.

Lemma savings_column_ok best_co2 best_cost alt_co2 alt_cost s :
  savings_column best_co2 best_cost alt_co2 alt_cost s =
  (Ok tt,
   mk_session (requests_log s)
     (page s ++
      [ St_success 3 ("**CO₂ saved:** " ++ str_of_Z (best_co2 - alt_co2) ++ " g");
        St_success 3 ("**₹ saved:** " ++ str_of_Z (best_cost - alt_cost)) ])%list).
Proof.
  unfold savings_column, io_bind. rewrite !emit_eq. cbn [requests_log page].
  rewrite <- !List.app_assoc. reflexivity.
Qed.

Ltac known :=
  first [ eassumption | reflexivity
        | match goal with H : ?c = _ |- fst ?c = _ => rewrite H; reflexivity end ].

(** A call into the map library returns or raises. *)
Ltac library_call F :=
  match goal with
  | |- context [match ?g ?c with Ok _ => _ | Raise _ => _ end] =>
      match type of c with
      | folium_call => destruct (g c) as [[]|e] eqn:F
      end
  end.

(** The five ways a run of the pipeline can go: it stops at the first
    geocoding, at the second, at the routing call, at the metrics, the
    texts and the map made from the routes (before anything is shown), or
    it shows the map and the eleven elements of the comparison. *)
Lemma pipeline_outcome w f origin destination s :
  let g1 := mk_request (geocode_url origin) HEADERS 15 in
  let g2 := mk_request (geocode_url destination) HEADERS 15 in
  (exists e,
     fst (geocode w origin s) = Raise e /\
     pipeline w f origin destination s =
       (Raise e, mk_session (requests_log s ++ [g1])%list (page s))) \/
  (exists start s1 e,
     geocode w origin s = (Ok start, s1) /\
     fst (geocode w destination s1) = Raise e /\
     pipeline w f origin destination s =
       (Raise e, mk_session (requests_log s ++ [g1; g2])%list (page s))) \/
  (exists start s1 end_ s2 e,
     geocode w origin s = (Ok start, s1) /\
     geocode w destination s1 = (Ok end_, s2) /\
     fst (fetch_routes w start end_ s2) = Raise e /\
     pipeline w f origin destination s =
       (Raise e,
        mk_session (requests_log s ++ [g1; g2; mk_request (routes_url start end_) [] 20])%list
                   (page s))) \/
  (exists start s1 end_ s2 best alt s3 e,
     geocode w origin s = (Ok start, s1) /\
     geocode w destination s1 = (Ok end_, s2) /\
     fetch_routes w start end_ s2 = (Ok (best, alt), s3) /\
     pipeline w f origin destination s =
       (Raise e,
        mk_session (requests_log s ++ [g1; g2; mk_request (routes_url start end_) [] 20])%list
                   (page s))) \/
  (exists start s1 end_ s2 best alt s3
          best_km alt_km best_co2 best_cost alt_co2 alt_cost
          best_geometry alt_geometry best_time alt_time,
     geocode w origin s = (Ok start, s1) /\
     geocode w destination s1 = (Ok end_, s2) /\
     fetch_routes w start end_ s2 = (Ok (best, alt), s3) /\
     route_km best = Ok best_km /\ route_km alt = Ok alt_km /\
     calc_metrics best_km = Ok (best_co2, best_cost) /\
     calc_metrics alt_km = Ok (alt_co2, alt_cost) /\
     getitem_str best "geometry" = Ok best_geometry /\
     getitem_str alt "geometry" = Ok alt_geometry /\
     route_hmin best = Ok best_time /\ route_hmin alt = Ok alt_time /\
     pipeline w f origin destination s =
       (Ok tt,
        mk_session
          (requests_log s ++ [g1; g2; mk_request (routes_url start end_) [] 20])%list
          (page s ++
           [ St_folium
               (mk_map (midpoint (fst start) (fst end_), midpoint (snd start) (snd end_))
                  10 TILE_URL TILE_ATTR
                  [ GeoJson best_geometry "Old route" "red" 6 None
                      ("Old: " ++ float_repr best_km ++ " km, " ++ best_time);
                    GeoJson alt_geometry "Optimized route" "blue" 6 (Some "6 6")
                      ("Opt: " ++ float_repr alt_km ++ " km, " ++ alt_time);
                    Marker start "Start" "green" None None;
                    Marker end_ "End" "green" (Some "flag-checkered") (Some "fa");
                    LayerControl ])
               900 600;
             St_markdown "### 📊 Route metrics";
             St_columns [1; 1; 1];
             St_metric 1 "Old route" (float_repr best_km ++ " km") None (Some best_time);
             St_metric 1 "CO₂" (str_of_Z best_co2 ++ " g") None None;
             St_metric 1 "Cost" ("₹" ++ str_of_Z best_cost) None None;
             St_metric 2 "Optimized" (float_repr alt_km ++ " km")
               (Some (float_repr_signed (fsub best_km alt_km) ++ " km")%string) (Some alt_time);
             St_metric 2 "CO₂" (str_of_Z alt_co2 ++ " g")
               (Some (str_of_Z_signed (best_co2 - alt_co2) ++ " g")%string) None;
             St_metric 2 "Cost" ("₹" ++ str_of_Z alt_cost)
               (Some ("₹" ++ str_of_Z_signed (best_cost - alt_cost))%string) None;
             St_success 3 ("**CO₂ saved:** " ++ str_of_Z (best_co2 - alt_co2) ++ " g");
             St_success 3 ("**₹ saved:** " ++ str_of_Z (best_cost - alt_cost)) ])%list)).
Proof.
  intros g1 g2. unfold pipeline.
  destruct (geocode w origin s) as [[start|e] s1] eqn:H1.
  2:{ left. exists e. split; [known|].
      rewrite (io_bind_raise _ _ _ _ _ H1), (geocode_state _ _ _ _ _ H1). reflexivity. }
  right. rewrite (io_bind_step _ _ _ _ _ H1).
  pose proof (geocode_state _ _ _ _ _ H1) as Hs1.
  destruct (geocode w destination s1) as [[end_|e] s2] eqn:H2.
  2:{ left. exists start, s1, e. split; [known|]. split; [known|].
      rewrite (io_bind_raise _ _ _ _ _ H2), (geocode_state _ _ _ _ _ H2), Hs1.
      cbn [requests_log page]. rewrite <- List.app_assoc. reflexivity. }
  right. rewrite (io_bind_step _ _ _ _ _ H2).
  pose proof (geocode_state _ _ _ _ _ H2) as Hs2.
  destruct (fetch_routes w start end_ s2) as [[[best alt]|e] s3] eqn:H3.
  2:{ left. exists start, s1, end_, s2, e. do 3 (split; [known|]).
      rewrite (io_bind_raise _ _ _ _ _ H3), (fetch_routes_state _ _ _ _ _ _ H3), Hs2, Hs1.
      cbn [requests_log page]. rewrite <- !List.app_assoc. reflexivity. }
  right. rewrite (io_bind_step _ _ _ _ _ H3).
  pose proof (fetch_routes_state _ _ _ _ _ _ H3) as Hs3.
  assert (Hlog : s3 = mk_session
            (requests_log s ++ [g1; g2; mk_request (routes_url start end_) [] 20])%list (page s)).
  { rewrite Hs3, Hs2, Hs1. cbn [requests_log page]. rewrite <- !List.app_assoc. reflexivity. }
  rewrite ?io_bind_lift.
  destruct (route_km best) as [best_km|e] eqn:Hbk.
  2:{ left. exists start, s1, end_, s2, best, alt, s3, e. do 3 (split; [known|]).
      now rewrite Hlog. }
  rewrite ?io_bind_lift.
  destruct (route_km alt) as [alt_km|e] eqn:Hak.
  2:{ left. exists start, s1, end_, s2, best, alt, s3, e. do 3 (split; [known|]).
      now rewrite Hlog. }
  rewrite ?io_bind_lift.
  destruct (calc_metrics best_km) as [[best_co2 best_cost]|e] eqn:Hbm.
  2:{ left. exists start, s1, end_, s2, best, alt, s3, e. do 3 (split; [known|]).
      now rewrite Hlog. }
  rewrite ?io_bind_lift.
  destruct (calc_metrics alt_km) as [[alt_co2 alt_cost]|e] eqn:Ham.
  2:{ left. exists start, s1, end_, s2, best, alt, s3, e. do 3 (split; [known|]).
      now rewrite Hlog. }
  rewrite ?io_bind_lift. library_call F1.
  2:{ left. exists start, s1, end_, s2, best, alt, s3, e. do 3 (split; [known|]).
      now rewrite Hlog. }
  rewrite ?io_bind_lift.
  destruct (getitem_str best "geometry") as [best_geometry|e] eqn:Hbg.
  2:{ left. exists start, s1, end_, s2, best, alt, s3, e. do 3 (split; [known|]).
      now rewrite Hlog. }
  rewrite ?io_bind_lift.
  destruct (route_hmin best) as [best_time|e] eqn:Hbt.
  2:{ left. exists start, s1, end_, s2, best, alt, s3, e. do 3 (split; [known|]).
      now rewrite Hlog. }
  rewrite ?io_bind_lift. library_call F2.
  2:{ left. exists start, s1, end_, s2, best, alt, s3, e. do 3 (split; [known|]).
      now rewrite Hlog. }
  rewrite ?io_bind_lift.
  destruct (getitem_str alt "geometry") as [alt_geometry|e] eqn:Hag.
  2:{ left. exists start, s1, end_, s2, best, alt, s3, e. do 3 (split; [known|]).
      now rewrite Hlog. }
  rewrite ?io_bind_lift.
  destruct (route_hmin alt) as [alt_time|e] eqn:Hat.
  2:{ left. exists start, s1, end_, s2, best, alt, s3, e. do 3 (split; [known|]).
      now rewrite Hlog. }
  rewrite ?io_bind_lift. library_call F3.
  2:{ left. exists start, s1, end_, s2, best, alt, s3, e. do 3 (split; [known|]).
      now rewrite Hlog. }
  rewrite ?io_bind_lift. library_call F4.
  2:{ left. exists start, s1, end_, s2, best, alt, s3, e. do 3 (split; [known|]).
      now rewrite Hlog. }
  rewrite ?io_bind_lift. library_call F5.
  2:{ left. exists start, s1, end_, s2, best, alt, s3, e. do 3 (split; [known|]).
      now rewrite Hlog. }
  rewrite ?io_bind_lift. library_call F6.
  2:{ left. exists start, s1, end_, s2, best, alt, s3, e. do 3 (split; [known|]).
      now rewrite Hlog. }
  right.
  exists start, s1, end_, s2, best, alt, s3, best_km, alt_km, best_co2, best_cost,
    alt_co2, alt_cost, best_geometry, alt_geometry, best_time, alt_time.
  do 3 (split; [known|]). do 8 (split; [known|]).
  rewrite !io_bind_emit.
  rewrite (io_bind_step _ _ _ _ _ (old_route_column_ok _ _ _ _ _ _ Hbt)).
  rewrite (io_bind_step _ _ _ _ _ (optimized_column_ok _ _ _ _ _ _ _ _ _ Hat)).
  rewrite savings_column_ok. rewrite Hlog. cbn [requests_log page].
  rewrite <- !List.app_assoc. reflexivity.
Qed.

(** C7 (amended). On success the page ends with the savings, computed as
    old minus optimized from the CO2 and the cost that [calc_metrics]
    gives for the kilometres of the two routes that [fetch_routes]
    returned, the same numbers that the two columns show; the savings are
    shown as the decimal text of the difference whatever its sign (the
    text reads back as the difference).  In the scenario with routes of
    12000 m in 1500 s and 15000 m in 1800 s the page shows 12.0 km, 1800 g
    and 96 for the old route, 15.0 km, 2250 g and 120 for the other, and
    savings of -450 g and -24 (the banners read "**CO₂ saved:** -450 g"
    and "**₹ saved:** -24"); the durations read 0 h 25 min and 0 h 30 min
    with U+202F, not the ASCII space, as the separator. *)
Theorem savings_old_minus_optimized :
  (forall (w : world) (f : folium) (origin destination : string) (s s1 s2 s' : session)
          (start end_ : float * float),
     geocode w origin s = (Ok start, s1) ->
     geocode w destination s1 = (Ok end_, s2) ->
     pipeline w f origin destination s = (Ok tt, s') ->
     exists best alt s3 best_km alt_km best_co2 best_cost alt_co2 alt_cost m best_time alt_time,
       fetch_routes w start end_ s2 = (Ok (best, alt), s3) /\
       route_km best = Ok best_km /\ route_km alt = Ok alt_km /\
       calc_metrics best_km = Ok (best_co2, best_cost) /\
       calc_metrics alt_km = Ok (alt_co2, alt_cost) /\
       route_hmin best = Ok best_time /\ route_hmin alt = Ok alt_time /\
       page s' =
         (page s ++
          [ St_folium m 900 600;
            St_markdown "### 📊 Route metrics";
            St_columns [1; 1; 1];
            St_metric 1 "Old route" (float_repr best_km ++ " km") None (Some best_time);
            St_metric 1 "CO₂" (str_of_Z best_co2 ++ " g") None None;
            St_metric 1 "Cost" ("₹" ++ str_of_Z best_cost) None None;
            St_metric 2 "Optimized" (float_repr alt_km ++ " km")
              (Some (float_repr_signed (fsub best_km alt_km) ++ " km")%string)
              (Some alt_time);
            St_metric 2 "CO₂" (str_of_Z alt_co2 ++ " g")
              (Some (str_of_Z_signed (best_co2 - alt_co2) ++ " g")%string) None;
            St_metric 2 "Cost" ("₹" ++ str_of_Z alt_cost)
              (Some ("₹" ++ str_of_Z_signed (best_cost - alt_cost))%string) None;
            St_success 3 ("**CO₂ saved:** " ++ str_of_Z (best_co2 - alt_co2) ++ " g");
            St_success 3 ("**₹ saved:** " ++ str_of_Z (best_cost - alt_cost)) ])%list /\
       Z_of_str (str_of_Z (best_co2 - alt_co2)) = Some (best_co2 - alt_co2) /\
       Z_of_str (str_of_Z (best_cost - alt_cost)) = Some (best_cost - alt_cost)) /\
  on_go scenario_world folium_draws "Uttam Nagar, Delhi" "Dwarka Sector 21, Delhi"
    empty_session =
    (Ok tt,
     mk_session
       [mk_request (geocode_url "Uttam Nagar, Delhi") HEADERS 15;
        mk_request (geocode_url "Dwarka Sector 21, Delhi") HEADERS 15;
        mk_request
          "https://router.project-osrm.org/route/v1/driving/77.05,28.6;77.04,28.59?alternatives=true&overview=full&geometries=geojson"
          [] 20]
       scenario_display).
Proof.
  split; [|vm_compute; reflexivity].
  intros w f origin destination s s1 s2 s' start end_ H1 H2 H.
  destruct (pipeline_outcome w f origin destination s)
    as [(e & _ & H') | [(start' & s1' & e & _ & _ & H')
       | [(start' & s1' & end' & s2' & e & _ & _ & _ & H')
       | [(start' & s1' & end' & s2' & best & alt & s3 & e & _ & _ & _ & H')
       | (start' & s1' & end' & s2' & best & alt & s3 & best_km & alt_km & best_co2 & best_cost
          & alt_co2 & alt_cost & best_geometry & alt_geometry & best_time & alt_time
          & G1 & G2 & G3 & Hbk & Hak & Hbm & Ham & _ & _ & Hbt & Hat & H')]]]];
    rewrite H' in H; try discriminate.
  rewrite H1 in G1. inversion G1; subst start' s1'.
  rewrite H2 in G2. inversion G2; subst end' s2'.
  inversion H; subst s'. cbn [page].
  exists best, alt, s3, best_km, alt_km, best_co2, best_cost, alt_co2, alt_cost.
  eexists. exists best_time, alt_time.
  do 7 (split; [assumption|]).
  split; [reflexivity|]. split; apply Z_of_str_of_Z.
Qed.

Lemma savings_old_minus_optimized_witness :
  exists best alt s3 best_km alt_km best_co2 best_cost alt_co2 alt_cost m best_time alt_time,
       fetch_routes scenario_world
         (S754_finite false 8050184333924762 (-48), S754_finite false 5421911738889011 (-46))
         (S754_finite false 8047369584157655 (-48), S754_finite false 5421208051447235 (-46))
         (mk_session [mk_request (geocode_url "Uttam Nagar, Delhi") HEADERS 15;
                      mk_request (geocode_url "Dwarka Sector 21, Delhi") HEADERS 15] [])
       = (Ok (best, alt), s3) /\
       route_km best = Ok best_km /\ route_km alt = Ok alt_km /\
       calc_metrics best_km = Ok (best_co2, best_cost) /\
       calc_metrics alt_km = Ok (alt_co2, alt_cost) /\
       route_hmin best = Ok best_time /\ route_hmin alt = Ok alt_time /\
       scenario_display =
         ([] ++
          [ St_folium m 900 600;
            St_markdown "### 📊 Route metrics";
            St_columns [1; 1; 1];
            St_metric 1 "Old route" (float_repr best_km ++ " km") None (Some best_time);
            St_metric 1 "CO₂" (str_of_Z best_co2 ++ " g") None None;
            St_metric 1 "Cost" ("₹" ++ str_of_Z best_cost) None None;
            St_metric 2 "Optimized" (float_repr alt_km ++ " km")
              (Some (float_repr_signed (fsub best_km alt_km) ++ " km")%string)
              (Some alt_time);
            St_metric 2 "CO₂" (str_of_Z alt_co2 ++ " g")
              (Some (str_of_Z_signed (best_co2 - alt_co2) ++ " g")%string) None;
            St_metric 2 "Cost" ("₹" ++ str_of_Z alt_cost)
              (Some ("₹" ++ str_of_Z_signed (best_cost - alt_cost))%string) None;
            St_success 3 ("**CO₂ saved:** " ++ str_of_Z (best_co2 - alt_co2) ++ " g");
            St_success 3 ("**₹ saved:** " ++ str_of_Z (best_cost - alt_cost)) ])%list /\
       Z_of_str (str_of_Z (best_co2 - alt_co2)) = Some (best_co2 - alt_co2) /\
       Z_of_str (str_of_Z (best_cost - alt_cost)) = Some (best_cost - alt_cost).
Proof.
  apply (proj1 savings_old_minus_optimized scenario_world folium_draws
           "Uttam Nagar, Delhi" "Dwarka Sector 21, Delhi" empty_session
           (mk_session [mk_request (geocode_url "Uttam Nagar, Delhi") HEADERS 15] [])
           (mk_session [mk_request (geocode_url "Uttam Nagar, Delhi") HEADERS 15;
                        mk_request (geocode_url "Dwarka Sector 21, Delhi") HEADERS 15] [])
           (mk_session
              [mk_request (geocode_url "Uttam Nagar, Delhi") HEADERS 15;
               mk_request (geocode_url "Dwarka Sector 21, Delhi") HEADERS 15;
               mk_request
                 (routes_url
                    (S754_finite false 8050184333924762 (-48),
                     S754_finite false 5421911738889011 (-46))
                    (S754_finite false 8047369584157655 (-48),
                     S754_finite false 5421208051447235 (-46))) [] 20]
              scenario_display)
           (S754_finite false 8050184333924762 (-48), S754_finite false 5421911738889011 (-46))
           (S754_finite false 8047369584157655 (-48), S754_finite false 5421208051447235 (-46)));
    vm_compute; reflexivity.
Defined.

(** C7 as stated fails on the texts of the durations: in its scenario the
    page shows them with U+202F between the parts, and the texts
    "0 h 25 min" and "0 h 30 min" with ASCII spaces are the help of no
    metric of the page. *)
Lemma savings_scenario_counterexample :
  route_hmin (route_json 12000 1500)
    = Ok ("0" ++ NNBSP ++ "h" ++ NNBSP ++ "25" ++ NNBSP ++ "min") /\
  route_hmin (route_json 15000 1800)
    = Ok ("0" ++ NNBSP ++ "h" ++ NNBSP ++ "30" ++ NNBSP ++ "min") /\
  route_hmin (route_json 12000 1500) <> Ok "0 h 25 min" /\
  route_hmin (route_json 15000 1800) <> Ok "0 h 30 min" /\
  (forall col label value delta time,
     In (St_metric col label value delta (Some time))
        (page (snd (on_go scenario_world folium_draws
                      "Uttam Nagar, Delhi" "Dwarka Sector 21, Delhi" empty_session))) ->
     time <> "0 h 25 min" /\ time <> "0 h 30 min") /\
  ~ In (St_metric 1 "Old route" "12.0 km" None (Some "0 h 25 min"))
       (page (snd (on_go scenario_world folium_draws
                     "Uttam Nagar, Delhi" "Dwarka Sector 21, Delhi" empty_session))) /\
  ~ In (St_metric 2 "Optimized" "15.0 km" (Some "-3.0 km") (Some "0 h 30 min"))
       (page (snd (on_go scenario_world folium_draws
                     "Uttam Nagar, Delhi" "Dwarka Sector 21, Delhi" empty_session))).
Proof.
  assert (E : page (snd (on_go scenario_world folium_draws
                           "Uttam Nagar, Delhi" "Dwarka Sector 21, Delhi" empty_session))
              = scenario_display) by (vm_compute; reflexivity).
  rewrite E.
  split; [vm_compute; reflexivity|]. split; [vm_compute; reflexivity|].
  split; [vm_compute; discriminate|]. split; [vm_compute; discriminate|].
  split; [|split].
  - intros col label value delta time Hin. unfold scenario_display in Hin. cbn [In] in Hin.
    repeat (destruct Hin as [Hin|Hin]; [try discriminate Hin|]); try contradiction;
      injection Hin as _ _ _ _ Ht; subst time; split; vm_compute; discriminate.
  - intros Hin. unfold scenario_display in Hin. cbn [In] in Hin.
    repeat (destruct Hin as [Hin|Hin]; [try discriminate Hin|]); try contradiction;
      vm_compute in Hin; discriminate Hin.
  - intros Hin. unfold scenario_display in Hin. cbn [In] in Hin.
    repeat (destruct Hin as [Hin|Hin]; [try discriminate Hin|]); try contradiction;
      vm_compute in Hin; discriminate Hin.
Qed.

(* ------------------------------------------------------------------ *)
(** ** The claims about the metrics *)

(** C1 (amended). For every finite distance that is not below zero and
    whose binary64 product with 150 is finite, [calc_metrics] returns the
    floors of the binary64 products with 150 and with 8; the product is
    finite whenever the exact product does not exceed the largest double.
    When the product with 150 is infinite, [int] raises [OverflowError]
    and no pair is returned.  [calc_metrics(10.0)] is (1500, 80) and
    [calc_metrics(0)] is (0, 0). *)
Theorem calc_metrics_floor_of_products :
  (forall distance_km : float,
     finite_nonneg distance_km = true ->
     is_finite (fmul distance_km (float_of_int 150)) = true ->
     calc_metrics distance_km =
       Ok (Qfloor (B2Q (fmul distance_km (float_of_int 150))),
           Qfloor (B2Q (fmul distance_km (float_of_int 8))))) /\
  (forall distance_km : float,
     finite_nonneg distance_km = true ->
     (B2Q distance_km * 150 <= inject_Z (2 ^ 53 - 1) * pow2 971)%Q ->
     is_finite (fmul distance_km (float_of_int 150)) = true) /\
  (forall distance_km : float,
     finite_nonneg distance_km = true ->
     fmul distance_km (float_of_int 150) = S754_infinity false ->
     calc_metrics distance_km =
       Raise (mk_exn OverflowError "cannot convert float infinity to integer")) /\
  calc_metrics (float_of_int 10) = Ok (1500, 80) /\
  calc_metrics (S754_zero false) = Ok (0, 0).
Proof.
  split; [|split; [|split; [|split; reflexivity]]].
  - intros x Hx H150. pose proof (fmul_8_finite x Hx H150) as H8.
    exact (proj1 (calc_metrics_nonneg x Hx) H150 H8).
  - exact fmul_150_finite.
  - intros x Hx Hinf. exact (proj2 (calc_metrics_nonneg x Hx) Hinf).
Qed.

Lemma calc_metrics_floor_of_products_witness :
  calc_metrics (float_of_int 12) = Ok (1800, 96) /\
  calc_metrics (float_of_int (10 ^ 308)) =
    Raise (mk_exn OverflowError "cannot convert float infinity to integer").
Proof.
  split.
  - rewrite (proj1 calc_metrics_floor_of_products (float_of_int 12)); reflexivity.
  - apply (proj1 (proj2 (proj2 calc_metrics_floor_of_products)) (float_of_int (10 ^ 308)));
      reflexivity.
Defined.

(** C1 as stated fails: 1e308 is finite and not below zero, yet
    [calc_metrics] returns no pair for it. *)
Lemma calc_metrics_overflow_counterexample :
  float_of_string "1e308" = Ok (float_of_int (10 ^ 308)) /\
  finite_nonneg (float_of_int (10 ^ 308)) = true /\
  calc_metrics (float_of_int (10 ^ 308)) =
    Raise (mk_exn OverflowError "cannot convert float infinity to integer") /\
  ~ (forall distance_km : float,
       finite_nonneg distance_km = true ->
       exists co2 cost : Z, calc_metrics distance_km = Ok (co2, cost)).
Proof.
  split; [vm_compute; reflexivity|]. split; [reflexivity|]. split; [reflexivity|].
  intros H. destruct (H (float_of_int (10 ^ 308)) eq_refl) as (co2 & cost & Hc).
  vm_compute in Hc. discriminate Hc.
Qed.

(** C2 (amended). For every finite duration that is not below zero, [hmin]
    returns the text H, h, M, min with one U+202F NARROW NO-BREAK SPACE
    (not an ASCII space) before h, after h and before min, where M is an
    integer nearest to the exact (seconds mod 3600)/60, lies between 0 and
    60 and is never carried into H, and where H, the integer part of the
    float floor quotient by 3600, is not below zero and is the floor of
    the exact seconds/3600 whenever the seconds are below 2^53.  With
    these separators [hmin(0)] reads 0 h 0 min, [hmin(3600)] reads
    1 h 0 min, [hmin(90)] reads 0 h 2 min and [hmin(3599)] reads
    0 h 60 min. *)
Theorem hmin_hours_and_minutes :
  (forall seconds : float,
     finite_nonneg seconds = true ->
     exists H M : Z,
       hmin seconds = Ok (str_of_Z H ++ NNBSP ++ "h" ++ NNBSP ++ str_of_Z M ++ NNBSP ++ "min") /\
       0 <= H /\ 0 <= M <= 60 /\
       ((B2Q seconds < inject_Z (2 ^ 53))%Q -> H = Qfloor (B2Q seconds / 3600)) /\
       (Qabs (inject_Z M
              - (B2Q seconds - 3600 * inject_Z (Qfloor (B2Q seconds / 3600))) / 60)
        <= 1 # 2)%Q) /\
  hmin (S754_zero false) = Ok ("0" ++ NNBSP ++ "h" ++ NNBSP ++ "0" ++ NNBSP ++ "min") /\
  hmin (float_of_int 3600) = Ok ("1" ++ NNBSP ++ "h" ++ NNBSP ++ "0" ++ NNBSP ++ "min") /\
  hmin (float_of_int 90) = Ok ("0" ++ NNBSP ++ "h" ++ NNBSP ++ "2" ++ NNBSP ++ "min") /\
  hmin (float_of_int 3599) = Ok ("0" ++ NNBSP ++ "h" ++ NNBSP ++ "60" ++ NNBSP ++ "min").
Proof.
  split; [|repeat split; reflexivity].
  intros s Hs. destruct (hmin_nonneg s Hs) as (H & M & Hh & HH & HM & Hex & Hn).
  exists H, M. repeat split; try assumption; lia.
Qed.

Lemma hmin_hours_and_minutes_witness :
  exists H M : Z,
    hmin (float_of_int 1500) = Ok (str_of_Z H ++ NNBSP ++ "h" ++ NNBSP ++ str_of_Z M ++ NNBSP ++ "min") /\
    0 <= H /\ 0 <= M <= 60 /\
    ((B2Q (float_of_int 1500) < inject_Z (2 ^ 53))%Q ->
     H = Qfloor (B2Q (float_of_int 1500) / 3600)) /\
    (Qabs (inject_Z M
           - (B2Q (float_of_int 1500)
              - 3600 * inject_Z (Qfloor (B2Q (float_of_int 1500) / 3600))) / 60)
     <= 1 # 2)%Q.
Proof.
  apply (proj1 hmin_hours_and_minutes (float_of_int 1500)). reflexivity.
Defined.

(** C2 as stated fails twice.  The texts are not the ones it gives: the
    separators are U+202F and not ASCII spaces, so that [hmin(0)] is not
    "0 h 0 min", and no text that [hmin] returns for a duration that is
    not below zero holds an ASCII space at all.  And the hours are not
    always the floor: for 3.25e19 seconds the hours shown are
    9027777777777776, whereas the floor of the exact quotient by 3600 is
    9027777777777777 and the floor of the binary64 quotient is
    9027777777777778. *)
Lemma hmin_hours_counterexample :
  hmin (S754_zero false) <> Ok "0 h 0 min" /\
  hmin (float_of_int 3600) <> Ok "1 h 0 min" /\
  hmin (float_of_int 90) <> Ok "0 h 2 min" /\
  ~ (forall seconds : float,
       finite_nonneg seconds = true ->
       exists H M : Z, hmin seconds = Ok (str_of_Z H ++ " h " ++ str_of_Z M ++ " min")) /\
  float_of_string "3.25e19" = Ok (float_of_int 32500000000000000000) /\
  finite_nonneg (float_of_int 32500000000000000000) = true /\
  hmin (float_of_int 32500000000000000000)
    = Ok ("9027777777777776" ++ NNBSP ++ "h" ++ NNBSP ++ "47" ++ NNBSP ++ "min") /\
  Qfloor (B2Q (float_of_int 32500000000000000000) / 3600) = 9027777777777777 /\
  Qfloor (B2Q (fdiv (float_of_int 32500000000000000000) (float_of_int 3600)))
    = 9027777777777778 /\
  ~ (forall seconds : float,
       finite_nonneg seconds = true ->
       exists M : Z,
         hmin seconds =
           Ok (str_of_Z (Qfloor (B2Q seconds / 3600))
               ++ NNBSP ++ "h" ++ NNBSP ++ str_of_Z M ++ NNBSP ++ "min")) /\
  ~ (forall seconds : float,
       finite_nonneg seconds = true ->
       exists M : Z,
         hmin seconds =
           Ok (str_of_Z (Qfloor (B2Q (fdiv seconds (float_of_int 3600))))
               ++ NNBSP ++ "h" ++ NNBSP ++ str_of_Z M ++ NNBSP ++ "min")).
Proof.
  split; [vm_compute; discriminate|]. split; [vm_compute; discriminate|].
  split; [vm_compute; discriminate|]. split.
  { intros H. destruct (H (S754_zero false) eq_refl) as (h & m & Hm).
    assert (E : hmin (S754_zero false)
                = Ok ("0" ++ NNBSP ++ "h" ++ NNBSP ++ "0" ++ NNBSP ++ "min"))
      by reflexivity.
    rewrite E in Hm. injection Hm as Hm.
    apply (f_equal (has_char " ")) in Hm.
    rewrite !has_char_app in Hm. cbn [has_char append Ascii.eqb Bool.eqb orb] in Hm.
    rewrite !orb_true_r in Hm. vm_compute in Hm. discriminate Hm. }
  split; [vm_compute; reflexivity|]. split; [reflexivity|].
  split; [vm_compute; reflexivity|]. split; [vm_compute; reflexivity|].
  split; [vm_compute; reflexivity|]. split.
  - intros H. destruct (H (float_of_int 32500000000000000000) eq_refl) as (M & HM).
    assert (E : hmin (float_of_int 32500000000000000000)
                = Ok ("9027777777777776" ++ NNBSP ++ "h" ++ NNBSP ++ "47" ++ NNBSP ++ "min"))
      by (vm_compute; reflexivity).
    rewrite E in HM.
    assert (Q : Qfloor (B2Q (float_of_int 32500000000000000000) / 3600) = 9027777777777777)
      by (vm_compute; reflexivity).
    rewrite Q in HM. change (str_of_Z 9027777777777777) with "9027777777777777" in HM.
    cbn [append] in HM. discriminate HM.
  - intros H. destruct (H (float_of_int 32500000000000000000) eq_refl) as (M & HM).
    assert (E : hmin (float_of_int 32500000000000000000)
                = Ok ("9027777777777776" ++ NNBSP ++ "h" ++ NNBSP ++ "47" ++ NNBSP ++ "min"))
      by (vm_compute; reflexivity).
    rewrite E in HM.
    assert (Q : Qfloor (B2Q (fdiv (float_of_int 32500000000000000000) (float_of_int 3600)))
                = 9027777777777778) by (vm_compute; reflexivity).
    rewrite Q in HM. change (str_of_Z 9027777777777778) with "9027777777777778" in HM.
    cbn [append] in HM. discriminate HM.
Qed.

(** C6. For every finite distance in meters that is not below zero, [km]
    returns the binary64 quotient meters/1000 rounded to two decimals: the
    double nearest to a multiple of 0.01 that is within 0.005 of the
    quotient.  The result is within 0.01 of the quotient and is not below
    zero. *)
Theorem km_rounds_to_two_decimals :
  forall meters : float,
    finite_nonneg meters = true ->
    exists (r : float) (hundredths : Z),
      float_truediv meters (float_of_int 1000) = Ok (fdiv meters (float_of_int 1000)) /\
      km meters = Ok r /\ finite_nonneg r = true /\
      (Qabs (inject_Z hundredths / 100 - B2Q (fdiv meters (float_of_int 1000))) <= 1 # 200)%Q /\
      nearest (inject_Z hundredths / 100) (B2Q r) /\
      (Qabs (B2Q r - B2Q (fdiv meters (float_of_int 1000))) <= 1 # 100)%Q /\
      (0 <= B2Q r)%Q.
Proof.
  intros meters Hm.
  destruct (km_nonneg meters Hm) as (r & u & Hk & Hfin & _ & Hu & Hn & Hd).
  exists r, u. split; [reflexivity|]. split; [exact Hk|]. split; [exact Hfin|].
  split; [exact Hu|]. split; [exact Hn|]. split; [exact Hd|].
  apply finite_nonneg_ge0, Hfin.
Qed.

Lemma km_rounds_to_two_decimals_witness :
  exists (r : float) (hundredths : Z),
    float_truediv (float_of_int 12000) (float_of_int 1000)
      = Ok (fdiv (float_of_int 12000) (float_of_int 1000)) /\
    km (float_of_int 12000) = Ok r /\ finite_nonneg r = true /\
    (Qabs (inject_Z hundredths / 100
           - B2Q (fdiv (float_of_int 12000) (float_of_int 1000))) <= 1 # 200)%Q /\
    nearest (inject_Z hundredths / 100) (B2Q r) /\
    (Qabs (B2Q r - B2Q (fdiv (float_of_int 12000) (float_of_int 1000))) <= 1 # 100)%Q /\
    (0 <= B2Q r)%Q.
Proof.
  apply (km_rounds_to_two_decimals (float_of_int 12000)). reflexivity.
Defined.

(** C10. For every finite duration that is not below zero, the string
    returned by [hmin] has an hour part H that is an integer not below
    zero and a minute part M that is an integer between 0 and 60, each
    followed by U+202F and its unit; the bound 60 is reached at 3599
    seconds. *)
Theorem hmin_components_in_range :
  (forall seconds : float,
     finite_nonneg seconds = true ->
     exists H M : Z,
       hmin seconds = Ok (str_of_Z H ++ NNBSP ++ "h" ++ NNBSP ++ str_of_Z M ++ NNBSP ++ "min") /\
       0 <= H /\ 0 <= M <= 60) /\
  hmin (float_of_int 3599)
    = Ok (str_of_Z 0 ++ NNBSP ++ "h" ++ NNBSP ++ str_of_Z 60 ++ NNBSP ++ "min").
Proof.
  split; [|reflexivity].
  intros s Hs. destruct (hmin_nonneg s Hs) as (H & M & Hh & HH & HM & _).
  exists H, M. repeat split; try assumption; lia.
Qed.

Lemma hmin_components_in_range_witness :
  exists H M : Z,
    hmin (float_of_int 3599) = Ok (str_of_Z H ++ NNBSP ++ "h" ++ NNBSP ++ str_of_Z M ++ NNBSP ++ "min") /\
    0 <= H /\ 0 <= M <= 60.
Proof.
  apply (proj1 hmin_components_in_range (float_of_int 3599)). reflexivity.
Defined.

(* ================================================================== *)
(** * Part III: further properties of the program *)
(* ================================================================== *)

(** ** The service calls on answers that are not the expected ones *)

(** X1. When the routing service answers with an object whose [routes]
    member is absent or falsy (null, an empty list, an empty string, zero,
    false), [fetch_routes] raises [ValueError] with the message
    "No routes found from OSRM", after its one request. *)
Theorem fetch_routes_no_routes_found :
  forall (w : world) (start end_ : float * float) (s : session)
         (fields : list (string * json)),
    w (requests_log s) (mk_request (routes_url start end_) [] 20) = Ok (JObj fields) ->
    (dict_get "routes" fields = None \/
     exists v, dict_get "routes" fields = Some v /\ truthy v = false) ->
    fetch_routes w start end_ s =
      (Raise (mk_exn ValueError "No routes found from OSRM"),
       mk_session (requests_log s ++ [mk_request (routes_url start end_) [] 20])%list
                  (page s)).
Proof.
  intros w start end_ s fields Hw Hr.
  unfold fetch_routes, io_bind, requests_get_json. rewrite Hw.
  unfold io_lift. cbn [dict_method_get].
  destruct Hr as [Hr | (v & Hr & Hv)]; rewrite Hr; cbn [bind truthy negb].
  - reflexivity.
  - rewrite Hv. reflexivity.
Qed.

Lemma fetch_routes_no_routes_found_witness :
  fetch_routes
    (fun _ _ => Ok (JObj [("code", JStr "NoRoute"); ("routes", JArr [])]))
    (float_of_int 1, float_of_int 2) (float_of_int 3, float_of_int 4) empty_session =
  (Raise (mk_exn ValueError "No routes found from OSRM"),
   mk_session
     [mk_request (routes_url (float_of_int 1, float_of_int 2) (float_of_int 3, float_of_int 4))
        [] 20] []).
Proof.
  apply (fetch_routes_no_routes_found
           (fun _ _ => Ok (JObj [("code", JStr "NoRoute"); ("routes", JArr [])]))
           (float_of_int 1, float_of_int 2) (float_of_int 3, float_of_int 4) empty_session
           [("code", JStr "NoRoute"); ("routes", JArr [])]).
  - reflexivity.
  - right. exists (JArr []). split; reflexivity.
Defined.

(** X2. When the first result of the geocoding service is an object
    without the member [lat], [geocode] raises [KeyError] and [str(e)] is
    the quoted name ['lat']; when [lat] is there and is read as a float
    but [lon] is missing, the error names ['lon'].  No default coordinate
    is made up. *)
Theorem geocode_missing_coordinate :
  (forall (w : world) (place : string) (s : session)
          (first : list (string * json)) (rest : list json),
     w (requests_log s) (mk_request (geocode_url place) HEADERS 15)
       = Ok (JArr (JObj first :: rest)) ->
     dict_get "lat" first = None ->
     fst (geocode w place s) = Raise (mk_exn KeyError "'lat'")) /\
  (forall (w : world) (place : string) (s : session)
          (first : list (string * json)) (rest : list json) lat_field lat,
     w (requests_log s) (mk_request (geocode_url place) HEADERS 15)
       = Ok (JArr (JObj first :: rest)) ->
     dict_get "lat" first = Some lat_field -> py_float lat_field = Ok lat ->
     dict_get "lon" first = None ->
     fst (geocode w place s) = Raise (mk_exn KeyError "'lon'")).
Proof.
  split.
  - intros w place s first rest Hw Hlat.
    unfold geocode, io_bind, requests_get_json. rewrite Hw.
    cbn [truthy negb]. unfold io_lift. cbn [fst getitem_int nth_error bind getitem_str].
    rewrite Hlat. reflexivity.
  - intros w place s first rest lat_field lat Hw Hlat Hf Hlon.
    unfold geocode, io_bind, requests_get_json. rewrite Hw.
    cbn [truthy negb]. unfold io_lift. cbn [fst getitem_int nth_error bind getitem_str].
    rewrite Hlat. cbn [bind]. rewrite Hf. cbn [bind]. rewrite Hlon. reflexivity.
Qed.

Lemma geocode_missing_coordinate_witness :
  fst (geocode (fun _ _ => Ok (JArr [JObj [("lon", JStr "77.05")]])) "Delhi" empty_session)
    = Raise (mk_exn KeyError "'lat'") /\
  fst (geocode (fun _ _ => Ok (JArr [JObj [("lat", JStr "28.6")]])) "Delhi" empty_session)
    = Raise (mk_exn KeyError "'lon'").
Proof.
  split.
  - apply (proj1 geocode_missing_coordinate
             (fun _ _ => Ok (JArr [JObj [("lon", JStr "77.05")]])) "Delhi" empty_session
             [("lon", JStr "77.05")] []); reflexivity.
  - apply (proj2 geocode_missing_coordinate
             (fun _ _ => Ok (JArr [JObj [("lat", JStr "28.6")]])) "Delhi" empty_session
             [("lat", JStr "28.6")] [] (JStr "28.6")
             (S754_finite false 8050184333924762 (-48))); vm_compute; reflexivity.
Defined.

(** X3. When the geocoding service answers with a JSON object that is not
    empty (an error report, say) instead of a list, [geocode] does not
    report "Place not found": indexing the object with 0 raises [KeyError],
    and the page shows just the text [0]. *)
Theorem geocode_object_answer_key_error :
  forall (w : world) (f : folium) (origin destination : string) (s : session)
         (field : string * json) (fields : list (string * json)),
    w (requests_log s) (mk_request (geocode_url origin) HEADERS 15)
      = Ok (JObj (field :: fields)) ->
    fst (geocode w origin s) = Raise (mk_exn KeyError "0") /\
    on_go w f origin destination s =
      (Ok tt,
       mk_session (requests_log s ++ [mk_request (geocode_url origin) HEADERS 15])%list
                  (page s ++ [St_error "0"])%list).
Proof.
  intros w f origin destination s field fields Hw.
  assert (Hg : geocode w origin s =
               (Raise (mk_exn KeyError "0"),
                mk_session (requests_log s ++ [mk_request (geocode_url origin) HEADERS 15])%list
                           (page s))).
  { unfold geocode, io_bind, requests_get_json. rewrite Hw. reflexivity. }
  split.
  - rewrite Hg. reflexivity.
  - unfold on_go, try_except_error, pipeline.
    rewrite (io_bind_raise _ _ _ _ _ Hg). reflexivity.
Qed.

Lemma geocode_object_answer_key_error_witness :
  fst (geocode (fun _ _ => Ok (JObj [("error", JStr "Unable to geocode")]))
         "Atlantis" empty_session) = Raise (mk_exn KeyError "0") /\
  on_go (fun _ _ => Ok (JObj [("error", JStr "Unable to geocode")])) folium_draws
    "Atlantis" "El Dorado" empty_session =
    (Ok tt,
     mk_session [mk_request (geocode_url "Atlantis") HEADERS 15] [St_error "0"]).
Proof.
  apply (geocode_object_answer_key_error
           (fun _ _ => Ok (JObj [("error", JStr "Unable to geocode")])) folium_draws
           "Atlantis" "El Dorado" empty_session
           ("error", JStr "Unable to geocode") []).
  reflexivity.
Defined.

(** ** The page as a whole *)

Lemma fetch_routes_single w start end_ s fields r0 :
  w (requests_log s) (mk_request (routes_url start end_) [] 20) = Ok (JObj fields) ->
  dict_get "routes" fields = Some (JArr [r0]) ->
  fst (fetch_routes w start end_ s) = Ok (r0, r0).
Proof.
  intros Hw Hr. unfold fetch_routes, io_bind, requests_get_json. rewrite Hw.
  unfold io_lift. cbn [fst dict_method_get getitem_str]. rewrite Hr. reflexivity.
Qed.

(** A distance that [calc_metrics] accepts is finite, so that its
    difference with itself is the zero [+0.0]. *)
Lemma calc_metrics_ok_fsub_self x r : calc_metrics x = Ok r -> fsub x x = S754_zero false.
Proof.
  destruct x as [sx|sx| |sx mx ex]; try discriminate.
  - intros _. destruct sx; reflexivity.
  - intros _. unfold fsub, SFsub. rewrite Z.sub_diag. reflexivity.
Qed.

(** X4. Whatever the services answer and whatever the map library
    accepts, pressing the button never lets an exception escape and never
    leaves a partial result: the page gains either one error element and
    nothing else, or the map followed by the heading, the three columns,
    the six metrics and the two savings banners. *)
Theorem on_go_error_or_full_comparison :
  forall (w : world) (f : folium) (origin destination : string) (s : session),
    exists s', on_go w f origin destination s = (Ok tt, s') /\
      ((exists msg, page s' = (page s ++ [St_error msg])%list) \/
       (exists m km1 time1 co2_1 cost1 km2 dkm time2 co2_2 dco2 cost2 dcost saved1 saved2,
          page s' =
            (page s ++
             [ St_folium m 900 600;
               St_markdown "### 📊 Route metrics";
               St_columns [1; 1; 1];
               St_metric 1 "Old route" km1 None (Some time1);
               St_metric 1 "CO₂" co2_1 None None;
               St_metric 1 "Cost" cost1 None None;
               St_metric 2 "Optimized" km2 (Some dkm) (Some time2);
               St_metric 2 "CO₂" co2_2 (Some dco2) None;
               St_metric 2 "Cost" cost2 (Some dcost) None;
               St_success 3 saved1;
               St_success 3 saved2 ])%list)).
Proof.
  intros w f origin destination s. unfold on_go, try_except_error.
  destruct (pipeline_outcome w f origin destination s)
    as [(e & _ & H) | [(start & s1 & e & _ & _ & H) | [(start & s1 & end_ & s2 & e & _ & _ & _ & H)
       | [(start & s1 & end_ & s2 & best & alt & s3 & e & _ & _ & _ & H)
       | (start & s1 & end_ & s2 & best & alt & s3 & best_km & alt_km & best_co2 & best_cost
          & alt_co2 & alt_cost & best_geometry & alt_geometry & best_time & alt_time
          & _ & _ & _ & _ & _ & _ & _ & _ & _ & _ & _ & H)]]]];
    rewrite H.
  1-4: eexists; split; [reflexivity|]; left; exists (exn_str e); reflexivity.
  eexists. split; [reflexivity|]. right. cbn [page].
  do 14 eexists. reflexivity.
Qed.

(** X5. On success the map is centred on the mean of the two geocoded
    coordinates at zoom 10 and holds, in this order, the geometry of the
    best route as the solid red layer "Old route", the geometry of the
    other route as the dashed blue layer "Optimized route", the start
    marker at the origin as geocoded (latitude first), the end marker at
    the destination, and the layer control. *)
Theorem map_shows_routes_and_endpoints :
  forall (w : world) (f : folium) (origin destination : string) (s s1 s2 s' : session)
         (start end_ : float * float),
    geocode w origin s = (Ok start, s1) ->
    geocode w destination s1 = (Ok end_, s2) ->
    pipeline w f origin destination s = (Ok tt, s') ->
    exists best alt s3 best_geometry alt_geometry old_tooltip new_tooltip rest,
      fetch_routes w start end_ s2 = (Ok (best, alt), s3) /\
      getitem_str best "geometry" = Ok best_geometry /\
      getitem_str alt "geometry" = Ok alt_geometry /\
      page s' =
        (page s ++
         St_folium
           (mk_map (midpoint (fst start) (fst end_), midpoint (snd start) (snd end_))
              10 TILE_URL TILE_ATTR
              [ GeoJson best_geometry "Old route" "red" 6 None old_tooltip;
                GeoJson alt_geometry "Optimized route" "blue" 6 (Some "6 6") new_tooltip;
                Marker start "Start" "green" None None;
                Marker end_ "End" "green" (Some "flag-checkered") (Some "fa");
                LayerControl ])
           900 600 :: rest)%list.
Proof.
  intros w f origin destination s s1 s2 s' start end_ H1 H2 H.
  destruct (pipeline_outcome w f origin destination s)
    as [(e & _ & H') | [(start' & s1' & e & _ & _ & H')
       | [(start' & s1' & end' & s2' & e & _ & _ & _ & H')
       | [(start' & s1' & end' & s2' & best & alt & s3 & e & _ & _ & _ & H')
       | (start' & s1' & end' & s2' & best & alt & s3 & best_km & alt_km & best_co2 & best_cost
          & alt_co2 & alt_cost & best_geometry & alt_geometry & best_time & alt_time
          & G1 & G2 & G3 & _ & _ & _ & _ & Hbg & Hag & _ & _ & H')]]]];
    rewrite H' in H; try discriminate.
  rewrite H1 in G1. inversion G1; subst start' s1'.
  rewrite H2 in G2. inversion G2; subst end' s2'.
  inversion H; subst s'. cbn [page].
  exists best, alt, s3, best_geometry, alt_geometry. do 3 eexists.
  split; [exact G3|]. split; [exact Hbg|]. split; [exact Hag|]. reflexivity.
Qed.

Lemma map_shows_routes_and_endpoints_witness :
  exists best alt s3 best_geometry alt_geometry old_tooltip new_tooltip rest,
    fetch_routes scenario_world
      (S754_finite false 8050184333924762 (-48), S754_finite false 5421911738889011 (-46))
      (S754_finite false 8047369584157655 (-48), S754_finite false 5421208051447235 (-46))
      (mk_session [mk_request (geocode_url "Uttam Nagar, Delhi") HEADERS 15;
                   mk_request (geocode_url "Dwarka Sector 21, Delhi") HEADERS 15] [])
      = (Ok (best, alt), s3) /\
    getitem_str best "geometry" = Ok best_geometry /\
    getitem_str alt "geometry" = Ok alt_geometry /\
    scenario_display =
      ([] ++
       St_folium
         (mk_map
            (midpoint (S754_finite false 8050184333924762 (-48))
                      (S754_finite false 8047369584157655 (-48)),
             midpoint (S754_finite false 5421911738889011 (-46))
                      (S754_finite false 5421208051447235 (-46)))
            10 TILE_URL TILE_ATTR
            [ GeoJson best_geometry "Old route" "red" 6 None old_tooltip;
              GeoJson alt_geometry "Optimized route" "blue" 6 (Some "6 6") new_tooltip;
              Marker (S754_finite false 8050184333924762 (-48),
                      S754_finite false 5421911738889011 (-46)) "Start" "green" None None;
              Marker (S754_finite false 8047369584157655 (-48),
                      S754_finite false 5421208051447235 (-46)) "End" "green"
                     (Some "flag-checkered") (Some "fa");
              LayerControl ])
         900 600 :: rest)%list.
Proof.
  apply (map_shows_routes_and_endpoints scenario_world folium_draws
           "Uttam Nagar, Delhi" "Dwarka Sector 21, Delhi" empty_session
           (mk_session [mk_request (geocode_url "Uttam Nagar, Delhi") HEADERS 15] [])
           (mk_session [mk_request (geocode_url "Uttam Nagar, Delhi") HEADERS 15;
                        mk_request (geocode_url "Dwarka Sector 21, Delhi") HEADERS 15] [])
           (mk_session
              [mk_request (geocode_url "Uttam Nagar, Delhi") HEADERS 15;
               mk_request (geocode_url "Dwarka Sector 21, Delhi") HEADERS 15;
               mk_request
                 (routes_url
                    (S754_finite false 8050184333924762 (-48),
                     S754_finite false 5421911738889011 (-46))
                    (S754_finite false 8047369584157655 (-48),
                     S754_finite false 5421208051447235 (-46))) [] 20]
              scenario_display)
           (S754_finite false 8050184333924762 (-48), S754_finite false 5421911738889011 (-46))
           (S754_finite false 8047369584157655 (-48), S754_finite false 5421208051447235 (-46)));
    vm_compute; reflexivity.
Defined.

(** X6. When the routing service returns a single route and the run
    succeeds, the two layers of the map carry the same geometry, the two
    columns show the same distance, duration, CO2 and cost, every
    difference is shown as zero ("+0.0 km", "+0 g", "+0") and the savings
    are 0 g and 0. *)
Theorem single_route_shows_zero_savings :
  forall (w : world) (f : folium) (origin destination : string) (s s1 s2 s' : session)
         (start end_ : float * float) (fields : list (string * json)) (r0 : json),
    geocode w origin s = (Ok start, s1) ->
    geocode w destination s1 = (Ok end_, s2) ->
    w (requests_log s2) (mk_request (routes_url start end_) [] 20) = Ok (JObj fields) ->
    dict_get "routes" fields = Some (JArr [r0]) ->
    pipeline w f origin destination s = (Ok tt, s') ->
    exists center geometry distance time co2 cost,
      getitem_str r0 "geometry" = Ok geometry /\
      page s' =
        (page s ++
         [ St_folium
             (mk_map center 10 TILE_URL TILE_ATTR
                [ GeoJson geometry "Old route" "red" 6 None
                    ("Old: " ++ distance ++ " km, " ++ time);
                  GeoJson geometry "Optimized route" "blue" 6 (Some "6 6")
                    ("Opt: " ++ distance ++ " km, " ++ time);
                  Marker start "Start" "green" None None;
                  Marker end_ "End" "green" (Some "flag-checkered") (Some "fa");
                  LayerControl ])
             900 600;
           St_markdown "### 📊 Route metrics";
           St_columns [1; 1; 1];
           St_metric 1 "Old route" (distance ++ " km") None (Some time);
           St_metric 1 "CO₂" (co2 ++ " g") None None;
           St_metric 1 "Cost" ("₹" ++ cost) None None;
           St_metric 2 "Optimized" (distance ++ " km") (Some "+0.0 km") (Some time);
           St_metric 2 "CO₂" (co2 ++ " g") (Some "+0 g") None;
           St_metric 2 "Cost" ("₹" ++ cost) (Some "₹+0") None;
           St_success 3 "**CO₂ saved:** 0 g";
           St_success 3 "**₹ saved:** 0" ])%list.
Proof.
  intros w f origin destination s s1 s2 s' start end_ fields r0 H1 H2 Hw Hr H.
  pose proof (fetch_routes_single w start end_ s2 fields r0 Hw Hr) as Hf.
  destruct (pipeline_outcome w f origin destination s)
    as [(e & _ & H') | [(start' & s1' & e & _ & _ & H')
       | [(start' & s1' & end' & s2' & e & _ & _ & _ & H')
       | [(start' & s1' & end' & s2' & best & alt & s3 & e & _ & _ & _ & H')
       | (start' & s1' & end' & s2' & best & alt & s3 & best_km & alt_km & best_co2 & best_cost
          & alt_co2 & alt_cost & best_geometry & alt_geometry & best_time & alt_time
          & G1 & G2 & G3 & Hbk & Hak & Hbm & Ham & Hbg & Hag & Hbt & Hat & H')]]]];
    rewrite H' in H; try discriminate.
  rewrite H1 in G1. inversion G1; subst start' s1'.
  rewrite H2 in G2. inversion G2; subst end' s2'.
  rewrite G3 in Hf. cbn [fst] in Hf. inversion Hf; subst best alt.
  rewrite Hbk in Hak. inversion Hak; subst alt_km.
  rewrite Hbm in Ham. inversion Ham; subst alt_co2 alt_cost.
  rewrite Hbg in Hag. inversion Hag; subst alt_geometry.
  rewrite Hbt in Hat. inversion Hat; subst alt_time.
  inversion H; subst s'. cbn [page].
  rewrite (calc_metrics_ok_fsub_self _ _ Hbm), !Z.sub_diag.
  exists (midpoint (fst start) (fst end_), midpoint (snd start) (snd end_)),
    best_geometry, (float_repr best_km), best_time, (str_of_Z best_co2), (str_of_Z best_cost).
  split; [exact Hbg|]. reflexivity.
Qed.

Lemma single_route_shows_zero_savings_witness :
  exists center geometry distance time co2 cost,
    getitem_str (route_json 12000 1500) "geometry" = Ok geometry /\
    page (snd (pipeline single_route_world folium_draws "Uttam Nagar, Delhi" "Dwarka Sector 21, Delhi"
                 empty_session)) =
      ([] ++
       [ St_folium
           (mk_map center 10 TILE_URL TILE_ATTR
              [ GeoJson geometry "Old route" "red" 6 None
                  ("Old: " ++ distance ++ " km, " ++ time);
                GeoJson geometry "Optimized route" "blue" 6 (Some "6 6")
                  ("Opt: " ++ distance ++ " km, " ++ time);
                Marker (S754_finite false 8050184333924762 (-48),
                        S754_finite false 5421911738889011 (-46)) "Start" "green" None None;
                Marker (S754_finite false 8047369584157655 (-48),
                        S754_finite false 5421208051447235 (-46)) "End" "green"
                       (Some "flag-checkered") (Some "fa");
                LayerControl ])
           900 600;
         St_markdown "### 📊 Route metrics";
         St_columns [1; 1; 1];
         St_metric 1 "Old route" (distance ++ " km") None (Some time);
         St_metric 1 "CO₂" (co2 ++ " g") None None;
         St_metric 1 "Cost" ("₹" ++ cost) None None;
         St_metric 2 "Optimized" (distance ++ " km") (Some "+0.0 km") (Some time);
         St_metric 2 "CO₂" (co2 ++ " g") (Some "+0 g") None;
         St_metric 2 "Cost" ("₹" ++ cost) (Some "₹+0") None;
         St_success 3 "**CO₂ saved:** 0 g";
         St_success 3 "**₹ saved:** 0" ])%list.
Proof.
  apply (single_route_shows_zero_savings single_route_world folium_draws
           "Uttam Nagar, Delhi" "Dwarka Sector 21, Delhi" empty_session
           (mk_session [mk_request (geocode_url "Uttam Nagar, Delhi") HEADERS 15] [])
           (mk_session [mk_request (geocode_url "Uttam Nagar, Delhi") HEADERS 15;
                        mk_request (geocode_url "Dwarka Sector 21, Delhi") HEADERS 15] [])
           (snd (pipeline single_route_world folium_draws "Uttam Nagar, Delhi" "Dwarka Sector 21, Delhi"
                   empty_session))
           (S754_finite false 8050184333924762 (-48), S754_finite false 5421911738889011 (-46))
           (S754_finite false 8047369584157655 (-48), S754_finite false 5421208051447235 (-46))
           [("code", JStr "Ok"); ("routes", JArr [route_json 12000 1500])]
           (route_json 12000 1500));
    vm_compute; reflexivity.
Defined.

(** X7. The script always draws the title, the two text inputs and the
    button first.  Unless the button is pressed it draws nothing else and
    makes no request.  When it is pressed the script makes one, two or
    three requests and never more: the geocoding of the origin, then that
    of the destination, then the routing call for the coordinates found;
    it returns normally in every case. *)
Theorem script_requests_only_when_pressed :
  forall (w : world) (f : folium) (origin destination : string) (go : bool) (s : session),
    let g1 := mk_request (geocode_url origin) HEADERS 15 in
    let g2 := mk_request (geocode_url destination) HEADERS 15 in
    let widgets :=
      [ St_page_config "Route & Carbon Tracker" "wide";
        St_title "🚚 Logistics Route & Carbon Tracker";
        St_columns [3; 3; 1];
        St_text_input 1 "Origin" "Uttam Nagar, Delhi";
        St_text_input 2 "Destination" "Dwarka Sector 21, Delhi";
        St_button 3 "Get Routes" true ] in
    exists s' made shown,
      script w f origin destination go s = (Ok tt, s') /\
      requests_log s' = (requests_log s ++ made)%list /\
      page s' = (page s ++ widgets ++ shown)%list /\
      (if go
       then made = [g1] \/ made = [g1; g2] \/
            exists start end_, made = [g1; g2; mk_request (routes_url start end_) [] 20]
       else made = [] /\ shown = []).
Proof.
  intros w f origin destination go s g1 g2 widgets.
  unfold script. rewrite !io_bind_emit. cbn [requests_log page].
  set (s0 := mk_session _ _).
  assert (Hp0 : page s0 = (page s ++ widgets)%list).
  { subst s0 widgets. cbn [page]. rewrite <- !List.app_assoc. reflexivity. }
  assert (Hl0 : requests_log s0 = requests_log s) by reflexivity.
  clearbody s0.
  destruct go.
  2:{ exists s0, [], []. unfold io_ret. rewrite Hl0, Hp0, !List.app_nil_r. repeat split. }
  unfold on_go, try_except_error.
  destruct (pipeline_outcome w f origin destination s0)
    as [(e & _ & H) | [(start & s1 & e & _ & _ & H) | [(start & s1 & end_ & s2 & e & _ & _ & _ & H)
       | [(start & s1 & end_ & s2 & best & alt & s3 & e & _ & _ & _ & H)
       | (start & s1 & end_ & s2 & best & alt & s3 & best_km & alt_km & best_co2 & best_cost
          & alt_co2 & alt_cost & best_geometry & alt_geometry & best_time & alt_time
          & _ & _ & _ & _ & _ & _ & _ & _ & _ & _ & _ & H)]]]];
    rewrite H; rewrite ?emit_eq; cbn [requests_log page]; rewrite Hl0, Hp0;
    eexists _, _, _; (split; [reflexivity|]); (split; [reflexivity|]);
    (split; [rewrite <- List.app_assoc; reflexivity|]).
  - left. reflexivity.
  - right. left. reflexivity.
  - right. right. exists start, end_. reflexivity.
  - right. right. exists start, end_. reflexivity.
  - right. right. exists start, end_. reflexivity.
Qed.

(** ** The metrics of distances below zero, and their order *)

Lemma SFopp_involutive x : SFopp (SFopp x) = x.
Proof. destruct x as [s|s| |s m e]; cbn [SFopp]; try rewrite negb_involutive; reflexivity. Qed.

Lemma B2Q_SFopp x : (B2Q (SFopp x) == - B2Q x)%Q.
Proof.
  destruct x as [s|s| |s m e]; cbn [SFopp B2Q]; try reflexivity.
  destruct s; cbn [negb]; ring.
Qed.

Lemma binary_round_aux_opp s m e l :
  binary_round_aux 53 1024 (negb s) m e l = SFopp (binary_round_aux 53 1024 s m e l).
Proof.
  unfold binary_round_aux.
  destruct (shr_fexp 53 1024 m e l) as [mrs' e'].
  destruct (shr_fexp 53 1024 _ e' loc_Exact) as [mrs'' e''].
  destruct (shr_m mrs''); [reflexivity| |reflexivity].
  destruct (e'' <=? 1024 - 53); reflexivity.
Qed.

(** The product of the opposite is the opposite of the product. *)
Lemma fmul_SFopp x mc ec :
  fmul (SFopp x) (S754_finite false mc ec) = SFopp (fmul x (S754_finite false mc ec)).
Proof.
  destruct x as [s|s| |s m e]; unfold fmul; cbn [SFopp SFmul]; try reflexivity.
  - now rewrite !xorb_false_r.
  - now rewrite !xorb_false_r.
  - rewrite !xorb_false_r. apply binary_round_aux_opp.
Qed.

(** [int] of the opposite is the opposite of [int]. *)
Lemma py_int_SFopp x a : py_int x = Ok a -> py_int (SFopp x) = Ok (- a).
Proof.
  destruct x as [s|s| |s m e]; cbn [py_int SFopp]; try discriminate.
  - intros H. inversion H. reflexivity.
  - intros H. inversion H. destruct s; cbn [negb]; now rewrite ?Z.opp_involutive.
Qed.

Lemma calc_metrics_SFopp x a b :
  calc_metrics x = Ok (a, b) -> calc_metrics (SFopp x) = Ok (- a, - b).
Proof.
  unfold calc_metrics, CO2_PER_KM, COST_PER_KM. rewrite f150_eq, f8_eq, !fmul_SFopp.
  destruct (py_int (fmul x (S754_finite false 5277655813324800 (-45)))) as [a'|e] eqn:Ha;
    [|discriminate].
  cbn [bind].
  destruct (py_int (fmul x (S754_finite false 4503599627370496 (-49)))) as [b'|e] eqn:Hb;
    [|discriminate].
  cbn [bind]. intros H. inversion H; subst a' b'.
  rewrite (py_int_SFopp _ _ Ha). cbn [bind]. rewrite (py_int_SFopp _ _ Hb). reflexivity.
Qed.

Lemma Qceiling_opp_floor x y : (y == - x)%Q -> Qceiling y = - Qfloor x.
Proof.
  intros H. unfold Qceiling. f_equal. apply Qfloor_comp. rewrite H. ring.
Qed.

(** X8. [calc_metrics] truncates towards zero.  For the opposite [-d] of
    a finite distance [d >= 0] whose product with 150 is finite it returns
    the opposites of the values for [d], which are the ceilings, not the
    floors, of the two products of [-d]. *)
Theorem calc_metrics_truncates_toward_zero :
  forall x : float,
    finite_nonneg x = true ->
    is_finite (fmul x (float_of_int 150)) = true ->
    exists a b : Z,
      calc_metrics x = Ok (a, b) /\
      calc_metrics (SFopp x) = Ok (- a, - b) /\
      - a = Qceiling (B2Q (fmul (SFopp x) (float_of_int 150))) /\
      - b = Qceiling (B2Q (fmul (SFopp x) (float_of_int 8))) /\
      - a <= 0 /\ - b <= 0.
Proof.
  intros x Hx H150.
  pose proof (fmul_8_finite x Hx H150) as H8.
  destruct (calc_metrics_nonneg x Hx) as [Hc _]. cbv zeta in Hc. specialize (Hc H150 H8).
  exists (Qfloor (B2Q (fmul x (float_of_int 150)))), (Qfloor (B2Q (fmul x (float_of_int 8)))).
  split; [exact Hc|]. split; [exact (calc_metrics_SFopp _ _ _ Hc)|].
  assert (G150 : (0 <= B2Q (fmul x (float_of_int 150)))%Q).
  { rewrite f150_eq in *.
    pose proof (fmul_const_spec x 5277655813324800 (-45) Hx ltac:(lia)) as R.
    destruct (rounds_nonneg_finite_lt _ _ R H150) as [Hf _]. now apply finite_nonneg_ge0. }
  assert (G8 : (0 <= B2Q (fmul x (float_of_int 8)))%Q).
  { rewrite f8_eq in *.
    pose proof (fmul_const_spec x 4503599627370496 (-49) Hx ltac:(lia)) as R.
    destruct (rounds_nonneg_finite_lt _ _ R H8) as [Hf _]. now apply finite_nonneg_ge0. }
  split; [|split; [|split]].
  - symmetry. apply Qceiling_opp_floor.
    rewrite f150_eq, fmul_SFopp. apply B2Q_SFopp.
  - symmetry. apply Qceiling_opp_floor.
    rewrite f8_eq, fmul_SFopp. apply B2Q_SFopp.
  - pose proof (Qfloor_nonneg _ G150). lia.
  - pose proof (Qfloor_nonneg _ G8). lia.
Qed.

Lemma calc_metrics_truncates_toward_zero_witness :
  exists a b : Z,
    calc_metrics (S754_finite false 5764607523034235 (-59)) = Ok (a, b) /\
    calc_metrics (SFopp (S754_finite false 5764607523034235 (-59))) = Ok (- a, - b) /\
    - a = Qceiling (B2Q (fmul (SFopp (S754_finite false 5764607523034235 (-59)))
                           (float_of_int 150))) /\
    - b = Qceiling (B2Q (fmul (SFopp (S754_finite false 5764607523034235 (-59)))
                           (float_of_int 8))) /\
    - a <= 0 /\ - b <= 0.
Proof.
  apply (calc_metrics_truncates_toward_zero (S754_finite false 5764607523034235 (-59)));
    vm_compute; reflexivity.
Defined.

(** Two canonical mantissa and exponent pairs with the same value are the
    same pair. *)
Lemma bounded_unique m e m' e' :
  bounded 53 1024 m e = true -> bounded 53 1024 m' e' = true ->
  (inject_Z (Z.pos m) * pow2 e == inject_Z (Z.pos m') * pow2 e')%Q ->
  m = m' /\ e = e'.
Proof.
  intros Hb Hb' Hv.
  assert (Hc : fexp64 (Z.pos (digits2_pos m) + e) = e).
  { unfold bounded, canonical_mantissa in Hb. apply andb_prop in Hb. destruct Hb as [Hb _].
    now apply Z.eqb_eq in Hb. }
  assert (Hc' : fexp64 (Z.pos (digits2_pos m') + e') = e').
  { unfold bounded, canonical_mantissa in Hb'. apply andb_prop in Hb'. destruct Hb' as [Hb' _].
    now apply Z.eqb_eq in Hb'. }
  pose proof (digits2_pos_bounds m) as [Hlo Hhi].
  pose proof (digits2_pos_bounds m') as [Hlo' Hhi'].
  set (d := Z.pos (digits2_pos m)) in *. set (d' := Z.pos (digits2_pos m')) in *.
  assert (Hd : 0 < d) by (subst d; lia). assert (Hd' : 0 < d') by (subst d'; lia).
  assert (Hup : forall n k E, 0 < k -> Z.pos n < 2 ^ k ->
                  (inject_Z (Z.pos n) * pow2 E < pow2 (k + E))%Q).
  { intros n k E Hk Hn. rewrite (pow2_split k E) by lia.
    apply Qmult_lt_r; [apply pow2_pos|]. rewrite <- Zlt_Qlt. exact Hn. }
  assert (Hdn : forall n k E, 0 < k -> 2 ^ (k - 1) <= Z.pos n ->
                  (pow2 (k - 1 + E) <= inject_Z (Z.pos n) * pow2 E)%Q).
  { intros n k E Hk Hn. rewrite (pow2_split (k - 1) E) by lia.
    apply Qmult_le_compat_r; [|apply Qlt_le_weak, pow2_pos]. rewrite <- Zle_Qle. exact Hn. }
  assert (Hde : d + e = d' + e').
  { destruct (Z.lt_trichotomy (d + e) (d' + e')) as [Hlt|[Heq|Hgt]]; [exfalso|exact Heq|exfalso].
    - pose proof (Hup m d e Hd Hhi). pose proof (Hdn m' d' e' Hd' Hlo').
      assert (pow2 (d + e) <= pow2 (d' - 1 + e'))%Q by (apply pow2_le; lia). lra.
    - pose proof (Hup m' d' e' Hd' Hhi'). pose proof (Hdn m d e Hd Hlo).
      assert (pow2 (d' + e') <= pow2 (d - 1 + e))%Q by (apply pow2_le; lia). lra. }
  assert (He : e = e') by (rewrite <- Hc, <- Hc', Hde; reflexivity).
  split; [|exact He]. subst e'.
  assert (Hm : (inject_Z (Z.pos m) == inject_Z (Z.pos m'))%Q).
  { pose proof (pow2_pos e). apply (Qmult_inj_r _ _ (pow2 e)); [lra|exact Hv]. }
  apply (proj1 (inject_Z_injective _ _)) in Hm. now apply Pos2Z.inj.
Qed.

(** Values that are not below zero and denote the same number give the
    same product by a constant. *)
Lemma fmul_same_value x y c :
  finite_nonneg x = true -> finite_nonneg y = true -> (B2Q x == B2Q y)%Q ->
  (B2Q (fmul x c) == B2Q (fmul y c))%Q /\ is_finite (fmul x c) = is_finite (fmul y c).
Proof.
  intros Hx Hy Hv.
  destruct x as [sx|sx| |[|] mx ex]; cbn [finite_nonneg] in Hx; try discriminate;
    destruct y as [sy|sy| |[|] my ey]; cbn [finite_nonneg] in Hy; try discriminate.
  - destruct c as [sc|sc| |sc mc ec]; split; reflexivity.
  - exfalso. rewrite B2Q_finite_false in Hv. cbn [B2Q] in Hv.
    pose proof (pow2_pos ey). assert (0 < inject_Z (Z.pos my))%Q by reflexivity. nra.
  - exfalso. rewrite B2Q_finite_false in Hv. cbn [B2Q] in Hv.
    pose proof (pow2_pos ex). assert (0 < inject_Z (Z.pos mx))%Q by reflexivity. nra.
  - rewrite !B2Q_finite_false in Hv.
    destruct (bounded_unique _ _ _ _ Hx Hy Hv) as [-> ->]. split; reflexivity.
Qed.

(** Rounding to nearest keeps the order of the numbers rounded. *)
Lemma rounds_nonneg_mono X Y rx ry :
  rounds_nonneg X rx -> rounds_nonneg Y ry ->
  finite_nonneg rx = true -> finite_nonneg ry = true ->
  (X < Y)%Q -> (B2Q rx <= B2Q ry)%Q.
Proof.
  intros [[_ Hnx]|[-> _]] [[_ Hny]|[-> _]] Hfx Hfy Hlt; try discriminate.
  destruct (finite_nonneg_flt rx Hfx) as (Mx & Fx & HMx & HFx & Ex).
  destruct (finite_nonneg_flt ry Hfy) as (My & Fy & HMy & HFy & Ey).
  specialize (Hnx My Fy ltac:(lia) ltac:(lia)). rewrite <- Ey in Hnx.
  specialize (Hny Mx Fx ltac:(lia) ltac:(lia)). rewrite <- Ex in Hny.
  destruct (Qlt_le_dec (B2Q ry) (B2Q rx)) as [Hgt|]; [exfalso|assumption].
  pose proof (Qle_Qabs (B2Q rx - X)) as A1.
  pose proof (Qle_Qabs (- (B2Q ry - Y))) as A2. rewrite Qabs_opp in A2.
  destruct (Qlt_le_dec (B2Q ry) X) as [H1|H1].
  - rewrite (Qabs_neg (B2Q ry - X)) in Hnx by lra.
    destruct (Qlt_le_dec Y (B2Q rx)) as [H2|H2].
    + rewrite (Qabs_pos (B2Q rx - Y)) in Hny by lra. lra.
    + rewrite (Qabs_neg (B2Q rx - Y)) in Hny by lra. lra.
  - rewrite (Qabs_pos (B2Q ry - X)) in Hnx by lra. lra.
Qed.

(** X9. [calc_metrics] keeps the order of distances: of two finite
    distances that are not below zero, the one that is not greater gets
    neither more grams of CO2 nor a higher cost. *)
Theorem calc_metrics_monotone :
  forall (x y : float) (a b a' b' : Z),
    finite_nonneg x = true -> finite_nonneg y = true ->
    (B2Q x <= B2Q y)%Q ->
    calc_metrics x = Ok (a, b) -> calc_metrics y = Ok (a', b') ->
    a <= a' /\ b <= b'.
Proof.
  intros x y a b a' b' Hx Hy Hle Hcx Hcy.
  assert (Hfin : forall z r, finite_nonneg z = true -> calc_metrics z = Ok r ->
            is_finite (fmul z (float_of_int 150)) = true).
  { intros z r Hz Hc. destruct (calc_metrics_nonneg z Hz) as [_ Hinf]. cbv zeta in Hinf.
    pose proof (fmul_nonneg_sign z 5277655813324800 (-45) Hz) as Hs.
    rewrite f150_eq in *.
    destruct (fmul z (S754_finite false 5277655813324800 (-45))) as [s|s| |s m e] eqn:E;
      try reflexivity.
    - subst s. rewrite (Hinf eq_refl) in Hc. discriminate.
    - exfalso. unfold calc_metrics, CO2_PER_KM in Hc. rewrite f150_eq, E in Hc. discriminate. }
  pose proof (Hfin x _ Hx Hcx) as Fx150. pose proof (Hfin y _ Hy Hcy) as Fy150.
  pose proof (fmul_8_finite x Hx Fx150) as Fx8. pose proof (fmul_8_finite y Hy Fy150) as Fy8.
  destruct (calc_metrics_nonneg x Hx) as [Hvx _]. cbv zeta in Hvx.
  specialize (Hvx Fx150 Fx8).
  assert (Ea : a = Qfloor (B2Q (fmul x (float_of_int 150)))) by congruence.
  assert (Eb : b = Qfloor (B2Q (fmul x (float_of_int 8)))) by congruence.
  destruct (calc_metrics_nonneg y Hy) as [Hvy _]. cbv zeta in Hvy.
  specialize (Hvy Fy150 Fy8).
  assert (Ea' : a' = Qfloor (B2Q (fmul y (float_of_int 150)))) by congruence.
  assert (Eb' : b' = Qfloor (B2Q (fmul y (float_of_int 8)))) by congruence.
  subst a b a' b'. clear Hvx Hvy Hcx Hcy.
  assert (Hmono : forall mc ec, 2 ^ 52 <= Z.pos mc ->
            is_finite (fmul x (S754_finite false mc ec)) = true ->
            is_finite (fmul y (S754_finite false mc ec)) = true ->
            (B2Q (fmul x (S754_finite false mc ec)) <= B2Q (fmul y (S754_finite false mc ec)))%Q).
  { intros mc ec Hmc F1 F2.
    destruct (Qle_lt_or_eq _ _ Hle) as [Hlt|Heq].
    - pose proof (fmul_const_spec x mc ec Hx Hmc) as Rx.
      pose proof (fmul_const_spec y mc ec Hy Hmc) as Ry.
      destruct (rounds_nonneg_finite_lt _ _ Rx F1) as [Gx _].
      destruct (rounds_nonneg_finite_lt _ _ Ry F2) as [Gy _].
      apply (rounds_nonneg_mono _ _ _ _ Rx Ry Gx Gy).
      apply Qmult_lt_compat_r; [|exact Hlt].
      rewrite B2Q_finite_false. pose proof (pow2_pos ec).
      assert (0 < inject_Z (Z.pos mc))%Q by reflexivity. nra.
    - destruct (fmul_same_value x y (S754_finite false mc ec) Hx Hy Heq) as [E _].
      rewrite E. apply Qle_refl. }
  rewrite f150_eq in Fx150, Fy150 |- *. rewrite f8_eq in Fx8, Fy8 |- *.
  split; apply Qfloor_resp_le; apply Hmono; try assumption; lia.
Qed.

Lemma calc_metrics_monotone_witness :
  calc_metrics (float_of_int 12) = Ok (1800, 96) /\
  calc_metrics (float_of_int 15) = Ok (2250, 120) /\
  1800 <= 2250 /\ 96 <= 120.
Proof.
  split; [reflexivity|]. split; [reflexivity|].
  apply (calc_metrics_monotone (float_of_int 12) (float_of_int 15) 1800 96 2250 120);
    vm_compute; try reflexivity. discriminate.
Defined.

(** ** The centre of the map *)

(** Float addition does not depend on the order of its operands. *)
Lemma fadd_comm x y : fadd x y = fadd y x.
Proof.
  unfold fadd.
  destruct x as [sx|sx| |sx mx ex]; destruct y as [sy|sy| |sy my ey]; cbn [SFadd];
    try reflexivity; try (destruct sx, sy; reflexivity).
  rewrite Z.add_comm, (Z.min_comm ey ex). reflexivity.
Qed.

(** X10. The centre of the map does not depend on which of the two places
    is the origin and which the destination. *)
Theorem midpoint_symmetric :
  forall a b : float, midpoint a b = midpoint b a.
Proof. intros a b. unfold midpoint. now rewrite fadd_comm. Qed.

Lemma nearest_opp x v : nearest x v -> nearest (- x) (- v).
Proof.
  intros H M F HM HF. specialize (H (- M) F ltac:(lia) HF).
  setoid_replace (- v - - x)%Q with (- (v - x))%Q by ring.
  setoid_replace (inject_Z M * pow2 F - - x)%Q with (- (inject_Z (- M) * pow2 F - x))%Q
    by (rewrite inject_Z_opp; ring).
  now rewrite !Qabs_opp.
Qed.

(** A finite result of rounding the magnitude [x] with the sign [s] is a
    canonical value nearest to the signed number. *)
Lemma round_spec_signed s x r :
  round_spec s x r -> is_finite r = true ->
  finite_nonneg (SFabs r) = true /\ nearest (if s then - x else x)%Q (B2Q r).
Proof.
  intros [H|m e Hb H|v H Hv] Hf; try discriminate.
  - split; [reflexivity|]. cbn [B2Q]. destruct s; [|exact H].
    apply (nearest_ext _ (- 0)%Q); [reflexivity|]. now apply nearest_opp.
  - split; [exact Hb|]. cbn [B2Q]. destruct s.
    + apply (nearest_ext _ (- (inject_Z (Z.pos m) * pow2 e))%Q); [ring|]. now apply nearest_opp.
    + apply (nearest_ext _ (inject_Z (Z.pos m) * pow2 e)%Q); [ring|]. exact H.
Qed.

Lemma finite_abs_flt f :
  finite_nonneg (SFabs f) = true ->
  exists M F, Z.abs M < 2 ^ 53 /\ -1074 <= F <= 971 /\ (B2Q f == inject_Z M * pow2 F)%Q.
Proof.
  destruct f as [s|s| |s m e]; cbn [SFabs finite_nonneg]; try discriminate.
  - intros _. exists 0, 0. split; [lia|]. split; [lia|]. cbn [B2Q].
    change (inject_Z 0) with 0%Q. ring.
  - intros H. apply bounded_range in H. destruct s.
    + exists (- Z.pos m), e. split; [lia|]. split; [lia|]. cbn [B2Q].
      rewrite inject_Z_opp. ring.
    + exists (Z.pos m), e. split; [lia|]. split; [lia|]. cbn [B2Q]. ring.
Qed.

Lemma binary_normalize_signed n e :
  is_finite (binary_normalize 53 1024 n e false) = true ->
  finite_nonneg (SFabs (binary_normalize 53 1024 n e false)) = true /\
  nearest (inject_Z n * pow2 e) (B2Q (binary_normalize 53 1024 n e false)).
Proof.
  destruct n as [|p|p]; cbn [binary_normalize].
  - intros _. split; [reflexivity|]. apply nearest_self. cbn [B2Q].
    change (inject_Z 0) with 0%Q. ring.
  - intros Hf. exact (round_spec_signed _ _ _ (binary_round_spec false p e) Hf).
  - intros Hf. destruct (round_spec_signed _ _ _ (binary_round_spec true p e) Hf) as [H1 H2].
    split; [exact H1|]. intros M F HM HF. specialize (H2 M F HM HF).
    setoid_replace (inject_Z (Z.neg p) * pow2 e)%Q with (- (inject_Z (Z.pos p) * pow2 e))%Q.
    + exact H2.
    + change (Z.neg p) with (- Z.pos p). rewrite inject_Z_opp. ring.
Qed.

Lemma cond_Zopp_Q s (p : positive) e :
  (inject_Z (cond_Zopp s (Z.pos p)) * pow2 e ==
   (if s then -1 else 1) * inject_Z (Z.pos p) * pow2 e)%Q.
Proof.
  destruct s; cbn [cond_Zopp].
  - change (- Z.pos p) with (Z.opp (Z.pos p)). rewrite inject_Z_opp. ring.
  - ring.
Qed.

(** A finite sum of two finite values is a value nearest to the exact
    sum. *)
Lemma fadd_signed x y :
  finite_nonneg (SFabs x) = true -> finite_nonneg (SFabs y) = true ->
  is_finite (fadd x y) = true ->
  finite_nonneg (SFabs (fadd x y)) = true /\ nearest (B2Q x + B2Q y) (B2Q (fadd x y)).
Proof.
  intros Hx Hy.
  destruct x as [sx|sx| |sx mx ex]; cbn [SFabs finite_nonneg] in Hx; try discriminate;
    destruct y as [sy|sy| |sy my ey]; cbn [SFabs finite_nonneg] in Hy; try discriminate;
    unfold fadd; cbn [SFadd].
  - intros _. destruct sx, sy; (split; [reflexivity|]); apply nearest_self; cbn [B2Q]; ring.
  - intros _. split; [exact Hy|]. apply nearest_self. cbn [B2Q]. ring.
  - intros _. split; [exact Hx|]. apply nearest_self. cbn [B2Q]. ring.
  - intros Hf. destruct (binary_normalize_signed _ _ Hf) as [H1 H2]. split; [exact H1|].
    intros M F HM HF. specialize (H2 M F HM HF).
    match type of H2 with (Qabs (?v - ?a) <= Qabs (?w - ?a))%Q =>
      assert (E : (a == B2Q (S754_finite sx mx ex) + B2Q (S754_finite sy my ey))%Q) end.
    { rewrite inject_Z_plus, Qmult_plus_distr_l, !cond_Zopp_Q.
      cbn [B2Q].
      pose proof (aligned_value mx ex (Z.min ex ey) ltac:(lia)) as A1.
      pose proof (aligned_value my ey (Z.min ex ey) ltac:(lia)) as A2.
      rewrite <- !Qmult_assoc, A1, A2. ring. }
    rewrite <- E. exact H2.
Qed.

(** A finite value halved is finite, and nearest to the exact half. *)
Lemma fdiv_2_signed x :
  finite_nonneg (SFabs x) = true ->
  is_finite (fdiv x (float_of_int 2)) = true /\
  nearest (B2Q x / 2) (B2Q (fdiv x (float_of_int 2))).
Proof.
  intros Hx.
  change (float_of_int 2) with (S754_finite false 4503599627370496 (-51)).
  destruct x as [sx|sx| |sx mx ex]; cbn [SFabs finite_nonneg] in Hx; try discriminate.
  - split; [reflexivity|]. apply nearest_self. unfold fdiv. cbn [SFdiv B2Q]. field.
  - pose proof (SFdiv_finite_spec sx mx ex false 4503599627370496 (-51)) as R.
    rewrite xorb_false_r in R. fold (fdiv (S754_finite sx mx ex)
      (S754_finite false 4503599627370496 (-51))) in R.
    assert (E2 : (inject_Z (Z.pos 4503599627370496) * pow2 (-51) == 2)%Q)
      by (vm_compute; reflexivity).
    apply (round_spec_ext _ _ (inject_Z (Z.pos mx) * pow2 ex / 2)%Q) in R;
      [|rewrite E2; reflexivity].
    pose proof (bounded_range _ _ Hx) as [Hm He].
    assert (Hfin : is_finite (fdiv (S754_finite sx mx ex)
                     (S754_finite false 4503599627370496 (-51))) = true).
    { destruct R as [H|m e Hb H|v H Hv]; try reflexivity. exfalso.
      pose proof (pow2_pos ex). assert (0 < inject_Z (Z.pos mx))%Q by reflexivity.
      assert (Hle : (v <= inject_Z (Z.pos mx) * pow2 ex)%Q).
      { apply (nearest_le _ _ (Z.pos mx) ex H); [lia|lia|].
        assert (0 < inject_Z (Z.pos mx) * pow2 ex)%Q by (apply Qmult_lt_0_compat; assumption).
        apply Qle_shift_div_r; lra. }
      pose proof (flt_lt_max (Z.pos mx) ex ltac:(lia) ltac:(lia)). lra. }
    split; [exact Hfin|].
    destruct (round_spec_signed _ _ _ R Hfin) as [_ Hn].
    intros M F HM HF. specialize (Hn M F HM HF). cbn [B2Q].
    destruct sx.
    + setoid_replace (-1 * inject_Z (Z.pos mx) * pow2 ex / 2)%Q
        with (- (inject_Z (Z.pos mx) * pow2 ex / 2))%Q by field. exact Hn.
    + setoid_replace (1 * inject_Z (Z.pos mx) * pow2 ex / 2)%Q
        with (inject_Z (Z.pos mx) * pow2 ex / 2)%Q by field. exact Hn.
Qed.

(** X11. The centre of the map lies between the two places: for finite
    coordinates [a <= b] whose float sum does not overflow, the mean
    [(a + b) / 2] computed in floating point is finite and satisfies
    [a <= (a + b) / 2 <= b], whatever the signs. *)
Theorem midpoint_between :
  forall a b : float,
    finite_nonneg (SFabs a) = true -> finite_nonneg (SFabs b) = true ->
    is_finite (fadd a b) = true ->
    (B2Q a <= B2Q b)%Q ->
    is_finite (midpoint a b) = true /\
    (B2Q a <= B2Q (midpoint a b))%Q /\ (B2Q (midpoint a b) <= B2Q b)%Q.
Proof.
  intros a b Ha Hb Hf Hle. unfold midpoint.
  destruct (fadd_signed a b Ha Hb Hf) as [Hs Hn].
  destruct (fdiv_2_signed (fadd a b) Hs) as [Hfin Hh].
  destruct (finite_abs_flt a Ha) as (Ma & Fa & HMa & HFa & Ea).
  destruct (finite_abs_flt b Hb) as (Mb & Fb & HMb & HFb & Eb).
  assert (Hlo : (2 * B2Q a <= B2Q (fadd a b))%Q).
  { setoid_replace (2 * B2Q a)%Q with (inject_Z Ma * pow2 (Fa + 1))%Q
      by (rewrite Ea, pow2_succ; ring).
    apply (nearest_ge _ _ Ma (Fa + 1) Hn); [lia|lia|]. rewrite pow2_succ. lra. }
  assert (Hhi : (B2Q (fadd a b) <= 2 * B2Q b)%Q).
  { setoid_replace (2 * B2Q b)%Q with (inject_Z Mb * pow2 (Fb + 1))%Q
      by (rewrite Eb, pow2_succ; ring).
    apply (nearest_le _ _ Mb (Fb + 1) Hn); [lia|lia|]. rewrite pow2_succ. lra. }
  split; [exact Hfin|]. split.
  - apply Qle_trans with (inject_Z Ma * pow2 Fa)%Q; [rewrite Ea; apply Qle_refl|].
    apply (nearest_ge _ _ Ma Fa Hh); [lia|lia|]. rewrite <- Ea.
    apply Qle_shift_div_l; lra.
  - apply Qle_trans with (inject_Z Mb * pow2 Fb)%Q; [|rewrite Eb; apply Qle_refl].
    apply (nearest_le _ _ Mb Fb Hh); [lia|lia|]. rewrite <- Eb.
    apply Qle_shift_div_r; lra.
Qed.

Lemma midpoint_between_witness :
  is_finite (midpoint (S754_finite true 5421911738889011 (-46))
                      (S754_finite false 8050184333924762 (-48))) = true /\
  (B2Q (S754_finite true 5421911738889011 (-46)) <=
   B2Q (midpoint (S754_finite true 5421911738889011 (-46))
                 (S754_finite false 8050184333924762 (-48))))%Q /\
  (B2Q (midpoint (S754_finite true 5421911738889011 (-46))
                 (S754_finite false 8050184333924762 (-48))) <=
   B2Q (S754_finite false 8050184333924762 (-48)))%Q.
Proof.
  apply (midpoint_between (S754_finite true 5421911738889011 (-46))
           (S754_finite false 8050184333924762 (-48)));
    vm_compute; try reflexivity. discriminate.
Defined.

(** ** Routes with finite distances and durations *)




(** ** The address of the geocoding request *)

Lemma nat_of_ascii_lt c : (nat_of_ascii c < 256)%nat.
Proof. apply nat_ascii_bounded. Qed.

Lemma hex_digit_unreserved k : (k < 16)%nat -> is_unreserved (hex_digit k) = true.
Proof.
  intros H. do 16 (destruct k as [|k]; [reflexivity|]). lia.
Qed.

Lemma hex_digit_inj a b : (a < 16)%nat -> (b < 16)%nat -> hex_digit a = hex_digit b -> a = b.
Proof.
  intros Ha Hb H. apply (f_equal nat_of_ascii) in H. unfold hex_digit in H.
  destruct (a <? 10)%nat eqn:Ea; destruct (b <? 10)%nat eqn:Eb;
    rewrite !nat_ascii_embedding in H by lia;
    try apply Nat.ltb_lt in Ea; try apply Nat.ltb_lt in Eb;
    try apply Nat.ltb_ge in Ea; try apply Nat.ltb_ge in Eb; lia.
Qed.

Lemma percent_reserved : is_unreserved "%" = false.
Proof. reflexivity. Qed.

(** X13. The place is escaped before it enters the address: the address
    is the fixed search prefix, the quoted place and "&limit=1", and every
    character of the quoted place is a letter, a digit, one of [_ . - ~ /]
    or a percent sign.  No [&], [=], [#], [?], [+] or blank of the place can
    therefore add to or cut short the parameters of the query. *)
Theorem geocode_query_is_escaped :
  forall (place pre post : string) (c : ascii),
    quote place = pre ++ String c post ->
    geocode_url place =
      "https://nominatim.openstreetmap.org/search?format=json&q=" ++ quote place ++ "&limit=1" /\
    (is_unreserved c = true \/ c = "%"%char) /\
    c <> "&"%char /\ c <> "="%char /\ c <> "#"%char /\ c <> "?"%char /\ c <> "+"%char /\
    c <> " "%char.
Proof.
  intros place pre post c H. split; [reflexivity|].
  assert (Hc : is_unreserved c = true \/ c = "%"%char).
  { revert pre H. induction place as [|a p IH]; intros pre H.
    - destruct pre; discriminate.
    - cbn [quote] in H. destruct (is_unreserved a) eqn:Ea.
      + destruct pre as [|x pre]; cbn [append] in H.
        * injection H as E _. left. now rewrite <- E.
        * injection H as _ H. eapply IH. eassumption.
      + pose proof (nat_of_ascii_lt a) as Hlt.
        assert (H1 : (nat_of_ascii a / 16 < 16)%nat)
          by (apply Nat.Div0.div_lt_upper_bound; lia).
        assert (H2 : (nat_of_ascii a mod 16 < 16)%nat) by (apply Nat.mod_upper_bound; lia).
        destruct pre as [|x1 pre]; cbn [append] in H.
        { injection H as E _. right. now symmetry. }
        injection H as _ H.
        destruct pre as [|x2 pre]; cbn [append] in H.
        { injection H as E _. left. rewrite <- E. now apply hex_digit_unreserved. }
        injection H as _ H.
        destruct pre as [|x3 pre]; cbn [append] in H.
        { injection H as E _. left. rewrite <- E. now apply hex_digit_unreserved. }
        injection H as _ H.
        eapply IH. eassumption. }
  split; [exact Hc|].
  repeat split; intros ->; destruct Hc as [Hc|Hc]; discriminate.
Qed.

Lemma geocode_query_is_escaped_witness :
  geocode_url "Uttam Nagar, Delhi" =
    "https://nominatim.openstreetmap.org/search?format=json&q="
    ++ quote "Uttam Nagar, Delhi" ++ "&limit=1" /\
  (is_unreserved "%" = true \/ "%"%char = "%"%char) /\
  "%"%char <> "&"%char /\ "%"%char <> "="%char /\ "%"%char <> "#"%char /\
  "%"%char <> "?"%char /\ "%"%char <> "+"%char /\ "%"%char <> " "%char.
Proof.
  apply (geocode_query_is_escaped "Uttam Nagar, Delhi" "Uttam" "20Nagar%2C%20Delhi" "%").
  reflexivity.
Defined.

Lemma string_length_app a b : String.length (a ++ b) = (String.length a + String.length b)%nat.
Proof. induction a as [|x a IH]; cbn; [reflexivity|now rewrite IH]. Qed.

Lemma string_app_inv_head a x y : a ++ x = a ++ y -> x = y.
Proof. induction a as [|c a IH]; cbn; intros H; [exact H|]. inversion H. now apply IH. Qed.

Lemma string_app_inv_tail a b c : a ++ c = b ++ c -> a = b.
Proof.
  revert b. induction a as [|x a IH]; intros [|y b] H; cbn in H.
  - reflexivity.
  - apply (f_equal String.length) in H. cbn in H. rewrite string_length_app in H. lia.
  - apply (f_equal String.length) in H. cbn in H. rewrite string_length_app in H. lia.
  - inversion H. f_equal. now apply IH.
Qed.

(** Quoting loses nothing: different strings have different quotings. *)
Lemma quote_injective s1 s2 : quote s1 = quote s2 -> s1 = s2.
Proof.
  revert s2. induction s1 as [|c1 s1 IH]; intros [|c2 s2] H; cbn [quote] in H.
  - reflexivity.
  - destruct (is_unreserved c2); discriminate.
  - destruct (is_unreserved c1); discriminate.
  - destruct (is_unreserved c1) eqn:E1; destruct (is_unreserved c2) eqn:E2.
    + inversion H. f_equal. now apply IH.
    + inversion H. subst c1. rewrite percent_reserved in E1. discriminate.
    + inversion H. subst c2. rewrite percent_reserved in E2. discriminate.
    + injection H as Hh Hl Hq.
      change (hex_digit (nat_of_ascii c1 / 16) = hex_digit (nat_of_ascii c2 / 16)) in Hh.
      change (hex_digit (nat_of_ascii c1 mod 16) = hex_digit (nat_of_ascii c2 mod 16)) in Hl.
      pose proof (nat_of_ascii_lt c1) as L1. pose proof (nat_of_ascii_lt c2) as L2.
      apply hex_digit_inj in Hh; [|apply Nat.Div0.div_lt_upper_bound; lia ..].
      apply hex_digit_inj in Hl; [|apply Nat.mod_upper_bound; lia ..].
      assert (Hn : nat_of_ascii c1 = nat_of_ascii c2).
      { rewrite (Nat.div_mod_eq (nat_of_ascii c1) 16), (Nat.div_mod_eq (nat_of_ascii c2) 16).
        now rewrite Hh, Hl. }
      apply (f_equal ascii_of_nat) in Hn. rewrite !ascii_nat_embedding in Hn. subst c2.
      f_equal. now apply IH.
Qed.

(** X14. Different places are never sent to the geocoding service under
    the same address: the address determines the place. *)
Theorem geocode_url_injective :
  forall place1 place2 : string,
    geocode_url place1 = geocode_url place2 -> place1 = place2.
Proof.
  intros p1 p2 H. unfold geocode_url in H.
  apply string_app_inv_head, string_app_inv_tail in H. now apply quote_injective.
Qed.

Lemma geocode_url_injective_witness :
  geocode_url "Dwarka Sector 21, Delhi" =
    "https://nominatim.openstreetmap.org/search?format=json&q=Dwarka%20Sector%2021%2C%20Delhi&limit=1"
  /\ "Dwarka Sector 21, Delhi" = "Dwarka Sector 21, Delhi".
Proof.
  split; [reflexivity|].
  apply (geocode_url_injective "Dwarka Sector 21, Delhi" "Dwarka Sector 21, Delhi").
  reflexivity.
Defined.

(** ** Whole numbers of kilometres, metres and seconds *)

Lemma float_of_int_exact n :
  0 <= n < 2 ^ 53 ->
  finite_nonneg (float_of_int n) = true /\ (B2Q (float_of_int n) == inject_Z n)%Q.
Proof.
  intros H. destruct (binary_normalize_nonneg_exact n 0 H ltac:(lia)) as [H1 H2].
  split; [exact H1|]. unfold float_of_int. rewrite H2. change (pow2 0) with 1%Q. ring.
Qed.

Lemma Qfloor_inject_Z_eq x n : (x == inject_Z n)%Q -> Qfloor x = n.
Proof. intros H. rewrite (Qfloor_comp _ _ H). apply Qfloor_Z. Qed.

(** The product of a whole number by a constant, when it fits in 53
    bits, is exact. *)
Lemma fmul_whole n mc ec c :
  0 <= n < 2 ^ 53 -> 2 ^ 52 <= Z.pos mc ->
  (B2Q (S754_finite false mc ec) == inject_Z c)%Q -> 0 <= n * c < 2 ^ 53 ->
  is_finite (fmul (float_of_int n) (S754_finite false mc ec)) = true /\
  (B2Q (fmul (float_of_int n) (S754_finite false mc ec)) == inject_Z (n * c))%Q.
Proof.
  intros Hn Hmc Hc Hnc. destruct (float_of_int_exact n Hn) as [Hf Hv].
  pose proof (fmul_const_spec (float_of_int n) mc ec Hf Hmc) as R.
  apply (rounds_nonneg_ext _ (inject_Z (n * c))) in R;
    [|rewrite Hv, Hc, inject_Z_mult; reflexivity].
  destruct (rounds_nonneg_exact_flt _ _ (n * c) 0 R Hnc ltac:(lia)) as [F E].
  - change (pow2 0) with 1%Q. ring.
  - assert (inject_Z (n * c) < inject_Z (2 ^ 53))%Q by (rewrite <- Zlt_Qlt; lia).
    assert (pow2 53 <= pow2 1024)%Q by (apply pow2_le; lia).
    rewrite (pow2_Z 53) in H0 by lia. lra.
  - split; [now apply finite_nonneg_is_finite|exact E].
Qed.

(** X15. On a whole number [n >= 0] of kilometres, as long as [150 * n]
    fits in 53 bits, [calc_metrics] makes no rounding error: it returns
    exactly [(150 * n, 8 * n)]. *)
Theorem calc_metrics_whole_kilometres :
  forall n : Z,
    0 <= n -> 150 * n < 2 ^ 53 ->
    calc_metrics (float_of_int n) = Ok (150 * n, 8 * n).
Proof.
  intros n H0 H1.
  assert (Hn : 0 <= n < 2 ^ 53) by lia.
  destruct (float_of_int_exact n Hn) as [Hf _].
  destruct (fmul_whole n 5277655813324800 (-45) 150 Hn ltac:(lia)) as [F150 V150];
    [vm_compute; reflexivity|lia|].
  destruct (fmul_whole n 4503599627370496 (-49) 8 Hn ltac:(lia)) as [F8 V8];
    [vm_compute; reflexivity|lia|].
  destruct (calc_metrics_nonneg (float_of_int n) Hf) as [Hc _]. cbv zeta in Hc.
  rewrite f150_eq, f8_eq in Hc. rewrite (Hc F150 F8).
  rewrite (Qfloor_inject_Z_eq _ _ V150), (Qfloor_inject_Z_eq _ _ V8).
  do 2 f_equal; lia.
Qed.

Lemma calc_metrics_whole_kilometres_witness :
  calc_metrics (float_of_int 12) = Ok (150 * 12, 8 * 12).
Proof. apply (calc_metrics_whole_kilometres 12); lia. Defined.

(** X16. On a whole number [h >= 0] of tens of metres, as long as the
    metres fit in 53 bits, [km] returns the double that the decimal
    [h / 100] denotes (the one [float] reads from its text): the division
    by 1000 and the rounding to two decimals add no error of their own. *)
Theorem km_whole_decametres :
  forall h : Z,
    0 <= h -> 10 * h < 2 ^ 53 ->
    km (float_of_int (10 * h)) = Ok (decimal_to_float false h (-2)).
Proof.
  intros h H0 H1.
  destruct (Z.eq_dec h 0) as [->|Hne]; [reflexivity|].
  assert (Hh : 1 <= h) by lia.
  destruct (float_of_int_exact (10 * h) ltac:(lia)) as [Hf Hv].
  set (x := float_of_int (10 * h)) in *.
  unfold km. rewrite f1000_eq. set (w := S754_finite false 8796093022208000 (-43)).
  assert (Hwv : (B2Q w == 1000)%Q) by apply B2Q_1000.
  assert (Hwpos : (0 < B2Q w)%Q) by (rewrite Hwv; reflexivity).
  change (float_truediv x w) with (Ok (fdiv x w)). cbn [bind].
  pose proof (SFdiv_nonneg_spec x w Hf eq_refl Hwpos) as Hdiv. fold (fdiv x w) in Hdiv.
  assert (HhQ : (1 <= inject_Z h)%Q) by (change 1%Q with (inject_Z 1); rewrite <- Zle_Qle; lia).
  assert (HhQ' : (inject_Z h < inject_Z (2 ^ 53))%Q) by (rewrite <- Zlt_Qlt; lia).
  change (inject_Z (2 ^ 53)) with 9007199254740992%Q in HhQ'.
  apply (rounds_nonneg_ext _ (inject_Z h / 100)%Q) in Hdiv.
  2:{ rewrite Hv, Hwv, inject_Z_mult. change (inject_Z 10) with 10%Q. field. }
  destruct (rounds_nonneg_le_flt _ _ (2 ^ 52) 0 Hdiv ltac:(lia) ltac:(lia)) as [Hqf Hqle].
  { change (inject_Z (2 ^ 52) * pow2 0)%Q with 4503599627370496%Q.
    apply Qle_shift_div_r; lra. }
  destruct Hdiv as [[_ Hn]|[Hinf _]]; [|rewrite Hinf in Hqf; discriminate].
  (* the quotient is within 2^-9 of h/100 *)
  set (A := (512 * h) / 100).
  assert (HA : 100 * A <= 512 * h < 100 * A + 100).
  { subst A. pose proof (Z.div_mod (512 * h) 100 ltac:(lia)).
    pose proof (Z.mod_pos_bound (512 * h) 100 ltac:(lia)). lia. }
  assert (Hclose : (Qabs (B2Q (fdiv x w) - inject_Z h / 100) < 1 # 512)%Q).
  { specialize (Hn A (-9) ltac:(lia) ltac:(lia)).
    eapply Qle_lt_trans; [exact Hn|].
    change (pow2 (-9)) with (1 # 512)%Q.
    destruct HA as [HA1 HA2]. rewrite Zle_Qle in HA1. rewrite Zlt_Qlt in HA2.
    rewrite inject_Z_plus, !inject_Z_mult in *.
    change (inject_Z 100) with 100%Q in *. change (inject_Z 512) with 512%Q in *.
    apply Qabs_Qlt_condition. split.
    - apply Qlt_minus_iff. setoid_replace (inject_Z A * (1 # 512) - inject_Z h / 100 + - - (1 # 512))%Q
        with ((100 * inject_Z A + 100 - 512 * inject_Z h) / 51200)%Q by field.
      apply Qlt_shift_div_l; lra.
    - apply Qlt_minus_iff. setoid_replace ((1 # 512) + - (inject_Z A * (1 # 512) - inject_Z h / 100))%Q
        with ((512 * inject_Z h - 100 * inject_Z A + 100) / 51200)%Q by field.
      apply Qlt_shift_div_l; lra. }
  destruct (fdiv x w) as [s|s| |[|] m e] eqn:Eq; cbn [finite_nonneg] in Hqf; try discriminate.
  { exfalso. cbn [B2Q] in Hclose.
    setoid_replace (0 - inject_Z h / 100)%Q with (- (inject_Z h / 100))%Q in Hclose by ring.
    rewrite Qabs_opp in Hclose.
    pose proof (Qle_Qabs (inject_Z h / 100)) as Hab.
    assert (1 # 100 <= inject_Z h / 100)%Q by (apply Qle_shift_div_l; lra). lra. }
  unfold py_round_ndigits.
  change (323 <? 2) with false. change (2 <? -308) with false. cbv iota.
  destruct (decimal_units_spec m e) as [Hu Hu0].
  assert (Eu : decimal_units m e 2 = h).
  { rewrite B2Q_finite_false in Hclose.
    set (u := decimal_units m e 2) in *. set (y := (inject_Z (Z.pos m) * pow2 e)%Q) in *.
    clearbody u y.
    apply Qabs_Qlt_condition in Hclose. apply Qabs_Qle_condition in Hu.
    assert (G1 : (inject_Z u / 100 - inject_Z h / 100 < 1 # 100)%Q) by lra.
    assert (G2 : (- (1 # 100) < inject_Z u / 100 - inject_Z h / 100)%Q) by lra.
    setoid_replace (inject_Z u / 100 - inject_Z h / 100)%Q
      with ((inject_Z u - inject_Z h) / 100)%Q in G1 by field.
    setoid_replace (inject_Z u / 100 - inject_Z h / 100)%Q
      with ((inject_Z u - inject_Z h) / 100)%Q in G2 by field.
    assert (G3 : (inject_Z u - inject_Z h < 1)%Q).
    { destruct (Qlt_le_dec (inject_Z u - inject_Z h) 1) as [|Hge]; [assumption|exfalso].
      assert ((1 # 100) <= (inject_Z u - inject_Z h) / 100)%Q by (apply Qle_shift_div_l; lra).
      lra. }
    assert (G4 : (-1 < inject_Z u - inject_Z h)%Q).
    { destruct (Qlt_le_dec (-1) (inject_Z u - inject_Z h)) as [|Hge]; [assumption|exfalso].
      assert ((inject_Z u - inject_Z h) / 100 <= - (1 # 100))%Q by (apply Qle_shift_div_r; lra).
      lra. }
    rewrite <- inject_Z_sub in G3, G4.
    change 1%Q with (inject_Z 1) in G3. change (-1)%Q with (inject_Z (-1)) in G4.
    rewrite <- Zlt_Qlt in G3, G4. lia. }
  rewrite Eu.
  assert (Er : decimal_to_float false h (-2) = round_ratio false (h * 1) 100) by reflexivity.
  rewrite Er.
  change (round_ratio false (h * 10 ^ Z.max (- (2)) 0) (10 ^ Z.max 2 0))
    with (round_ratio false (h * 1) 100).
  pose proof (round_ratio_spec false (h * 1) 100 ltac:(lia) ltac:(lia)) as R.
  destruct R as [Hz|m' e' Hb Hz|v Hz Hv']; try reflexivity.
  exfalso.
  assert (Hle : (v <= inject_Z (2 ^ 52) * pow2 0)%Q).
  { apply (nearest_le _ _ (2 ^ 52) 0 Hz); [lia|lia|].
    change (inject_Z (2 ^ 52) * pow2 0)%Q with 4503599627370496%Q.
    rewrite Z.mul_1_r. change (inject_Z 100) with 100%Q.
    apply Qle_shift_div_r; lra. }
  change (inject_Z (2 ^ 52) * pow2 0)%Q with 4503599627370496%Q in Hle.
  assert (pow2 53 <= pow2 1024)%Q by (apply pow2_le; lia).
  change (pow2 53) with 9007199254740992%Q in H. lra.
Qed.

Lemma km_whole_decametres_witness :
  km (float_of_int (10 * 1234)) = Ok (decimal_to_float false 1234 (-2)).
Proof. apply (km_whole_decametres 1234); lia. Defined.

(** The nearest integer to [n / d] is the only integer within a strict
    half of it, and on a tie the even neighbour. *)
Lemma rne_div_unique n d r :
  0 < d -> 2 * Z.abs (r * d - n) < d -> rne_div n d = r.
Proof.
  intros Hd Hr. pose proof (rne_div_spec n d Hd) as Hs.
  set (q := rne_div n d) in *. clearbody q.
  destruct (Z.eq_dec q r) as [|Hne]; [assumption|exfalso].
  assert (d <= Z.abs (q * d - r * d)) by nia. lia.
Qed.

Lemma rne_div_tie n d k :
  0 < d -> 2 * n = (2 * k + 1) * d ->
  rne_div n d = if Z.even k then k else k + 1.
Proof.
  intros Hd Hn. unfold rne_div.
  assert (Hq : n / d = k) by (symmetry; apply (Z.div_unique n d k (n - d * k)); nia).
  assert (Hm : n mod d = n - d * k) by (rewrite Z.mod_eq, Hq by lia; reflexivity).
  rewrite Hq, Hm.
  replace (2 * (n - d * k)) with d by nia. now rewrite Z.compare_refl.
Qed.

(** The minutes shown for a whole remainder of seconds. *)
Lemma minutes_whole rem R :
  finite_nonneg rem = true -> 0 <= R < 3600 -> (B2Q rem == inject_Z R)%Q ->
  py_round (fdiv rem (float_of_int 60)) = Ok (rne_div R 60).
Proof.
  intros Hrem HR Hv.
  assert (Hlt : (B2Q rem < 3600)%Q).
  { rewrite Hv. change 3600%Q with (inject_Z 3600). rewrite <- Zlt_Qlt. lia. }
  destruct (minutes_nonneg rem Hrem Hlt) as (M & HM & _ & HMr).
  pose proof (minutes_exact rem M Hrem Hlt HM) as Hnear.
  rewrite HM. f_equal. symmetry.
  destruct (Z.eq_dec (R mod 60) 30) as [Htie|Hnt].
  - (* a tie: the quotient is computed exactly and rounded to even *)
    set (k := R / 60).
    assert (HRk : R = 60 * k + 30) by (subst k; pose proof (Z.div_mod R 60 ltac:(lia)); lia).
    assert (Hk : 0 <= k < 60) by lia.
    rewrite (rne_div_tie R 60 k ltac:(lia) ltac:(lia)).
    revert HM. rewrite f60_eq. set (w := S754_finite false 8444249301319680 (-47)).
    assert (Hwv : (B2Q w == 60)%Q) by apply B2Q_60.
    assert (Hwpos : (0 < B2Q w)%Q) by (rewrite Hwv; reflexivity).
    pose proof (SFdiv_nonneg_spec rem w Hrem eq_refl Hwpos) as Hdiv. fold (fdiv rem w) in Hdiv.
    assert (Hx : (B2Q rem / B2Q w == inject_Z (2 * k + 1) * pow2 (-1))%Q).
    { rewrite Hv, Hwv, HRk, !inject_Z_plus, !inject_Z_mult.
      change (pow2 (-1)) with (1 # 2)%Q. change (inject_Z 60) with 60%Q.
      change (inject_Z 30) with 30%Q. change (inject_Z 2) with 2%Q.
      change (inject_Z 1) with 1%Q. field. }
    destruct (rounds_nonneg_exact_flt _ _ (2 * k + 1) (-1) Hdiv ltac:(lia) ltac:(lia) Hx)
      as [Hqf Hqv].
    { rewrite Hx. apply flt_lt_max; lia. }
    rewrite Hx in Hqv.
    destruct (fdiv rem w) as [s|s| |[|] m e]; cbn [finite_nonneg] in Hqf; try discriminate.
    { exfalso. cbn [B2Q] in Hqv. change (pow2 (-1)) with (1 # 2)%Q in Hqv.
      assert (0 <= inject_Z (2 * k + 1))%Q
        by (change 0%Q with (inject_Z 0); rewrite <- Zle_Qle; lia).
      assert (inject_Z (2 * k + 1) == 0)%Q by lra.
      change 0%Q with (inject_Z 0) in H0. apply (proj1 (inject_Z_injective _ _)) in H0. lia. }
    rewrite B2Q_finite_false in Hqv. change (pow2 (-1)) with (1 # 2)%Q in Hqv.
    cbn [py_round]. intros HM. inversion HM as [HM']. clear HM.
    destruct (Z.leb_spec 0 e) as [He|He].
    + exfalso. rewrite pow2_Z, <- inject_Z_mult in Hqv by lia.
      assert (E2 : (inject_Z (2 * (Z.pos m * 2 ^ e)) == inject_Z (2 * k + 1))%Q).
      { rewrite (inject_Z_mult 2). change (inject_Z 2) with 2%Q. rewrite Hqv. field. }
      apply (proj1 (inject_Z_injective _ _)) in E2. lia.
    + symmetry. apply rne_div_tie; [apply Z.pow_pos_nonneg; lia|].
      rewrite pow2_neg in Hqv by lia.
      assert (HD : (0 < inject_Z (2 ^ (- e)))%Q) by (apply inject_Z_pow2_pos; lia).
      assert (E2 : (inject_Z (2 * Z.pos m) == inject_Z ((2 * k + 1) * 2 ^ (- e)))%Q).
      { rewrite !inject_Z_mult. change (inject_Z 2) with 2%Q.
        apply (Qmult_inj_r _ _ (1 / inject_Z (2 ^ (- e)))).
        - intros H. assert (0 < 1 / inject_Z (2 ^ (- e)))%Q by (apply Qlt_shift_div_l; lra). lra.
        - setoid_replace (2 * inject_Z (Z.pos m) * (1 / inject_Z (2 ^ (- e))))%Q
            with (2 * (inject_Z (Z.pos m) * (1 / inject_Z (2 ^ (- e)))))%Q by ring.
          rewrite Hqv. field. lra. }
      apply (proj1 (inject_Z_injective _ _)) in E2. exact E2.
  - (* no tie: the nearest integer is unique *)
    apply rne_div_unique; [lia|].
    rewrite Hv in Hnear.
    assert (Hq : (Qabs ((inject_Z (M * 60 - R)) / 60) <= 1 # 2)%Q).
    { setoid_replace (inject_Z (M * 60 - R) / 60)%Q with (inject_Z M - inject_Z R / 60)%Q;
        [exact Hnear|].
      rewrite inject_Z_sub, inject_Z_mult. change (inject_Z 60) with 60%Q. field. }
    apply Qabs_Qle_condition in Hq. destruct Hq as [Hq1 Hq2].
    assert (G1 : (inject_Z (M * 60 - R) <= inject_Z 30)%Q).
    { change (inject_Z 30) with 30%Q.
      destruct (Qlt_le_dec 30 (inject_Z (M * 60 - R))) as [Hc|]; [exfalso|assumption].
      assert ((1 # 2) < inject_Z (M * 60 - R) / 60)%Q by (apply Qlt_shift_div_l; lra). lra. }
    assert (G2 : (inject_Z (-30) <= inject_Z (M * 60 - R))%Q).
    { change (inject_Z (-30)) with (-30)%Q.
      destruct (Qlt_le_dec (inject_Z (M * 60 - R)) (-30)) as [Hc|]; [exfalso|assumption].
      assert (inject_Z (M * 60 - R) / 60 < - (1 # 2))%Q by (apply Qlt_shift_div_r; lra). lra. }
    rewrite <- Zle_Qle in G1, G2.
    assert (M * 60 - R <> 30 /\ M * 60 - R <> -30).
    { split; intros Hc; apply Hnt.
      - replace R with (30 + (M - 1) * 60) by lia. rewrite Z.mod_add by lia. reflexivity.
      - replace R with (30 + M * 60) by lia. rewrite Z.mod_add by lia. reflexivity. }
    lia.
Qed.

(** X17. On a whole number [t] of seconds with [0 <= t < 2^53], [hmin]
    agrees with integer arithmetic: the hours are the quotient [t / 3600]
    and the minutes are the remainder [t mod 3600] divided by 60 and
    rounded to the nearest integer, a half going to the even neighbour;
    the separators of the text are U+202F, as in the source. *)
Theorem hmin_whole_seconds :
  forall t : Z,
    0 <= t < 2 ^ 53 ->
    hmin (float_of_int t) =
      Ok (str_of_Z (t / 3600) ++ NNBSP ++ "h" ++ NNBSP
          ++ str_of_Z (rne_div (t mod 3600) 60) ++ NNBSP ++ "min").
Proof.
  intros t Ht. destruct (float_of_int_exact t Ht) as [Hs Hv].
  set (s := float_of_int t) in *.
  destruct (floordiv_3600_nonneg s Hs) as [Hfdfin Hfdv].
  destruct (mod_3600_nonneg s Hs) as (Hremfin & Hremv & Hrem0 & Hrem1).
  cbv zeta in Hfdv.
  set (fd := float_div_mod_floordiv s (float_of_int 3600)) in *.
  set (rem := float_div_mod_mod s (float_of_int 3600)) in *.
  assert (Hfl : Qfloor (B2Q s / 3600) = t / 3600).
  { rewrite (Qfloor_comp _ (t # 3600)).
    - reflexivity.
    - rewrite Hv. unfold Qeq. cbn. rewrite Z.mul_1_r. reflexivity. }
  assert (Hlt : (B2Q s < inject_Z (2 ^ 53))%Q) by (rewrite Hv, <- Zlt_Qlt; lia).
  specialize (Hfdv Hlt). rewrite Hfl in Hfdv, Hremv.
  assert (HremZ : (B2Q rem == inject_Z (t mod 3600))%Q).
  { rewrite Hremv, Hv, Z.mod_eq, inject_Z_sub, inject_Z_mult by lia. reflexivity. }
  pose proof (Z.mod_pos_bound t 3600 ltac:(lia)) as HR.
  unfold hmin.
  change (float_floordiv s (float_of_int 3600)) with (Ok fd). cbn [bind].
  rewrite (py_int_nonneg fd Hfdfin), (Qfloor_inject_Z_eq _ _ Hfdv). cbn [bind].
  change (float_mod s (float_of_int 3600)) with (Ok rem). cbn [bind].
  change (float_truediv rem (float_of_int 60)) with (Ok (fdiv rem (float_of_int 60))).
  cbn [bind]. rewrite (minutes_whole rem (t mod 3600) Hremfin HR HremZ). reflexivity.
Qed.

Lemma hmin_whole_seconds_witness :
  hmin (float_of_int 5430) =
    Ok (str_of_Z (5430 / 3600) ++ NNBSP ++ "h" ++ NNBSP
        ++ str_of_Z (rne_div (5430 mod 3600) 60) ++ NNBSP ++ "min").
Proof. apply (hmin_whole_seconds 5430). lia. Defined.

(** ** [km] on distances below zero, and its order *)

Lemma fdiv_SFopp x mc ec :
  fdiv (SFopp x) (S754_finite false mc ec) = SFopp (fdiv x (S754_finite false mc ec)).
Proof.
  destruct x as [s|s| |s m e]; unfold fdiv; cbn [SFopp SFdiv]; try reflexivity.
  - now rewrite !xorb_false_r.
  - now rewrite !xorb_false_r.
  - rewrite !xorb_false_r.
    destruct (SFdiv_core_binary 53 1024 (Z.pos m) e (Z.pos mc) ec) as [[mz ez] lz].
    apply binary_round_aux_opp.
Qed.

Lemma round_ratio_opp s n d : round_ratio (negb s) n d = SFopp (round_ratio s n d).
Proof.
  unfold round_ratio. destruct n as [|p|p]; try reflexivity.
  destruct (SFdiv_core_binary 53 1024 (Z.pos p) 0 d 0) as [[q e] l].
  apply binary_round_aux_opp.
Qed.

Lemma py_round_ndigits_SFopp y n r :
  py_round_ndigits y n = Ok r -> py_round_ndigits (SFopp y) n = Ok (SFopp r).
Proof.
  destruct y as [s|s| |s m e]; cbn [py_round_ndigits SFopp];
    try (intros H; inversion H; reflexivity).
  destruct (323 <? n); [intros H; inversion H; reflexivity|].
  destruct (n <? -308); [intros H; inversion H; reflexivity|].
  rewrite round_ratio_opp.
  destruct (round_ratio s (decimal_units m e n * 10 ^ Z.max (- n) 0) (10 ^ Z.max n 0))
    as [s'|s'| |s' m' e']; cbn [SFopp]; intros H; inversion H; reflexivity.
Qed.

Lemma km_SFopp x r : km x = Ok r -> km (SFopp x) = Ok (SFopp r).
Proof.
  unfold km. rewrite f1000_eq.
  change (float_truediv x (S754_finite false 8796093022208000 (-43)))
    with (Ok (fdiv x (S754_finite false 8796093022208000 (-43)))).
  change (float_truediv (SFopp x) (S754_finite false 8796093022208000 (-43)))
    with (Ok (fdiv (SFopp x) (S754_finite false 8796093022208000 (-43)))).
  cbn [bind]. rewrite fdiv_SFopp. apply py_round_ndigits_SFopp.
Qed.

(** X18. [km] is odd: the kilometres of [-d] are the opposite of those of
    [d].  For every finite distance [d >= 0] in metres, [km(-d)] therefore
    succeeds, is not above zero and stays within 0.01 of the float
    quotient [-d / 1000]. *)
Theorem km_of_negated_distance :
  forall x : float,
    finite_nonneg x = true ->
    exists r : float,
      km x = Ok r /\ km (SFopp x) = Ok (SFopp r) /\
      is_finite (SFopp r) = true /\
      (B2Q (SFopp r) <= 0)%Q /\
      (Qabs (B2Q (SFopp r) - B2Q (fdiv (SFopp x) (float_of_int 1000))) <= 1 # 100)%Q.
Proof.
  intros x Hx.
  destruct (km_nonneg x Hx) as (r & u & Hkm & Hr & _ & _ & _ & Hclose).
  exists r. split; [exact Hkm|]. split; [exact (km_SFopp _ _ Hkm)|].
  split; [|split].
  - destruct r as [s|s| |[|] m e]; cbn [finite_nonneg] in Hr; try discriminate; reflexivity.
  - rewrite B2Q_SFopp. pose proof (finite_nonneg_ge0 r Hr). lra.
  - rewrite f1000_eq in *. rewrite fdiv_SFopp, !B2Q_SFopp.
    setoid_replace (- B2Q r - - B2Q (fdiv x (S754_finite false 8796093022208000 (-43))))%Q
      with (- (B2Q r - B2Q (fdiv x (S754_finite false 8796093022208000 (-43)))))%Q by ring.
    rewrite Qabs_opp. exact Hclose.
Qed.

Lemma km_of_negated_distance_witness :
  exists r : float,
    km (float_of_int 12345) = Ok r /\ km (SFopp (float_of_int 12345)) = Ok (SFopp r) /\
    is_finite (SFopp r) = true /\
    (B2Q (SFopp r) <= 0)%Q /\
    (Qabs (B2Q (SFopp r) - B2Q (fdiv (SFopp (float_of_int 12345)) (float_of_int 1000)))
     <= 1 # 100)%Q.
Proof. apply (km_of_negated_distance (float_of_int 12345)). reflexivity. Defined.

(** Values that are not below zero and denote the same number are the
    same float, up to the sign of zero. *)
Lemma finite_nonneg_same_value x y :
  finite_nonneg x = true -> finite_nonneg y = true -> (B2Q x == B2Q y)%Q ->
  x = y \/ (exists s s', x = S754_zero s /\ y = S754_zero s').
Proof.
  intros Hx Hy Hv.
  destruct x as [sx|sx| |[|] mx ex]; cbn [finite_nonneg] in Hx; try discriminate;
    destruct y as [sy|sy| |[|] my ey]; cbn [finite_nonneg] in Hy; try discriminate.
  - right. now exists sx, sy.
  - exfalso. rewrite B2Q_finite_false in Hv. cbn [B2Q] in Hv.
    pose proof (pow2_pos ey). assert (0 < inject_Z (Z.pos my))%Q by reflexivity. nra.
  - exfalso. rewrite B2Q_finite_false in Hv. cbn [B2Q] in Hv.
    pose proof (pow2_pos ex). assert (0 < inject_Z (Z.pos mx))%Q by reflexivity. nra.
  - rewrite !B2Q_finite_false in Hv.
    destruct (bounded_unique _ _ _ _ Hx Hy Hv) as [-> ->]. now left.
Qed.

(** Rounding to two decimals keeps the order. *)
Lemma py_round_2_mono y y' r r' :
  finite_nonneg y = true -> finite_nonneg y' = true -> (B2Q y <= B2Q y')%Q ->
  py_round_ndigits y 2 = Ok r -> py_round_ndigits y' 2 = Ok r' ->
  (B2Q r <= B2Q r')%Q.
Proof.
  intros Hy Hy' Hle Hr Hr'.
  destruct (Qle_lt_or_eq _ _ Hle) as [Hlt|Heq].
  2:{ destruct (finite_nonneg_same_value y y' Hy Hy' Heq) as [->|(s & s' & -> & ->)].
      - rewrite Hr in Hr'. inversion Hr'. apply Qle_refl.
      - cbn in Hr, Hr'. inversion Hr. inversion Hr'. apply Qle_refl. }
  assert (Hres : forall z t, finite_nonneg z = true -> py_round_ndigits z 2 = Ok t ->
            (0 <= B2Q t)%Q /\
            match z with
            | S754_finite _ m e =>
                t = round_ratio false (decimal_units m e 2 * 1) 100
            | _ => (B2Q t == 0)%Q
            end).
  { intros z t Hz Ht. destruct (py_round_2_nonneg z Hz) as (t0 & u & Ht0 & Hf & _).
    rewrite Ht in Ht0. inversion Ht0; subst t0. split; [now apply finite_nonneg_ge0|].
    destruct z as [s|s| |[|] m e]; cbn [finite_nonneg] in Hz; try discriminate.
    - cbn in Ht. inversion Ht. reflexivity.
    - unfold py_round_ndigits in Ht.
      change (323 <? 2) with false in Ht. change (2 <? -308) with false in Ht. cbv iota in Ht.
      change (round_ratio false (decimal_units m e 2 * 10 ^ Z.max (- (2)) 0) (10 ^ Z.max 2 0))
        with (round_ratio false (decimal_units m e 2 * 1) 100) in Ht.
      destruct (round_ratio false (decimal_units m e 2 * 1) 100); try discriminate;
        inversion Ht; reflexivity. }
  destruct (Hres y r Hy Hr) as [Hr0 Hry]. destruct (Hres y' r' Hy' Hr') as [Hr0' Hry'].
  pose proof (finite_nonneg_ge0 y Hy) as H0.
  destruct y' as [s'|s'| |[|] m' e']; cbn [finite_nonneg] in Hy'; try discriminate.
  { exfalso. cbn [B2Q] in Hlt. lra. }
  destruct y as [s|s| |[|] m e]; cbn [finite_nonneg] in Hy; try discriminate.
  { rewrite Hry. exact Hr0'. }
  destruct (py_round_2_nonneg (S754_finite false m e) Hy) as (t & u0 & Ht & Htf & _).
  rewrite Hr in Ht. inversion Ht; subst t.
  destruct (py_round_2_nonneg (S754_finite false m' e') Hy') as (t' & u0' & Ht' & Htf' & _).
  rewrite Hr' in Ht'. inversion Ht'; subst t'.
  destruct (decimal_units_spec m e) as [Hu Hu0].
  destruct (decimal_units_spec m' e') as [Hu' Hu0'].
  set (u := decimal_units m e 2) in *. set (u' := decimal_units m' e' 2) in *.
  rewrite !B2Q_finite_false in Hlt.
  assert (Huu : u <= u').
  { apply Qabs_Qle_condition in Hu. apply Qabs_Qle_condition in Hu'.
    assert (D : forall a, (a / 100 == a * (1 # 100))%Q) by (intros a; field).
    rewrite !D in Hu, Hu'.
    assert (G' : (inject_Z u < inject_Z u' + 1)%Q) by lra.
    change 1%Q with (inject_Z 1) in G'. rewrite <- inject_Z_plus, <- Zlt_Qlt in G'. lia. }
  destruct (Z.eq_dec u u') as [E|Hne].
  { rewrite Hry, Hry', E. apply Qle_refl. }
  destruct (Z.eq_dec u 0) as [E0|Hu1].
  { rewrite Hry, E0. cbn [Z.mul round_ratio B2Q]. exact Hr0'. }
  assert (R : rounds_nonneg (inject_Z (u * 1) / inject_Z 100) r).
  { rewrite Hry. apply round_spec_nonneg, round_ratio_spec; lia. }
  assert (R' : rounds_nonneg (inject_Z (u' * 1) / inject_Z 100) r').
  { rewrite Hry'. apply round_spec_nonneg, round_ratio_spec; lia. }
  apply (rounds_nonneg_mono _ _ _ _ R R' Htf Htf').
  rewrite !Z.mul_1_r. change (inject_Z 100) with 100%Q.
  assert (D : forall a, (a / 100 == a * (1 # 100))%Q) by (intros a; field).
  rewrite !D. assert (inject_Z u < inject_Z u')%Q by (rewrite <- Zlt_Qlt; lia). lra.
Qed.

(** X19. [km] keeps the order of distances: of two finite distances in
    metres that are not below zero, the one that is not greater never
    gets more kilometres. *)
Theorem km_monotone :
  forall (x y r r' : float),
    finite_nonneg x = true -> finite_nonneg y = true ->
    (B2Q x <= B2Q y)%Q ->
    km x = Ok r -> km y = Ok r' ->
    (B2Q r <= B2Q r')%Q.
Proof.
  intros x y r r' Hx Hy Hle Hr Hr'.
  destruct (km_nonneg x Hx) as (t & u & Ht & _ & Hq & _).
  destruct (km_nonneg y Hy) as (t' & u' & Ht' & _ & Hq' & _).
  unfold km in Hr, Hr'. rewrite f1000_eq in *.
  set (w := S754_finite false 8796093022208000 (-43)) in *.
  change (float_truediv x w) with (Ok (fdiv x w)) in Hr.
  change (float_truediv y w) with (Ok (fdiv y w)) in Hr'. cbn [bind] in Hr, Hr'.
  apply (py_round_2_mono (fdiv x w) (fdiv y w) r r' Hq Hq'); try assumption.
  assert (Hwv : (B2Q w == 1000)%Q) by apply B2Q_1000.
  assert (Hwpos : (0 < B2Q w)%Q) by (rewrite Hwv; reflexivity).
  destruct (Qle_lt_or_eq _ _ Hle) as [Hlt|Heq].
  - pose proof (SFdiv_nonneg_spec x w Hx eq_refl Hwpos) as R. fold (fdiv x w) in R.
    pose proof (SFdiv_nonneg_spec y w Hy eq_refl Hwpos) as R'. fold (fdiv y w) in R'.
    apply (rounds_nonneg_mono _ _ _ _ R R' Hq Hq').
    apply Qlt_shift_div_l; [exact Hwpos|].
    setoid_replace (B2Q x / B2Q w * B2Q w)%Q with (B2Q x) by (field; lra). exact Hlt.
  - destruct (finite_nonneg_same_value x y Hx Hy Heq) as [->|(s & s' & -> & ->)];
      apply Qle_refl.
Qed.

Lemma km_monotone_witness :
  km (float_of_int 12000) = Ok (float_of_int 12) /\
  km (float_of_int 15000) = Ok (float_of_int 15) /\
  (B2Q (float_of_int 12) <= B2Q (float_of_int 15))%Q.
Proof.
  split; [reflexivity|]. split; [reflexivity|].
  apply (km_monotone (float_of_int 12000) (float_of_int 15000));
    vm_compute; try reflexivity. discriminate.
Defined.

(** ** The text of a float reads back as the float *)

(** *** Rounding depends on the number rounded only *)

Lemma inbetween_unique m1 l1 m2 l2 E x :
  inbetween m1 l1 E x -> inbetween m2 l2 E x -> m1 = m2 /\ l1 = l2.
Proof.
  intros H1 H2. pose proof (pow2_pos E) as HP.
  destruct (inbetween_bounds _ _ _ _ H1) as [A1 B1].
  destruct (inbetween_bounds _ _ _ _ H2) as [A2 B2].
  assert (Hm : m1 = m2).
  { assert (m1 < m2 + 1).
    { apply (inject_Z_pow2_lt _ _ E). rewrite inject_Z_plus. change (inject_Z 1) with 1%Q. lra. }
    assert (m2 < m1 + 1).
    { apply (inject_Z_pow2_lt _ _ E). rewrite inject_Z_plus. change (inject_Z 1) with 1%Q. lra. }
    lia. }
  subst m2. split; [reflexivity|].
  unfold inbetween in H1, H2.
  destruct l1 as [|[| |]]; destruct l2 as [|[| |]]; split_ands; try reflexivity; exfalso; lra.
Qed.

Lemma binary_round_aux_same s x m1 e1 l1 m2 e2 l2 :
  0 <= m1 -> inbetween m1 l1 e1 x -> e1 <= fexp64 (Zdigits2 m1 + e1) ->
  0 <= m2 -> inbetween m2 l2 e2 x -> e2 <= fexp64 (Zdigits2 m2 + e2) ->
  binary_round_aux 53 1024 s m1 e1 l1 = binary_round_aux 53 1024 s m2 e2 l2.
Proof.
  intros Hm1 Hin1 He1 Hm2 Hin2 He2.
  assert (HE : fexp64 (Zdigits2 m1 + e1) = fexp64 (Zdigits2 m2 + e2)).
  { assert (Hstep : forall ma ea la mb eb lb,
        0 <= ma -> inbetween ma la ea x -> ea <= fexp64 (Zdigits2 ma + ea) ->
        0 <= mb -> inbetween mb lb eb x -> eb <= fexp64 (Zdigits2 mb + eb) ->
        fexp64 (Zdigits2 mb + eb) <= fexp64 (Zdigits2 ma + ea)).
    { intros ma ea la mb eb lb Ha Hia Hea Hb Hib Heb.
      destruct (Z_le_gt_dec (fexp64 (Zdigits2 mb + eb)) (fexp64 (Zdigits2 ma + ea)))
        as [|Hgt]; [assumption|exfalso].
      rewrite !fexp64_eq in *.
      destruct (inbetween_bounds _ _ _ _ Hia) as [_ Hhi].
      destruct (inbetween_bounds _ _ _ _ Hib) as [Hlo _].
      pose proof (Zdigits2_nonneg ma) as Hda. pose proof (Zdigits2_nonneg mb) as Hdb.
      assert (Hbpos : 0 < mb).
      { destruct (Z.eq_dec mb 0) as [->|]; [|lia]. cbn [Zdigits2] in *. lia. }
      pose proof (Zdigits2_pos_low mb Hbpos) as Hlow.
      pose proof (Zdigits2_succ_le ma Ha) as Hup.
      apply (inject_Z_pow2_le _ _ eb) in Hlow. rewrite <- pow2_split in Hlow by lia.
      apply (inject_Z_pow2_le _ _ ea) in Hup. rewrite <- pow2_split in Hup by lia.
      rewrite inject_Z_plus in Hup. change (inject_Z 1) with 1%Q in Hup.
      assert (pow2 (Zdigits2 ma + ea) <= pow2 (Zdigits2 mb - 1 + eb))%Q by (apply pow2_le; lia).
      lra. }
    apply Z.le_antisymm; eapply Hstep; eassumption. }
  unfold binary_round_aux, shr_fexp. change (fexp 53 1024) with fexp64.
  rewrite <- HE. set (E := fexp64 (Zdigits2 m1 + e1)) in *.
  destruct (shr_inb x (shr_record_of_loc m1 l1) e1 (E - e1)) as [Hin1' He1'].
  { lia. }
  { unfold inb_rec. destruct (loc_of_shr_record_of_loc m1 l1) as [-> ->]. split; assumption. }
  destruct (shr_inb x (shr_record_of_loc m2 l2) e2 (E - e2)) as [Hin2' He2'].
  { lia. }
  { unfold inb_rec. destruct (loc_of_shr_record_of_loc m2 l2) as [-> ->]. split; assumption. }
  destruct (shr (shr_record_of_loc m1 l1) e1 (E - e1)) as [mrs1 e1'].
  destruct (shr (shr_record_of_loc m2 l2) e2 (E - e2)) as [mrs2 e2'].
  cbn [fst snd] in *.
  replace (e1 + (E - e1)) with E in * by lia. replace (e2 + (E - e2)) with E in * by lia.
  subst e1' e2'.
  destruct Hin1' as [_ H1]. destruct Hin2' as [_ H2].
  destruct (inbetween_unique _ _ _ _ _ _ H1 H2) as [-> ->]. reflexivity.
Qed.

(** The float of a ratio depends on the value of the ratio only. *)
Lemma round_ratio_same s n d n' d' :
  0 < n -> 0 < d -> 0 < n' -> 0 < d' ->
  (inject_Z n / inject_Z d == inject_Z n' / inject_Z d')%Q ->
  round_ratio s n d = round_ratio s n' d'.
Proof.
  intros Hn Hd Hn' Hd' E. unfold round_ratio.
  destruct n as [|p|p]; try lia. destruct n' as [|p'|p']; try lia.
  pose proof (SFdiv_core_binary_spec (Z.pos p) 0 d 0 (inject_Z (Z.pos p) / inject_Z d)
                ltac:(lia) Hd) as S1.
  pose proof (SFdiv_core_binary_spec (Z.pos p') 0 d' 0 (inject_Z (Z.pos p) / inject_Z d)
                ltac:(lia) Hd') as S2.
  destruct (SFdiv_core_binary 53 1024 (Z.pos p) 0 d 0) as [[q e] l].
  destruct (SFdiv_core_binary 53 1024 (Z.pos p') 0 d' 0) as [[q' e'] l'].
  destruct S1 as (A1 & B1 & C1). { change (pow2 (0 - 0)) with 1%Q. ring. }
  destruct S2 as (A2 & B2 & C2). { rewrite E. change (pow2 (0 - 0)) with 1%Q. ring. }
  exact (binary_round_aux_same s _ _ _ _ _ _ _ A1 B1 C1 A2 B2 C2).
Qed.

(** *** A decimal close enough to a float reads as that float *)

(** Two different values of the format are at least one part in [2^53] of
    either apart. *)
Lemma flt_gap m e M F :
  bounded 53 1024 m e = true -> Z.abs M < 2 ^ 53 -> -1074 <= F ->
  ~ (inject_Z M * pow2 F == inject_Z (Z.pos m) * pow2 e)%Q ->
  (inject_Z (Z.pos m) * pow2 e
   <= inject_Z (2 ^ 53) * Qabs (inject_Z M * pow2 F - inject_Z (Z.pos m) * pow2 e))%Q.
Proof.
  intros Hb HM HF Hne. pose proof (bounded_range _ _ Hb) as [Hm He].
  destruct (Z_le_gt_dec e F) as [HeF|HeF].
  - rewrite (pow2_shift M F e HeF) in *. set (W := M * 2 ^ (F - e)) in *.
    pose proof (pow2_pos e) as HP.
    assert (HW : W <> Z.pos m) by (intros E; apply Hne; rewrite E; reflexivity).
    assert (Hd : (inject_Z (W - Z.pos m) * pow2 e
                  == inject_Z W * pow2 e - inject_Z (Z.pos m) * pow2 e)%Q)
      by (rewrite inject_Z_sub; ring).
    rewrite <- Hd.
    assert (H53 : (inject_Z (Z.pos m) < inject_Z (2 ^ 53))%Q) by (rewrite <- Zlt_Qlt; lia).
    change (inject_Z (2 ^ 53)) with 9007199254740992%Q in *.
    destruct (Z_lt_ge_dec W (Z.pos m)) as [Hlt|Hge].
    + assert (G : (inject_Z (W - Z.pos m) <= inject_Z (-1))%Q) by (rewrite <- Zle_Qle; lia).
      change (inject_Z (-1)) with (-1)%Q in G.
      rewrite Qabs_neg by nra. nra.
    + assert (G : (inject_Z 1 <= inject_Z (W - Z.pos m))%Q) by (rewrite <- Zle_Qle; lia).
      change (inject_Z 1) with 1%Q in G.
      rewrite Qabs_pos by nra. nra.
  - pose proof (bounded_normal m e Hb ltac:(lia)) as Hn.
    rewrite (pow2_shift (Z.pos m) e F ltac:(lia)) in *. set (V := Z.pos m * 2 ^ (e - F)) in *.
    pose proof (pow2_pos F) as HP.
    assert (HV : 2 ^ 53 <= V).
    { subst V. assert (2 ^ 1 <= 2 ^ (e - F)) by (apply Z.pow_le_mono_r; lia).
      change (2 ^ 1) with 2 in H. nia. }
    assert (Hd : (inject_Z (M - V) * pow2 F
                  == inject_Z M * pow2 F - inject_Z V * pow2 F)%Q)
      by (rewrite inject_Z_sub; ring).
    rewrite <- Hd.
    assert (Hneg : (inject_Z (M - V) <= 0)%Q)
      by (change 0%Q with (inject_Z 0); rewrite <- Zle_Qle; lia).
    rewrite Qabs_neg by nra.
    assert (G : V <= 2 ^ 53 * (V - M)) by nia.
    rewrite Zle_Qle, inject_Z_mult in G.
    setoid_replace (- (inject_Z (M - V) * pow2 F))%Q with (inject_Z (V - M) * pow2 F)%Q
      by (rewrite !inject_Z_sub; ring).
    rewrite Qmult_assoc. apply Qmult_le_compat_r; [exact G|lra].
Qed.

(** A number within one part in [2^54] of a float rounds to that float. *)
Lemma round_close m e y r :
  bounded 53 1024 m e = true -> round_spec false y r ->
  (inject_Z (2 ^ 54) * Qabs (y - inject_Z (Z.pos m) * pow2 e) < inject_Z (Z.pos m) * pow2 e)%Q ->
  r = S754_finite false m e.
Proof.
  intros Hb R Hc. pose proof (bounded_range _ _ Hb) as [Hm He].
  set (v := (inject_Z (Z.pos m) * pow2 e)%Q) in *.
  assert (Hv0 : (0 < v)%Q).
  { subst v. pose proof (pow2_pos e). assert (0 < inject_Z (Z.pos m))%Q by reflexivity. nra. }
  pose proof (Qabs_nonneg (y - v)) as Hd0.
  change (inject_Z (2 ^ 54)) with 18014398509481984%Q in Hc.
  assert (Hvy : forall t, nearest y t -> (Qabs (t - v) <= 2 * Qabs (y - v))%Q).
  { intros t Ht. specialize (Ht (Z.pos m) e ltac:(lia) ltac:(lia)). fold v in Ht.
    setoid_replace (t - v)%Q with ((t - y) + (y - v))%Q by ring.
    eapply Qle_trans; [apply Qabs_triangle|].
    setoid_replace (v - y)%Q with (- (y - v))%Q in Ht by ring. rewrite Qabs_opp in Ht. lra. }
  destruct R as [H|m' e' Hb' H|t H Ht].
  - exfalso. specialize (Hvy _ H).
    setoid_replace (0 - v)%Q with (- v)%Q in Hvy by ring. rewrite Qabs_opp in Hvy.
    rewrite (Qabs_pos v) in Hvy by lra. lra.
  - pose proof (bounded_range _ _ Hb') as [Hm' He'].
    destruct (Qeq_dec (inject_Z (Z.pos m') * pow2 e') v) as [E|Hne].
    + destruct (bounded_unique _ _ _ _ Hb' Hb E) as [-> ->]. reflexivity.
    + exfalso. pose proof (flt_gap m e (Z.pos m') e' Hb ltac:(lia) ltac:(lia) Hne) as G.
      fold v in G. specialize (Hvy _ H).
      change (inject_Z (2 ^ 53)) with 9007199254740992%Q in G. lra.
  - exfalso. specialize (Hvy _ H).
    pose proof (Qle_Qabs (t - v)) as Hab.
    pose proof (flt_lt_max (Z.pos m) e ltac:(lia) ltac:(lia)) as Hmax. fold v in Hmax.
    assert (Hle : (v <= pow2 1024 - pow2 971)%Q)
      by (apply (finite_nonneg_le_max (S754_finite false m e)); exact Hb).
    assert (Hs : (v < inject_Z (2 ^ 53) * pow2 971)%Q).
    { rewrite <- pow2_split by lia. exact Hmax. }
    change (inject_Z (2 ^ 53)) with 9007199254740992%Q in Hs.
    pose proof (pow2_pos 971). lra.
Qed.

(** *** Decimal digits *)

Lemma digit_value_range c : is_digit c = true -> 0 <= digit_value c <= 9.
Proof.
  unfold is_digit, digit_value. intros H. apply andb_prop in H. destruct H as [H1 H2].
  apply Nat.leb_le in H1, H2. lia.
Qed.

Lemma digits_value_acc s : forall acc,
  digits_value s acc = acc * 10 ^ Z.of_nat (String.length s) + digits_value s 0.
Proof.
  induction s as [|c s IH]; intros acc; cbn [digits_value String.length].
  - cbn. lia.
  - rewrite (IH (acc * 10 + digit_value c)), (IH (0 * 10 + digit_value c)).
    rewrite Nat2Z.inj_succ, Z.pow_succ_r by lia. ring.
Qed.

Lemma digits_value_bound s :
  all_digits s = true -> 0 <= digits_value s 0 < 10 ^ Z.of_nat (String.length s).
Proof.
  induction s as [|c s IH]; cbn [all_digits digits_value String.length]; intros H.
  - cbn. lia.
  - apply andb_prop in H. destruct H as [Hc Hs]. specialize (IH Hs).
    pose proof (digit_value_range c Hc).
    rewrite digits_value_acc, Nat2Z.inj_succ, Z.pow_succ_r by lia.
    assert (0 < 10 ^ Z.of_nat (String.length s)) by (apply Z.pow_pos_nonneg; lia). nia.
Qed.

Lemma digits_value_app a b acc :
  digits_value (a ++ b) acc = digits_value b (digits_value a acc).
Proof. revert acc. induction a as [|c a IH]; intros acc; cbn; [reflexivity|apply IH]. Qed.

Lemma all_digits_app a b : all_digits (a ++ b) = all_digits a && all_digits b.
Proof. induction a as [|c a IH]; cbn; [reflexivity|now rewrite IH, andb_assoc]. Qed.

Lemma string_of_uint_digits d :
  all_digits (NilEmpty.string_of_uint d) = true /\
  String.length (NilEmpty.string_of_uint d) = Decimal.nb_digits d.
Proof.
  induction d as [|d IHd|d IHd|d IHd|d IHd|d IHd|d IHd|d IHd|d IHd|d IHd|d IHd]; cbn;
    [split; reflexivity|destruct IHd as [-> ->]; split; reflexivity ..].
Qed.

Lemma digits_value_uint_acc d : forall acc : positive,
  digits_value (NilEmpty.string_of_uint d) (Z.pos acc) = Z.pos (Pos.of_uint_acc d acc).
Proof.
  induction d as [|d IHd|d IHd|d IHd|d IHd|d IHd|d IHd|d IHd|d IHd|d IHd|d IHd]; intros acc;
    cbn [NilEmpty.string_of_uint digits_value Pos.of_uint_acc];
    try reflexivity; rewrite <- IHd; f_equal;
    match goal with
    | |- context [digit_value ?c] =>
        let v := eval vm_compute in (digit_value c) in change (digit_value c) with v
    end; lia.
Qed.

Lemma digits_value_uint d :
  digits_value (NilEmpty.string_of_uint d) 0 = Z.of_N (Pos.of_uint d).
Proof.
  induction d as [|d IHd|d IHd|d IHd|d IHd|d IHd|d IHd|d IHd|d IHd|d IHd|d IHd]; cbn [NilEmpty.string_of_uint digits_value Pos.of_uint];
    try reflexivity; try exact IHd; cbn [Z.of_N]; rewrite <- digits_value_uint_acc; reflexivity.
Qed.

Lemma str_of_Z_pos p : str_of_Z (Z.pos p) = NilEmpty.string_of_uint (Pos.to_uint p).
Proof.
  unfold str_of_Z. cbn [Z.to_int NilZero.string_of_int].
  pose proof (DecimalPos.Unsigned.to_uint_nonnil p) as H.
  unfold NilZero.string_of_uint. destruct (Pos.to_uint p); [contradiction|reflexivity ..].
Qed.

(** The decimal text of a positive integer: digits only, the first one not
    a zero, denoting the integer. *)
Lemma str_of_Z_digits p :
  all_digits (str_of_Z (Z.pos p)) = true /\
  digits_value (str_of_Z (Z.pos p)) 0 = Z.pos p /\
  exists c s, str_of_Z (Z.pos p) = String c s /\ 1 <= digit_value c.
Proof.
  rewrite str_of_Z_pos. split; [apply string_of_uint_digits|]. split.
  - rewrite digits_value_uint, DecimalPos.Unsigned.of_to. reflexivity.
  - pose proof (DecimalPos.Unsigned.to_of (Pos.to_uint p)) as Hn.
    rewrite DecimalPos.Unsigned.of_to in Hn. cbn [N.to_uint] in Hn.
    pose proof (DecimalPos.Unsigned.to_uint_nonzero p) as Hz.
    assert (Hh : Decimal.nzhead (Pos.to_uint p) = Pos.to_uint p).
    { assert (Hnn : Decimal.nzhead (Pos.to_uint p) <> Decimal.Nil).
      { intros E. apply Hz. rewrite Hn. unfold Decimal.unorm. now rewrite E. }
      transitivity (Decimal.unorm (Pos.to_uint p));
        [symmetry; now apply DecimalFacts.unorm_nzhead|symmetry; exact Hn]. }
    pose proof (DecimalFacts.nzhead_nonzero (Pos.to_uint p)) as Hnz. rewrite Hh in Hnz.
    pose proof (DecimalPos.Unsigned.to_uint_nonnil p) as Hnil.
    destruct (Pos.to_uint p) as [|u|u|u|u|u|u|u|u|u|u];
      [contradiction|exfalso; now apply (Hnz u)| | | | | | | | |];
      cbn [NilEmpty.string_of_uint]; eexists _, _; (split; [reflexivity|]);
      apply Z.leb_le; vm_compute; reflexivity.
Qed.

Lemma ndigits10_length p :
  ndigits10 (Z.pos p) = Z.of_nat (String.length (str_of_Z (Z.pos p))).
Proof.
  cbn [ndigits10]. rewrite str_of_Z_pos. now rewrite (proj2 (string_of_uint_digits _)).
Qed.

Lemma ndigits10_spec n :
  0 < n -> 1 <= ndigits10 n /\ 10 ^ (ndigits10 n - 1) <= n < 10 ^ ndigits10 n.
Proof.
  destruct n as [|p|p]; try lia. intros _.
  rewrite ndigits10_length.
  destruct (str_of_Z_digits p) as (Hall & Hval & c & s & Hs & Hc).
  pose proof (digits_value_bound _ Hall) as Hb. rewrite Hval in Hb.
  rewrite Hs in *. cbn [String.length] in *. rewrite Nat2Z.inj_succ in *.
  split; [lia|]. split; [|lia].
  replace (Z.succ (Z.of_nat (String.length s)) - 1) with (Z.of_nat (String.length s)) by lia.
  cbn [digits_value] in Hval. rewrite digits_value_acc in Hval.
  cbn [all_digits] in Hall. apply andb_prop in Hall. destruct Hall as [_ Hall].
  pose proof (digits_value_bound _ Hall).
  assert (0 < 10 ^ Z.of_nat (String.length s)) by (apply Z.pow_pos_nonneg; lia). nia.
Qed.

(** The decimal exponent is not above the true one. *)
Lemma decimal_exponent_low n d :
  0 < n -> 0 < d ->
  let k := decimal_exponent n d in
  d * 10 ^ Z.max k 0 <= n * 10 ^ Z.max (- k) 0.
Proof.
  intros Hn Hd. unfold decimal_exponent.
  destruct (ndigits10_spec n Hn) as (Hn1 & Hnlo & Hnhi).
  destruct (ndigits10_spec d Hd) as (Hd1 & Hdlo & Hdhi).
  set (a := ndigits10 n) in *. set (b := ndigits10 d) in *.
  destruct (Z.leb_spec (d * 10 ^ Z.max (a - b) 0) (n * 10 ^ Z.max (- (a - b)) 0)) as [H|H];
    cbv zeta; [exact H|].
  destruct (Z_le_gt_dec 0 (a - b - 1)) as [Hk|Hk].
  - rewrite Z.max_l, Z.max_r by lia. rewrite Z.pow_0_r, Z.mul_1_r.
    assert (E : 10 ^ (a - 1) = 10 ^ b * 10 ^ (a - b - 1)).
    { rewrite <- Z.pow_add_r by lia. f_equal. lia. }
    assert (0 < 10 ^ (a - b - 1)) by (apply Z.pow_pos_nonneg; lia). nia.
  - rewrite Z.max_r, Z.max_l by lia. rewrite Z.pow_0_r, Z.mul_1_r.
    assert (E : 10 ^ b = 10 ^ (a - 1) * 10 ^ (- (a - b - 1))).
    { rewrite <- Z.pow_add_r by lia. f_equal. lia. }
    assert (0 < 10 ^ (- (a - b - 1))) by (apply Z.pow_pos_nonneg; lia).
    assert (0 < 10 ^ (a - 1)) by (apply Z.pow_pos_nonneg; lia). nia.
Qed.

(** *** Powers of ten *)

Lemma pow10_pos k : (0 < pow10 k)%Q.
Proof. apply Qpower_0_lt. reflexivity. Qed.

Lemma pow10_add a b : (pow10 (a + b) == pow10 a * pow10 b)%Q.
Proof. apply Qpower_plus. discriminate. Qed.

Lemma pow10_Z n : 0 <= n -> (pow10 n == inject_Z (10 ^ n))%Q.
Proof. intros. unfold pow10. rewrite Zpower_Qpower by assumption. reflexivity. Qed.

Lemma pow10_ratio z :
  (inject_Z (10 ^ Z.max z 0) / inject_Z (10 ^ Z.max (- z) 0) == pow10 z)%Q.
Proof.
  destruct (Z_le_gt_dec 0 z) as [H|H].
  - rewrite Z.max_l, Z.max_r by lia. rewrite pow10_Z by lia.
    change (inject_Z (10 ^ 0)) with 1%Q. field.
  - rewrite Z.max_r, Z.max_l by lia. change (inject_Z (10 ^ 0)) with 1%Q.
    rewrite <- (pow10_Z (- z)) by lia.
    pose proof (pow10_add z (- z)) as E. replace (z + - z) with 0 in E by lia.
    change (pow10 0) with 1%Q in E. pose proof (pow10_pos (- z)).
    apply (Qmult_inj_r _ _ (pow10 (- z))); [lra|]. rewrite <- E. field. lra.
Qed.

Lemma pow2_ratio m e :
  (inject_Z (Z.pos m * 2 ^ Z.max e 0) / inject_Z (2 ^ Z.max (- e) 0)
   == inject_Z (Z.pos m) * pow2 e)%Q.
Proof.
  rewrite inject_Z_mult. destruct (Z_le_gt_dec 0 e) as [H|H].
  - rewrite Z.max_l, Z.max_r by lia. rewrite pow2_Z by lia.
    change (inject_Z (2 ^ 0)) with 1%Q. field.
  - rewrite Z.max_r, Z.max_l by lia. change (inject_Z (2 ^ 0)) with 1%Q.
    rewrite pow2_neg by lia. pose proof (inject_Z_pow2_pos (- e) ltac:(lia)). field. lra.
Qed.

Lemma pos_pow n b : 0 < b -> 0 < b ^ Z.max n 0.
Proof. intros. apply Z.pow_pos_nonneg; lia. Qed.

Lemma float_eqb_true x y : float_eqb x y = true -> x = y.
Proof.
  destruct x as [s|s| |s m e]; destruct y as [s'|s'| |s' m' e']; cbn [float_eqb];
    try discriminate; intros H.
  - apply Bool.eqb_prop in H. now subst.
  - apply Bool.eqb_prop in H. now subst.
  - reflexivity.
  - apply andb_prop in H. destruct H as [H He]. apply andb_prop in H. destruct H as [Hs Hm].
    apply Bool.eqb_prop in Hs. apply Pos.eqb_eq in Hm. apply Z.eqb_eq in He. now subst.
Qed.

Lemma float_eqb_refl m e :
  float_eqb (S754_finite false m e) (S754_finite false m e) = true.
Proof. cbn [float_eqb Bool.eqb]. now rewrite Pos.eqb_refl, Z.eqb_refl. Qed.

(** The value of the ratio that [decimal_to_float] rounds. *)
Lemma decimal_ratio c k :
  (inject_Z (c * 10 ^ Z.max k 0) / inject_Z (10 ^ Z.max (- k) 0) == inject_Z c * pow10 k)%Q.
Proof.
  rewrite inject_Z_mult, <- pow10_ratio.
  assert (0 < inject_Z (10 ^ Z.max (- k) 0))%Q.
  { change 0%Q with (inject_Z 0). rewrite <- Zlt_Qlt. now apply pos_pow. }
  field. lra.
Qed.

Lemma decimal_to_float_spec c k :
  0 < c -> round_spec false (inject_Z c * pow10 k) (decimal_to_float false c k).
Proof.
  intros Hc. unfold decimal_to_float.
  apply (round_spec_ext _ _ _ _ (decimal_ratio c k)).
  apply round_ratio_spec; [|now apply pos_pow].
  pose proof (pos_pow k 10 ltac:(lia)). nia.
Qed.

(** Two decimals with the same value read as the same float. *)
Lemma decimal_to_float_same s c k c' k' :
  0 < c -> 0 < c' -> (inject_Z c * pow10 k == inject_Z c' * pow10 k')%Q ->
  decimal_to_float s c k = decimal_to_float s c' k'.
Proof.
  intros Hc Hc' E. unfold decimal_to_float. apply round_ratio_same.
  - pose proof (pos_pow k 10 ltac:(lia)). nia.
  - now apply pos_pow.
  - pose proof (pos_pow k' 10 ltac:(lia)). nia.
  - now apply pos_pow.
  - now rewrite !decimal_ratio.
Qed.

Lemma Qdiv_floor_bounds a b q :
  0 < b -> q * b <= a < (q + 1) * b ->
  (inject_Z q <= inject_Z a / inject_Z b)%Q /\ (inject_Z a / inject_Z b < inject_Z q + 1)%Q.
Proof.
  intros Hb [H1 H2].
  assert (HbQ : (0 < inject_Z b)%Q) by (change 0%Q with (inject_Z 0); rewrite <- Zlt_Qlt; lia).
  rewrite Zle_Qle, inject_Z_mult in H1.
  rewrite Zlt_Qlt, inject_Z_mult, inject_Z_plus in H2. change (inject_Z 1) with 1%Q in H2.
  split.
  - apply Qle_shift_div_l; assumption.
  - apply Qlt_shift_div_r; assumption.
Qed.

(** Seventeen significant digits always suffice: of the two decimals of
    seventeen digits around a float, the nearer one reads as the float. *)
Lemma seventeen_digits m e :
  bounded 53 1024 m e = true ->
  let n := Z.pos m * 2 ^ Z.max e 0 in
  let d := 2 ^ Z.max (- e) 0 in
  let k := decimal_exponent n d + 1 - 17 in
  let num := n * 10 ^ Z.max (- k) 0 in
  let den := d * 10 ^ Z.max k 0 in
  decimal_to_float false (num / den) k = S754_finite false m e \/
  decimal_to_float false (num / den + 1) k = S754_finite false m e.
Proof.
  intros Hb n d k num den.
  assert (Hn : 0 < n) by (subst n; pose proof (pos_pow e 2 ltac:(lia)); nia).
  assert (Hd : 0 < d) by (subst d; now apply pos_pow).
  pose proof (decimal_exponent_low n d Hn Hd) as Hlow. cbv zeta in Hlow.
  set (dx := decimal_exponent n d) in *.
  set (v := (inject_Z (Z.pos m) * pow2 e)%Q).
  assert (Hv : (inject_Z n / inject_Z d == v)%Q) by apply pow2_ratio.
  assert (HdQ : (0 < inject_Z d)%Q) by (change 0%Q with (inject_Z 0); rewrite <- Zlt_Qlt; lia).
  assert (Hv0 : (0 < v)%Q).
  { subst v. pose proof (pow2_pos e). assert (0 < inject_Z (Z.pos m))%Q by reflexivity. nra. }
  (* the decimal exponent is not above the true one *)
  assert (Hdx : (pow10 dx <= v)%Q).
  { rewrite <- pow10_ratio, <- Hv.
    assert (HB : (0 < inject_Z (10 ^ Z.max (- dx) 0))%Q).
    { change 0%Q with (inject_Z 0). rewrite <- Zlt_Qlt. now apply pos_pow. }
    apply Qle_shift_div_r; [exact HB|].
    setoid_replace (inject_Z n / inject_Z d * inject_Z (10 ^ Z.max (- dx) 0))%Q
      with (inject_Z (n * 10 ^ Z.max (- dx) 0) / inject_Z d)%Q
      by (rewrite inject_Z_mult; field; lra).
    apply Qle_shift_div_l; [exact HdQ|].
    rewrite <- inject_Z_mult, <- Zle_Qle. lia. }
  set (P := pow10 k). assert (HP : (0 < P)%Q) by apply pow10_pos.
  assert (HP16 : (P * 10000000000000000 == pow10 dx)%Q).
  { subst P. replace dx with (k + 16) by (subst k; lia). rewrite pow10_add.
    rewrite (pow10_Z 16) by lia. reflexivity. }
  (* the quotient of the search is v / 10^k *)
  set (t := (v * pow10 (- k))%Q).
  assert (Ht : (t * P == v)%Q).
  { subst t P. rewrite <- Qmult_assoc, <- pow10_add. replace (- k + k) with 0 by lia.
    change (pow10 0) with 1%Q. ring. }
  assert (Hden : 0 < den) by (subst den; pose proof (pos_pow k 10 ltac:(lia)); nia).
  assert (Hq : (inject_Z num / inject_Z den == t)%Q).
  { subst num den t. rewrite <- Hv, <- (pow10_ratio (- k)). rewrite Z.opp_involutive.
    rewrite !inject_Z_mult.
    assert (0 < inject_Z (10 ^ Z.max k 0))%Q.
    { change 0%Q with (inject_Z 0). rewrite <- Zlt_Qlt. now apply pos_pow. }
    field. split; lra. }
  set (lo := num / den).
  assert (Hlo : lo * den <= num < (lo + 1) * den).
  { subst lo. pose proof (Z.div_mod num den ltac:(lia)).
    pose proof (Z.mod_pos_bound num den Hden). nia. }
  destruct (Qdiv_floor_bounds num den lo Hden Hlo) as [Hf1 Hf2]. rewrite Hq in Hf1, Hf2.
  assert (Hlo16 : 10000000000000000 <= lo).
  { assert (G : (10000000000000000 <= t)%Q).
    { assert (P * 10000000000000000 <= t * P)%Q by (rewrite Ht, HP16; exact Hdx). nra. }
    assert (G' : (inject_Z 10000000000000000 < inject_Z (lo + 1))%Q).
    { rewrite inject_Z_plus. change (inject_Z 1) with 1%Q.
      change (inject_Z 10000000000000000) with 10000000000000000%Q. lra. }
    rewrite <- Zlt_Qlt in G'. lia. }
  assert (Hclose : forall c : Z, 0 < c -> (2 * Qabs (inject_Z c - t) <= 1)%Q ->
            decimal_to_float false c k = S754_finite false m e).
  { intros c Hc Hct.
    apply (round_close m e (inject_Z c * pow10 k)); [exact Hb|now apply decimal_to_float_spec|].
    fold v P. change (inject_Z (2 ^ 54)) with 18014398509481984%Q.
    setoid_replace (inject_Z c * P - v)%Q with ((inject_Z c - t) * P)%Q
      by (rewrite <- Ht; ring).
    rewrite Qabs_Qmult, (Qabs_pos P) by lra.
    pose proof (Qabs_nonneg (inject_Z c - t)). nra. }
  destruct (Qlt_le_dec (1 # 2) (t - inject_Z lo)) as [Hhalf|Hhalf].
  - right. apply Hclose; [lia|]. rewrite inject_Z_plus. change (inject_Z 1) with 1%Q.
    rewrite Qabs_pos by lra. lra.
  - left. apply Hclose; [lia|]. rewrite Qabs_neg by lra. lra.
Qed.

Lemma rne_div_cases n d : rne_div n d = n / d \/ rne_div n d = n / d + 1.
Proof.
  unfold rne_div. destruct (2 * (n mod d) ?= d); [destruct (Z.even (n / d))| |]; auto.
Qed.

Lemma shortest_decimal_step fuel nd m e :
  shortest_decimal (S fuel) nd m e =
  let n := Z.pos m * 2 ^ Z.max e 0 in
  let d := 2 ^ Z.max (- e) 0 in
  let k := decimal_exponent n d + 1 - nd in
  let num := n * 10 ^ Z.max (- k) 0 in
  let den := d * 10 ^ Z.max k 0 in
  let lo := num / den in
  let hi := lo + 1 in
  let x := S754_finite false m e in
  let ok_lo := float_eqb (decimal_to_float false lo k) x in
  let ok_hi := float_eqb (decimal_to_float false hi k) x in
  if ok_lo && ok_hi then (rne_div num den, k)
  else if ok_lo then (lo, k)
  else if ok_hi then (hi, k)
  else shortest_decimal fuel (nd + 1) m e.
Proof. reflexivity. Qed.

(** The search for the shortest decimal ends with a decimal that reads as
    the float. *)
Lemma shortest_decimal_ok m e :
  bounded 53 1024 m e = true ->
  forall (fuel : nat) (nd : Z),
    (1 <= fuel)%nat -> nd + Z.of_nat fuel = 18 ->
    decimal_to_float false (fst (shortest_decimal fuel nd m e))
                     (snd (shortest_decimal fuel nd m e)) = S754_finite false m e.
Proof.
  intros Hb fuel. induction fuel as [|fuel IH]; intros nd Hf Hnd; [lia|].
  rewrite shortest_decimal_step. cbv zeta.
  set (n := Z.pos m * 2 ^ Z.max e 0). set (d := 2 ^ Z.max (- e) 0).
  set (k := decimal_exponent n d + 1 - nd).
  set (num := n * 10 ^ Z.max (- k) 0). set (den := d * 10 ^ Z.max k 0).
  destruct (float_eqb (decimal_to_float false (num / den) k) (S754_finite false m e)) eqn:Elo;
    destruct (float_eqb (decimal_to_float false (num / den + 1) k) (S754_finite false m e))
      eqn:Ehi; cbn [andb fst snd].
  - destruct (rne_div_cases num den) as [->| ->]; now apply float_eqb_true.
  - now apply float_eqb_true.
  - now apply float_eqb_true.
  - destruct fuel as [|fuel'].
    + exfalso. assert (nd = 17) by lia. subst nd.
      destruct (seventeen_digits m e Hb) as [H|H]; cbv zeta in H; fold n d k num den in H.
      * rewrite H, float_eqb_refl in Elo. discriminate.
      * rewrite H, float_eqb_refl in Ehi. discriminate.
    + apply IH; lia.
Qed.

(** Trailing zeros are dropped without changing the value. *)
Lemma strip_zeros_value fuel : forall c k,
  0 < c ->
  0 < fst (strip_zeros fuel c k) /\
  (inject_Z (fst (strip_zeros fuel c k)) * pow10 (snd (strip_zeros fuel c k))
   == inject_Z c * pow10 k)%Q.
Proof.
  induction fuel as [|fuel IH]; intros c k Hc; cbn [strip_zeros].
  - split; [exact Hc|reflexivity].
  - destruct ((c mod 10 =? 0) && (0 <? c)) eqn:E; cbn [fst snd].
    + apply andb_prop in E. destruct E as [E _]. apply Z.eqb_eq in E.
      pose proof (Z.div_mod c 10 ltac:(lia)) as Hdm.
      destruct (IH (c / 10) (k + 1) ltac:(lia)) as [H1 H2]. split; [exact H1|].
      rewrite H2, pow10_add. change (pow10 1) with 10%Q.
      replace c with (10 * (c / 10)) at 2 by lia. rewrite inject_Z_mult.
      change (inject_Z 10) with 10%Q. ring.
    + split; [exact Hc|reflexivity].
Qed.

(** The digits that [repr] lays out denote the float. *)
Lemma repr_digits_ok m e :
  bounded 53 1024 m e = true ->
  let ck := shortest_decimal 17 1 m e in
  let ck' := strip_zeros 20 (fst ck) (snd ck) in
  0 < fst ck' /\ decimal_to_float false (fst ck') (snd ck') = S754_finite false m e.
Proof.
  intros Hb ck ck'.
  pose proof (shortest_decimal_ok m e Hb 17 1 ltac:(lia) ltac:(lia)) as H. fold ck in H.
  assert (Hc : 0 < fst ck).
  { destruct (Z_lt_le_dec 0 (fst ck)) as [|Hle]; [assumption|exfalso].
    unfold decimal_to_float, round_ratio in H.
    destruct (fst ck * 10 ^ Z.max (snd ck) 0) as [|p|p] eqn:E; try discriminate.
    pose proof (pos_pow (snd ck) 10 ltac:(lia)). nia. }
  destruct (strip_zeros_value 20 (fst ck) (snd ck) Hc) as [H1 H2]. fold ck' in H1, H2.
  split; [exact H1|]. rewrite <- H. now apply decimal_to_float_same.
Qed.

(** *** Reading the text back *)

Lemma is_digit_cases c :
  is_digit c = true ->
  In c ["0"; "1"; "2"; "3"; "4"; "5"; "6"; "7"; "8"; "9"]%char.
Proof.
  destruct c as [[] [] [] [] [] [] [] []]; cbn; intros H; try discriminate; tauto.
Qed.

Ltac digit_cases c H :=
  apply is_digit_cases in H; cbn [In] in H;
  repeat (destruct H as [H|H]; [subst c|]); [..|contradiction].

Lemma digit_not_space c : is_digit c = true -> is_space c = false.
Proof. intros H. digit_cases c H; reflexivity. Qed.

Lemma digit_not_underscore c : is_digit c = true -> Ascii.eqb c "_" = false.
Proof. intros H. digit_cases c H; reflexivity. Qed.

Lemma read_sign_digit c r : is_digit c = true -> read_sign (String c r) = (false, String c r).
Proof. intros H. digit_cases c H; reflexivity. Qed.

Lemma digit_not_word c r :
  is_digit c = true ->
  let low := lower_string (String c r) in
  String.eqb low "inf" || String.eqb low "infinity" = false /\ String.eqb low "nan" = false.
Proof. intros H. digit_cases c H; split; reflexivity. Qed.

(** A run of digits is read up to the first character that is neither a
    digit nor an underscore. *)
Lemma read_digits_run a : forall rest acc cnt prev,
  all_digits a = true -> a <> "" ->
  match rest with
  | EmptyString => True
  | String c _ => is_digit c = false /\ Ascii.eqb c "_" = false
  end ->
  read_digits (a ++ rest) acc cnt prev
  = (digits_value a acc, cnt + Z.of_nat (String.length a), rest).
Proof.
  induction a as [|x a IH]; intros rest acc cnt prev Ha Hne Hrest; [contradiction|].
  cbn [all_digits] in Ha. apply andb_prop in Ha. destruct Ha as [Hx Ha].
  cbn [append read_digits digits_value String.length]. rewrite Hx.
  destruct a as [|y a'].
  - cbn [append digits_value String.length].
    replace (cnt + Z.of_nat 1) with (cnt + 1) by lia.
    destruct rest as [|c r]; cbn [read_digits]; [reflexivity|].
    destruct Hrest as [-> ->]. reflexivity.
  - rewrite (IH rest _ _ true Ha ltac:(discriminate) Hrest). f_equal. f_equal.
    rewrite !Nat2Z.inj_succ. lia.
Qed.

(** *** Stripping blanks *)

Lemma string_rev_append_app a : forall b acc,
  string_rev_append (a ++ b) acc = string_rev_append b (string_rev_append a acc).
Proof. induction a as [|c a IH]; intros b acc; cbn; [reflexivity|apply IH]. Qed.

Lemma string_rev_append_twice s : forall acc acc',
  string_rev_append (string_rev_append s acc) acc' = string_rev_append acc (s ++ acc').
Proof.
  induction s as [|c s IH]; intros acc acc'; cbn [string_rev_append append]; [reflexivity|].
  rewrite IH. reflexivity.
Qed.

Lemma string_rev_involutive s : string_rev (string_rev s) = s.
Proof.
  unfold string_rev. rewrite string_rev_append_twice. cbn. apply string_app_nil_r.
Qed.

(** A string that neither begins nor ends with a blank is not changed. *)
Lemma strip_no_blank c0 s0 s1 c1 :
  is_space c0 = false -> is_space c1 = false ->
  String c0 s0 = s1 ++ String c1 "" ->
  strip (String c0 s0) = String c0 s0.
Proof.
  intros H0 H1 E.
  assert (L0 : lstrip (String c0 s0) = String c0 s0) by (cbn [lstrip]; now rewrite H0).
  assert (R : string_rev (String c0 s0) = String c1 (string_rev s1)).
  { rewrite E. unfold string_rev. rewrite string_rev_append_app. reflexivity. }
  unfold strip. rewrite L0, R. cbn [lstrip]. rewrite H1, <- R.
  apply string_rev_involutive.
Qed.

(** A run of digits that is not empty ends with a digit. *)
Lemma digits_last a :
  all_digits a = true -> a <> "" ->
  exists a' c, a = a' ++ String c "" /\ is_digit c = true.
Proof.
  induction a as [|x a IH]; intros Ha Hne; [contradiction|].
  cbn [all_digits] in Ha. apply andb_prop in Ha. destruct Ha as [Hx Ha].
  destruct a as [|y a'].
  - exists "", x. split; [reflexivity|exact Hx].
  - destruct (IH Ha ltac:(discriminate)) as (b & c & E & Hc).
    exists (String x b), c. split; [|exact Hc]. cbn [append]. now rewrite <- E.
Qed.

(** *** The exponent part *)

Lemma read_exponent_none : read_exponent "" = Some 0.
Proof. reflexivity. Qed.

Lemma read_exponent_digits (neg : bool) D :
  all_digits D = true -> D <> "" ->
  read_exponent ("e" ++ (if neg then "-" else "+") ++ D)
  = Some (if neg then - digits_value D 0 else digits_value D 0).
Proof.
  intros HD Hne. cbn [append read_exponent]. change (Ascii.eqb (lower "e") "e") with true.
  cbv iota.
  assert (Hs : read_sign ((if neg then "-" else "+") ++ D) = (neg, D))
    by (destruct neg; reflexivity).
  rewrite Hs.
  pose proof (read_digits_run D "" 0 0 false HD Hne I) as R.
  rewrite string_app_nil_r in R. rewrite R.
  assert ((0 <? 0 + Z.of_nat (String.length D)) = true).
  { apply Z.ltb_lt. destruct D; [contradiction|]. cbn [String.length]. lia. }
  rewrite H. reflexivity.
Qed.

(** *** A signed decimal literal *)

Lemma strip_ends_digits pre D c0 s0 :
  all_digits D = true -> D <> "" ->
  pre ++ D = String c0 s0 -> is_space c0 = false ->
  strip (pre ++ D) = pre ++ D.
Proof.
  intros HD Hne E H0. destruct (digits_last D HD Hne) as (D' & c & ED & Hc).
  rewrite E. apply (strip_no_blank c0 s0 (pre ++ D') c H0 (digit_not_space c Hc)).
  rewrite <- E, ED. now rewrite string_app_assoc.
Qed.

(** [float] of a text made of an optional minus sign and a body that
    begins and ends with a digit is what [read_decimal] makes of the
    body. *)
Lemma float_of_string_body (neg : bool) pre D c0 r f :
  pre ++ D = String c0 r -> is_digit c0 = true ->
  all_digits D = true -> D <> "" ->
  read_decimal neg (pre ++ D) = Some f ->
  float_of_string ((if neg then "-" else "") ++ pre ++ D) = Ok f.
Proof.
  intros E H0 HD Hne Hr. unfold float_of_string.
  assert (Hstrip : strip ((if neg then "-" else "") ++ pre ++ D)
                   = (if neg then "-" else "") ++ pre ++ D).
  { destruct neg.
    - rewrite <- string_app_assoc.
      apply (strip_ends_digits ("-" ++ pre) D "-" (pre ++ D) HD Hne);
        [now rewrite string_app_assoc|reflexivity].
    - cbn [append]. apply (strip_ends_digits pre D c0 r HD Hne E).
      now apply digit_not_space. }
  rewrite Hstrip.
  assert (Hsign : read_sign ((if neg then "-" else "") ++ pre ++ D) = (neg, pre ++ D)).
  { destruct neg; [reflexivity|]. cbn [append]. rewrite E. now apply read_sign_digit. }
  rewrite Hsign. cbv zeta.
  destruct (digit_not_word c0 r H0) as [W1 W2]. cbv zeta in W1, W2.
  rewrite <- E in W1, W2. rewrite W1, W2, Hr. reflexivity.
Qed.

(** The value read from digits, a point and digits, with or without an
    exponent part [T]. *)
Lemma read_decimal_point (neg : bool) I F T exv :
  all_digits I = true -> I <> "" -> all_digits F = true -> F <> "" ->
  match T with
  | EmptyString => True
  | String c _ => is_digit c = false /\ Ascii.eqb c "_" = false
  end ->
  read_exponent T = Some exv ->
  read_decimal neg (I ++ "." ++ F ++ T)
  = Some (decimal_to_float neg (digits_value (I ++ F) 0) (exv - Z.of_nat (String.length F))).
Proof.
  intros HI HIne HF HFne HT Hex. unfold read_decimal.
  rewrite (read_digits_run I ("." ++ F ++ T) 0 0 false HI HIne); [|split; reflexivity].
  cbn [append]. rewrite (read_digits_run F T _ 0 false HF HFne HT).
  assert (Hpos : (0 <? 0 + Z.of_nat (String.length I) + (0 + Z.of_nat (String.length F))) = true).
  { apply Z.ltb_lt. destruct I; [contradiction|]. cbn [String.length]. lia. }
  rewrite Hpos, Hex, digits_value_app. reflexivity.
Qed.

(** The value read from digits followed by an exponent part. *)
Lemma read_decimal_nopoint (neg sg : bool) I D :
  all_digits I = true -> I <> "" -> all_digits D = true -> D <> "" ->
  read_decimal neg (I ++ "e" ++ (if sg then "-" else "+") ++ D)
  = Some (decimal_to_float neg (digits_value I 0)
            (if sg then - digits_value D 0 else digits_value D 0)).
Proof.
  intros HI HIne HD HDne. unfold read_decimal.
  rewrite (read_digits_run I ("e" ++ (if sg then "-" else "+") ++ D) 0 0 false HI HIne);
    [|split; reflexivity].
  cbn [append]. 
  assert (Hpos : (0 <? 0 + Z.of_nat (String.length I) + 0) = true).
  { apply Z.ltb_lt. destruct I; [contradiction|]. cbn [String.length]. lia. }
  rewrite Hpos.
  change (String "e" ((if sg then "-" else "+") ++ D))
    with ("e" ++ (if sg then "-" else "+") ++ D).
  rewrite (read_exponent_digits sg D HD HDne). now rewrite Z.sub_0_r.
Qed.

Lemma float_of_string_fixed (neg : bool) I F :
  all_digits I = true -> I <> "" -> all_digits F = true -> F <> "" ->
  float_of_string ((if neg then "-" else "") ++ I ++ "." ++ F)
  = Ok (decimal_to_float neg (digits_value (I ++ F) 0) (0 - Z.of_nat (String.length F))).
Proof.
  intros HI HIne HF HFne.
  pose proof (read_decimal_point neg I F "" 0 HI HIne HF HFne Logic.I eq_refl) as R.
  rewrite string_app_nil_r in R.
  destruct I as [|c0 I']; [contradiction|].
  assert (H0 : is_digit c0 = true)
    by (cbn [all_digits] in HI; apply andb_prop in HI; tauto).
  assert (E : String c0 I' ++ "." ++ F = (String c0 I' ++ ".") ++ F)
    by now rewrite string_app_assoc.
  rewrite E in R |- *.
  apply (float_of_string_body neg (String c0 I' ++ ".") F c0 ((I' ++ ".") ++ F));
    [reflexivity|assumption..].
Qed.

Lemma float_of_string_sci_point (neg sg : bool) I F D :
  all_digits I = true -> I <> "" -> all_digits F = true -> F <> "" ->
  all_digits D = true -> D <> "" ->
  float_of_string ((if neg then "-" else "") ++ I ++ "." ++ F
                   ++ "e" ++ (if sg then "-" else "+") ++ D)
  = Ok (decimal_to_float neg (digits_value (I ++ F) 0)
          ((if sg then - digits_value D 0 else digits_value D 0)
           - Z.of_nat (String.length F))).
Proof.
  intros HI HIne HF HFne HD HDne.
  pose proof (read_decimal_point neg I F ("e" ++ (if sg then "-" else "+") ++ D) _
                HI HIne HF HFne (conj eq_refl eq_refl)
                (read_exponent_digits sg D HD HDne)) as R.
  destruct I as [|c0 I']; [contradiction|].
  assert (H0 : is_digit c0 = true)
    by (cbn [all_digits] in HI; apply andb_prop in HI; tauto).
  assert (E : String c0 I' ++ "." ++ F ++ "e" ++ (if sg then "-" else "+") ++ D
              = (String c0 I' ++ "." ++ F ++ "e" ++ (if sg then "-" else "+")) ++ D)
    by now rewrite !string_app_assoc.
  rewrite E in R |- *.
  apply (float_of_string_body neg _ D c0
           ((I' ++ "." ++ F ++ "e" ++ (if sg then "-" else "+")) ++ D));
    [reflexivity|assumption..].
Qed.

Lemma float_of_string_sci_nopoint (neg sg : bool) I D :
  all_digits I = true -> I <> "" -> all_digits D = true -> D <> "" ->
  float_of_string ((if neg then "-" else "") ++ I
                   ++ "e" ++ (if sg then "-" else "+") ++ D)
  = Ok (decimal_to_float neg (digits_value I 0)
          (if sg then - digits_value D 0 else digits_value D 0)).
Proof.
  intros HI HIne HD HDne.
  pose proof (read_decimal_nopoint neg sg I D HI HIne HD HDne) as R.
  destruct I as [|c0 I']; [contradiction|].
  assert (H0 : is_digit c0 = true)
    by (cbn [all_digits] in HI; apply andb_prop in HI; tauto).
  assert (E : String c0 I' ++ "e" ++ (if sg then "-" else "+") ++ D
              = (String c0 I' ++ "e" ++ (if sg then "-" else "+")) ++ D)
    by now rewrite !string_app_assoc.
  rewrite E in R |- *.
  apply (float_of_string_body neg _ D c0
           ((I' ++ "e" ++ (if sg then "-" else "+")) ++ D));
    [reflexivity|assumption..].
Qed.

(** *** Runs of zeros and pieces of a digit string *)

Lemma zeros_step n : zeros (S n) = String "0" (zeros n).
Proof. reflexivity. Qed.

Lemma zeros_digits n : all_digits (zeros n) = true.
Proof.
  induction n as [|n IH]; [reflexivity|].
  rewrite zeros_step. cbn [all_digits]. now rewrite IH.
Qed.

Lemma zeros_length n : String.length (zeros n) = n.
Proof.
  induction n as [|n IH]; [reflexivity|].
  rewrite zeros_step. cbn [String.length]. now rewrite IH.
Qed.

Lemma zeros_value n : forall acc, digits_value (zeros n) acc = acc * 10 ^ Z.of_nat n.
Proof.
  induction n as [|n IH]; intros acc.
  - cbn [zeros digits_value Z.of_nat]. rewrite Z.pow_0_r. lia.
  - rewrite zeros_step. cbn [digits_value]. rewrite IH.
    change (digit_value "0") with 0. rewrite Nat2Z.inj_succ, Z.pow_succ_r by lia. ring.
Qed.

Lemma substring_all s : substring 0 (String.length s) s = s.
Proof.
  induction s as [|c s IH]; [reflexivity|].
  cbn [String.length substring]. now rewrite IH.
Qed.

Lemma substring_split s : forall j, (j <= String.length s)%nat ->
  substring 0 j s ++ substring_from j s = s.
Proof.
  unfold substring_from.
  induction s as [|c s IH]; intros j Hj.
  - cbn [String.length] in Hj. assert (j = 0%nat) by lia. subst. reflexivity.
  - destruct j as [|j].
    + rewrite Nat.sub_0_r. change (substring 0 0 (String c s)) with "".
      cbn [append]. apply substring_all.
    + cbn [String.length] in Hj |- *. cbn [substring append Nat.sub]. f_equal.
      apply IH. lia.
Qed.

Lemma substring_prefix_length s : forall j, (j <= String.length s)%nat ->
  String.length (substring 0 j s) = j.
Proof.
  induction s as [|c s IH]; intros j Hj.
  - cbn [String.length] in Hj. assert (j = 0%nat) by lia. subst. reflexivity.
  - destruct j as [|j]; [reflexivity|]. cbn [String.length] in Hj.
    cbn [substring String.length]. f_equal. apply IH. lia.
Qed.

Lemma all_digits_substring s : forall a b,
  all_digits s = true -> all_digits (substring a b s) = true.
Proof.
  induction s as [|c s IH]; intros a b H.
  - destruct a, b; reflexivity.
  - cbn [all_digits] in H. apply andb_prop in H. destruct H as [Hc Hs].
    destruct a as [|a].
    + destruct b as [|b]; [reflexivity|]. cbn [substring all_digits].
      rewrite Hc. now apply IH.
    + cbn [substring]. now apply IH.
Qed.

(** Cutting a digit string strictly inside gives two digit strings that
    are not empty. *)
Lemma digits_cut ds j :
  all_digits ds = true -> (0 < j < String.length ds)%nat ->
  substring 0 j ds ++ substring_from j ds = ds /\
  all_digits (substring 0 j ds) = true /\ substring 0 j ds <> "" /\
  all_digits (substring_from j ds) = true /\ substring_from j ds <> "" /\
  Z.of_nat (String.length (substring_from j ds)) = Z.of_nat (String.length ds) - Z.of_nat j.
Proof.
  intros Hd Hj.
  pose proof (substring_split ds j ltac:(lia)) as E.
  pose proof (substring_prefix_length ds j ltac:(lia)) as L.
  pose proof (f_equal String.length E) as L2. rewrite string_length_app, L in L2.
  repeat split.
  - exact E.
  - now apply all_digits_substring.
  - intros C. rewrite C in L. cbn in L. lia.
  - now apply all_digits_substring.
  - intros C. rewrite C in L2. cbn in L2. lia.
  - lia.
Qed.

(** *** The five layouts of [repr] *)

(** The exponent of the exponent notation, written with at least two
    digits. *)
Lemma exponent_digits ex :
  ex <> 0 ->
  let D := if Z.abs ex <? 10 then "0" ++ str_of_Z (Z.abs ex) else str_of_Z (Z.abs ex) in
  all_digits D = true /\ D <> "" /\
  (if ex <? 0 then - digits_value D 0 else digits_value D 0) = ex.
Proof.
  intros Hex D.
  destruct (Z.abs ex) as [|q|q] eqn:Ea; [lia| |lia].
  destruct (str_of_Z_digits q) as (Hd & Hv & c0 & s0 & Es & _).
  assert (HD : all_digits D = true /\ D <> "" /\ digits_value D 0 = Z.pos q).
  { subst D. destruct (Z.pos q <? 10).
    - cbn [append all_digits digits_value]. rewrite Hd.
      repeat split; [discriminate|exact Hv].
    - repeat split; [exact Hd|rewrite Es; discriminate|exact Hv]. }
  destruct HD as (H1 & H2 & H3). repeat split; [exact H1|exact H2|].
  rewrite H3. destruct (ex <? 0) eqn:S; [apply Z.ltb_lt in S|apply Z.ltb_ge in S]; lia.
Qed.

(** Whatever layout [repr] chooses for the digits of [c] and the decimal
    exponent [k], [float] reads the text as [c * 10^k]. *)
Lemma layout_reads_back (neg : bool) p k :
  float_of_string ((if neg then "-" else "")
                   ++ layout_repr (str_of_Z (Z.pos p))
                        (k + Z.of_nat (String.length (str_of_Z (Z.pos p)))))
  = Ok (decimal_to_float neg (Z.pos p) k).
Proof.
  destruct (str_of_Z_digits p) as (Hd & Hv & c0 & s0 & Es & _).
  set (ds := str_of_Z (Z.pos p)) in *.
  assert (Hne : ds <> "") by (rewrite Es; discriminate).
  assert (Hn : 1 <= Z.of_nat (String.length ds))
    by (rewrite Es; cbn [String.length]; lia).
  unfold layout_repr.
  set (n := Z.of_nat (String.length ds)) in *.
  set (decpt := k + n).
  destruct ((-4 <? decpt) && (decpt <=? 16)) eqn:Hrange.
  - destruct (decpt <=? 0) eqn:H0; [|destruct (n <=? decpt) eqn:H1].
    + apply Z.leb_le in H0.
      change ("0." ++ zeros (Z.to_nat (- decpt)) ++ ds)
        with ("0" ++ "." ++ zeros (Z.to_nat (- decpt)) ++ ds).
      rewrite float_of_string_fixed;
        [|reflexivity|discriminate
         |rewrite all_digits_app, zeros_digits, Hd; reflexivity
         |intros C; apply (f_equal String.length) in C;
          rewrite string_length_app in C; cbn [String.length] in C; lia].
      f_equal. f_equal.
      * rewrite !digits_value_app, zeros_value.
        change (digits_value "0" 0) with 0. rewrite Z.mul_0_l. exact Hv.
      * rewrite string_length_app, zeros_length, Nat2Z.inj_add, Z2Nat.id by lia.
        fold n. lia.
    + apply Z.leb_le in H1.
      set (z := Z.to_nat (decpt - n)).
      assert (E : ds ++ zeros z ++ ".0" = (ds ++ zeros z) ++ "." ++ "0")
        by now rewrite string_app_assoc.
      rewrite E, float_of_string_fixed;
        [|rewrite all_digits_app, zeros_digits, Hd; reflexivity
         |intros C; apply (f_equal String.length) in C;
          rewrite string_length_app in C; cbn [String.length] in C; lia
         |reflexivity|discriminate].
      f_equal. rewrite !digits_value_app, zeros_value, Hv.
      cbn [digits_value String.length]. change (digit_value "0") with 0.
      assert (Ez : Z.of_nat z = k) by (subst z; rewrite Z2Nat.id; lia).
      rewrite Ez.
      assert (Hk : 0 <= k) by lia.
      pose proof (Z.pow_pos_nonneg 10 k ltac:(lia) Hk) as Hp.
      apply decimal_to_float_same; [nia|lia|].
      rewrite (pow10_Z k Hk). change (pow10 (0 - Z.of_nat 1)) with (1 # 10)%Q.
      rewrite Z.add_0_r, !inject_Z_mult. change (inject_Z 10) with (10 # 1)%Q. field.
    + apply Z.leb_gt in H0. apply Z.leb_gt in H1.
      destruct (digits_cut ds (Z.to_nat decpt) Hd ltac:(lia))
        as (E & HI & HIne & HF & HFne & L).
      rewrite float_of_string_fixed by assumption.
      rewrite E, Hv, L, Z2Nat.id by lia. fold n. do 2 f_equal. lia.
  - set (ex := decpt - 1).
    assert (Hex : ex <> 0).
    { apply andb_false_iff in Hrange.
      destruct Hrange as [H | H]; [apply Z.ltb_ge in H|apply Z.leb_gt in H]; lia. }
    destruct (exponent_digits ex Hex) as (HD & HDne & Hval). cbv zeta in HD, HDne, Hval.
    set (D := if Z.abs ex <? 10 then "0" ++ str_of_Z (Z.abs ex) else str_of_Z (Z.abs ex)) in *.
    destruct (n =? 1) eqn:N1.
    + apply Z.eqb_eq in N1.
      rewrite (float_of_string_sci_nopoint neg (ex <? 0) ds D) by assumption.
      rewrite Hv, Hval. do 2 f_equal. lia.
    + apply Z.eqb_neq in N1.
      destruct (digits_cut ds 1 Hd ltac:(lia)) as (E & HI & HIne & HF & HFne & L).
      rewrite string_app_assoc.
      change (("." ++ substring_from 1 ds) ++ "e" ++ (if ex <? 0 then "-" else "+") ++ D)
        with ("." ++ substring_from 1 ds ++ "e" ++ (if ex <? 0 then "-" else "+") ++ D).
      rewrite (float_of_string_sci_point neg (ex <? 0)) by assumption.
      rewrite E, Hv, Hval, L. fold n. do 2 f_equal. lia.
Qed.

(** X20. The text of a float reads back as the same float: for every
    double [x] (a zero of either sign, an infinity, a finite number,
    normal or subnormal), [float(repr(x))] succeeds and is [x] itself,
    sign and bits; the text of the NaN reads back as the NaN.  So the
    coordinates that [fetch_routes] writes
    into the request with an f-string denote exactly the doubles that
    [geocode] obtained with [float], whatever layout [repr] chose (plain
    digits, leading or trailing zeros, or exponent notation). *)
Theorem float_repr_reads_back :
  forall x : float,
    valid_binary 53 1024 x = true ->
    float_of_string (float_repr x) = Ok x.
Proof.
  intros [s|s| |s m e] Hx.
  - destruct s; vm_compute; reflexivity.
  - destruct s; reflexivity.
  - reflexivity.
  - cbn [valid_binary] in Hx.
    pose proof (repr_digits_ok m e Hx) as R. cbv zeta in R.
    unfold float_repr, float_repr_abs. cbn [sign_bit].
    destruct (shortest_decimal 17 1 m e) as [c k]. cbn [fst snd] in R.
    destruct (strip_zeros 20 c k) as [c' k']. cbn [fst snd] in R.
    destruct R as [Hc R]. destruct c' as [|p|p]; try lia.
    rewrite layout_reads_back. f_equal.
    destruct s; [|exact R].
    unfold decimal_to_float. change true with (negb false).
    rewrite round_ratio_opp. fold (decimal_to_float false (Z.pos p) k').
    rewrite R. reflexivity.
Qed.

Lemma float_repr_reads_back_witness :
  valid_binary 53 1024 (S754_finite true 8050184333924762 (-48)) = true /\
  float_repr (S754_finite true 8050184333924762 (-48)) = "-28.6" /\
  float_of_string (float_repr (S754_finite true 8050184333924762 (-48)))
  = Ok (S754_finite true 8050184333924762 (-48)).
Proof.
  split; [reflexivity|]. split; [vm_compute; reflexivity|].
  apply (float_repr_reads_back (S754_finite true 8050184333924762 (-48))).
  reflexivity.
Defined.
